(** * ImpatialTextClassifier: a shallow embedding of
      [impatial_text_cls/impatial_text_cls.py]

    The development follows the Python module function by function.
    Python exceptions are values of [exn] carried by the [result] monad;
    NumPy integer arrays are [ndarray]s of rank one or two; probabilities
    are exact rationals ([Q]); the attribute dictionary of a classifier
    instance and the pickled parameter dictionary are [gmap string value];
    the temporary directory is a finite map from paths to file contents. *)

From Stdlib Require Import ZArith QArith Lia Lqa List String Ascii Reals Lra.
From stdpp Require Import gmap strings list sorting.

Open Scope Z_scope.
Open Scope nat_scope.
Open Scope string_scope.
Open Scope list_scope.

(** ** Python exceptions and the result monad *)

(** Parameters of the messages the module formats into its [ValueError]s,
    and the library errors the embedded code can run into. *)
Inductive message : Type :=
| MsgNotOrdered (expected actual : list Z)
    (* '`y` is wrong! Labels of classes are not ordered. Expected a `{0}`, but got a `{1}`.' *)
| MsgTooFewClasses (y_name : string)
    (* '`{0}` is wrong! There are too few classes in the `{0}`.' *)
| MsgLengthMismatch (X_name y_name : string) (len_X len_y : nat)
    (* 'Length of `{0}` does not correspond to length of `{1}`! {2} != {3}' *)
| MsgNoLabeledSamples
    (* 'There are no labeled data samples!' *)
| MsgFileExists (path : string * string)
    (* 'File `{0}` exists, and so it cannot be used for data transmission!' *)
| MsgParamNotSpecified (name : string)
    (* '`{name}` is not specified!' *)
| MsgParamWrong (name : string)
    (* '`{name}` is wrong! ...' *)
| MsgNumpyDimensions
    (* numpy: 'all the input arrays must have same number of dimensions' *)
| MsgNumpyShapes
    (* numpy: array dimensions or broadcast shapes do not match *)
| MsgNumpyEmptyReduction.
    (* numpy: 'zero-size array to reduction operation minimum which has no identity' *)

Inductive exn : Type :=
| ValueError (m : message)
| IndexError
| KeyError (key : string)
| AttributeError (name : string)
| TypeError
| ZeroDivisionError
| AssertionError
| NotFittedError
| FileNotFoundError (path : string * string)
| OverflowError               (* 'Python int too large to convert to C long' *)
| RuntimeError (code : nat).   (* an error raised inside the TensorFlow session *)

Inductive result (A : Type) : Type :=
| Ok (a : A)
| Raise (e : exn).
Arguments Ok {A} a.
Arguments Raise {A} e.

#[global] Instance result_ret : MRet result := fun A a => Ok a.
#[global] Instance result_bind : MBind result := fun A B k r =>
  match r with
  | Ok a => k a
  | Raise e => Raise e
  end.

(** [[f(x) for x in l]] where [f] may raise: stops at the first exception. *)
Fixpoint mapM {A B : Type} (f : A -> result B) (l : list A) : result (list B) :=
  match l with
  | [] => Ok []
  | a :: l' => b ← f a; bs ← mapM f l'; Ok (b :: bs)
  end.

Definition is_ok {A : Type} (r : result A) : bool :=
  match r with Ok _ => true | Raise _ => false end.

(** The value of a computation, or a default when it raised. *)
Definition value_or {A : Type} (d : A) (r : result A) : A :=
  match r with Ok a => a | Raise _ => d end.

(** ** NumPy integer arrays *)

(** The module only handles arrays of rank one (label vectors, index
    vectors) and rank two (token matrices). The column count of a rank-two
    array is kept explicitly, so that the shape [(0, w)] exists. *)
Inductive ndarray : Type :=
| Arr1 (data : list Z)
| Arr2 (ncols : nat) (rows : list (list Z)).

(** [a.shape[0]] *)
Definition shape0 (a : ndarray) : nat :=
  match a with
  | Arr1 d => length d
  | Arr2 _ rs => length rs
  end.

(** What [a[-1]] evaluates to: a scalar for a vector, a row for a matrix. *)
Inductive item : Type :=
| Scalar (z : Z)
| Row (r : list Z).

(** [a[-1]] *)
Definition np_last (a : ndarray) : result item :=
  match a with
  | Arr1 d => match last d with
              | Some z => Ok (Scalar z)
              | None => Raise IndexError
              end
  | Arr2 _ rs => match last rs with
                 | Some r => Ok (Row r)
                 | None => Raise IndexError
                 end
  end.

(** [np.full(shape=(n, w), fill_value=v)]: a scalar fills every cell; a
    vector is broadcast along the rows and must have [w] entries (or one);
    a negative dimension is refused. *)
Definition np_full (n : Z) (w : nat) (v : item) : result ndarray :=
  if decide (n < 0)%Z then Raise (ValueError MsgNumpyShapes) else
  let n := Z.to_nat n in
  match v with
  | Scalar z => Ok (Arr2 w (repeat (repeat z w) n))
  | Row r =>
      if decide (length r = w) then Ok (Arr2 w (repeat r n))
      else match r with
           | [z] => Ok (Arr2 w (repeat (repeat z w) n))
           | _ => Raise (ValueError MsgNumpyShapes)
           end
  end.

(** [np.concatenate((a, b))] along the first axis. *)
Definition np_concatenate (a b : ndarray) : result ndarray :=
  match a, b with
  | Arr1 d1, Arr1 d2 => Ok (Arr1 (d1 ++ d2))
  | Arr2 w1 r1, Arr2 w2 r2 =>
      if decide (w1 = w2) then Ok (Arr2 w1 (r1 ++ r2))
      else Raise (ValueError MsgNumpyShapes)
  | _, _ => Raise (ValueError MsgNumpyDimensions)
  end.

(** [a[indices]] with an integer index vector. *)
Definition np_take (a : ndarray) (indices : list nat) : result ndarray :=
  match a with
  | Arr1 d =>
      d' ← mapM (fun i => match d !! i with
                           | Some z => Ok z | None => Raise IndexError end) indices;
      Ok (Arr1 d')
  | Arr2 w rs =>
      rs' ← mapM (fun i => match rs !! i with
                            | Some r => Ok r | None => Raise IndexError end) indices;
      Ok (Arr2 w rs')
  end.

(** [np.arange(0, n, 1)]: empty when [n] is not positive. *)
Definition np_arange (n : Z) : list nat := seq 0 (Z.to_nat n).

(** ** [ImpatialTextClassifier.extend_Xy] *)

Definition MAX_SEQ_LENGTH : nat := 512.

Section ExtendXy.

(** [np.random.shuffle], as a function of the index vector it permutes. *)
Variable np_random_shuffle : list nat -> list nat.

(** One comprehension step of [X_ext]. *)
Definition extend_column (n_extend : Z) (col : ndarray) : result ndarray :=
  fill_value ← np_last col;
  pad ← np_full n_extend MAX_SEQ_LENGTH fill_value;
  np_concatenate col pad.

Definition extend_Xy (batch_size : Z) (X : list ndarray) (y : option ndarray)
    (shuffle : bool) : result (list ndarray * option ndarray) :=
  match X with
  | [] => Raise IndexError
  | X0 :: _ =>
      let n_samples := Z.of_nat (shape0 X0) in
      if decide (batch_size = 0)%Z then Raise ZeroDivisionError else
      let n_extend := (n_samples mod batch_size)%Z in
      if decide (n_extend = 0)%Z then Ok (X, y) else
      let n_extend := (batch_size - n_extend)%Z in
      X_ext ← mapM (extend_column n_extend) X;
      match y with
      | None =>
          if shuffle then
            let indices := np_random_shuffle (np_arange (n_samples + n_extend)) in
            X_sh ← mapM (fun col => np_take col indices) X_ext;
            Ok (X_sh, None)
          else Ok (X_ext, None)
      | Some y =>
          (* the pad of the labels is given the shape of the pad of the tokens *)
          fill_value ← np_last y;
          pad ← np_full n_extend MAX_SEQ_LENGTH fill_value;
          y_ext ← np_concatenate y pad;
          if shuffle then
            (* on this path the index vector is used as [np.arange] built it *)
            let indices := np_arange (n_samples + n_extend) in
            X_sh ← mapM (fun col => np_take col indices) X_ext;
            y_sh ← np_take y_ext indices;
            Ok (X_sh, Some y_sh)
          else Ok (X_ext, Some y_ext)
      end
  end.

End ExtendXy.

(** ** [check_X], [check_Xy] and the label check at the head of [fit] *)

(** The texts are modelled as [string]s and the labels as integers, so the
    tests on list-likeness, string-likeness, [None] and integrality are
    discharged by typing; what remains of [check_X] is its success. *)
Definition check_X (X : list string) (X_name : string) : result unit := Ok ().

(** [sorted(list(s))] for a Python set of integers. *)
Definition sorted_Z (s : gset Z) : list Z := merge_sort Z.le (elements s).

(** The loop that collects the non-negative labels into [classes_list]. *)
Definition collect_classes (y : list Z) : gset Z :=
  foldl (fun classes_list class_idx =>
           if decide (0 ≤ class_idx)%Z then classes_list ∪ {[class_idx]}
           else classes_list) ∅ y.

Definition check_Xy (X : list string) (X_name : string)
    (y : list Z) (y_name : string) : result (list Z) :=
  _ ← check_X X X_name;
  let n := length y in
  if decide (n ≠ length X) then
    Raise (ValueError (MsgLengthMismatch X_name y_name (length X) (length y)))
  else
    let classes_list := collect_classes y in
    if decide (size classes_list < 2) then
      Raise (ValueError (MsgTooFewClasses y_name))
    else Ok (sorted_Z classes_list).

(** [list(range(n))] *)
Definition py_range (n : nat) : list Z := Z.of_nat <$> seq 0 n.

(** Lines 49-54 of [fit]: the value assigned to [n_classes_]. *)
Definition fit_n_classes (X : list string) (y : list Z) : result nat :=
  classes_in_dataset ← check_Xy X "X" y "y";
  match head classes_in_dataset, last classes_in_dataset with
  | Some first, Some final =>
      if decide (first ≠ 0%Z ∨ final ≠ (Z.of_nat (length classes_in_dataset) - 1)%Z) then
        Raise (ValueError (MsgNotOrdered (py_range (length classes_in_dataset))
                                         classes_in_dataset))
      else Ok (length classes_in_dataset)
  | _, _ => Raise IndexError
  end.

(** ** Python values, instance dictionaries and the temporary directory *)

(** The values of the session's variables, as the saver writes them. *)
Definition weights : Type := list Z.

Inductive value : Type :=
| VNone
| VBool (b : bool)
| VInt (z : Z)
| VFloat (q : Q)
| VStr (s : string)
| VTuple (items : list Z)
| VBytes (data : weights)
| VTokenizer (vocab_file : string) (do_lower_case : bool)
| VSession (variables : option weights)     (* [None]: variables not initialised *)
| VPlaceholder (rows cols : nat)            (* [cols = 0] for a vector *)
| VLogits (rows cols : nat)
| VCategorical (rows cols : nat).

(** The [__dict__] of an instance, and a [**kwargs] or pickled dictionary. *)
Abbreviation attrs := (gmap string value).

(** A path is a directory and a file name: [os.path.join], [dirname] and
    [basename] are pairing and the two projections. *)
Abbreviation path := (string * string)%type.
Abbreviation filesystem := (gmap (string * string) weights).

(** [self.name]; Python raises [AttributeError] when it is missing. *)
Definition getattr (self : attrs) (name : string) : result value :=
  match self !! name with
  | Some v => Ok v
  | None => Raise (AttributeError name)
  end.

(** [hasattr(self, name)] *)
Definition hasattr (self : attrs) (name : string) : bool :=
  bool_decide (is_Some (self !! name)).

(** [isinstance(v, int)]: Python's [bool] is a subclass of [int]. *)
Definition as_int (v : value) : option Z :=
  match v with
  | VInt z => Some z
  | VBool b => Some (if b then 1 else 0)%Z
  | _ => None
  end.

Definition as_float (v : value) : option Q :=
  match v with VFloat q => Some q | _ => None end.

Definition Qltb (a b : Q) : bool := negb (Qle_bool b a).

(** *** [check_params] *)

Definition require (kwargs : attrs) (name : string) : result value :=
  match kwargs !! name with
  | Some v => Ok v
  | None => Raise (ValueError (MsgParamNotSpecified name))
  end.

(** An integer parameter that has to be at least one. *)
Definition check_positive_int (kwargs : attrs) (name : string) : result unit :=
  v ← require kwargs name;
  match as_int v with
  | None => Raise (ValueError (MsgParamWrong name))
  | Some z => if decide (z < 1)%Z then Raise (ValueError (MsgParamWrong name)) else Ok ()
  end.

Definition check_params (kwargs : attrs) : result unit :=
  _ ← check_positive_int kwargs "batch_size";
  handle ← require kwargs "bert_hub_module_handle";
  _ ← match handle with
      | VNone => Ok ()
      | VStr s => if decide (String.length s < 1) then
                    Raise (ValueError (MsgParamWrong "bert_hub_module_handle"))
                  else Ok ()
      | _ => Raise (ValueError (MsgParamWrong "bert_hub_module_handle"))
      end;
  _ ← check_positive_int kwargs "max_epochs";
  _ ← check_positive_int kwargs "num_monte_carlo";
  _ ← check_positive_int kwargs "patience";
  seed ← require kwargs "random_seed";
  _ ← match seed with
      | VNone => Ok ()
      | _ => match as_int seed with
             | Some _ => Ok ()
             | None => Raise (ValueError (MsgParamWrong "random_seed"))
             end
      end;
  frac ← require kwargs "gpu_memory_frac";
  _ ← match as_float frac with
      | None => Raise (ValueError (MsgParamWrong "gpu_memory_frac"))
      | Some q => if Qle_bool q 0 || Qltb 1 q then
                    Raise (ValueError (MsgParamWrong "gpu_memory_frac"))
                  else Ok ()
      end;
  vfrac ← require kwargs "validation_fraction";
  _ ← match as_float vfrac with
      | None => Raise (ValueError (MsgParamWrong "validation_fraction"))
      | Some q => if Qltb q 0 then Raise (ValueError (MsgParamWrong "validation_fraction"))
                  else if Qle_bool 1 q then
                    Raise (ValueError (MsgParamWrong "validation_fraction"))
                  else Ok ()
      end;
  verbose ← require kwargs "verbose";
  _ ← match as_int verbose with
      | None => Raise (ValueError (MsgParamWrong "verbose"))
      | Some _ => Ok ()
      end;
  sizes ← require kwargs "hidden_layer_sizes";
  match sizes with
  | VTuple items =>
      if decide (length items < 1) then Raise (ValueError (MsgParamWrong "hidden_layer_sizes"))
      else if forallb (fun layer_size => negb (layer_size <=? 0)%Z) items then Ok ()
      else Raise (ValueError (MsgParamWrong "hidden_layer_sizes"))
  | _ => Raise (ValueError (MsgParamWrong "hidden_layer_sizes"))
  end.

(** *** [get_params], [set_params], [is_fitted], [finalize_model] *)

Definition param_names : list string :=
  ["bert_hub_module_handle"; "batch_size"; "max_epochs"; "patience";
   "hidden_layer_sizes"; "validation_fraction"; "gpu_memory_frac"; "verbose";
   "random_seed"; "num_monte_carlo"].

(** The dictionary display [{name: self.name, ...}]: the attributes are read
    from left to right, so the first one that is missing raises, and each
    value is stored under its name. *)
Fixpoint dict_display (self : attrs) (names : list string) (params : attrs) : result attrs :=
  match names with
  | [] => Ok params
  | name :: rest => v ← getattr self name; dict_display self rest (<[name := v]> params)
  end.

Definition get_params (self : attrs) : result attrs := dict_display self param_names ∅.

(** [for parameter, value in params.items(): self.__setattr__(parameter, value)] *)
Definition set_params (self : attrs) (params : attrs) : attrs := params ∪ self.

Definition fitted_attributes : list string :=
  ["n_classes_"; "logits_"; "tokenizer_"; "input_ids_"; "input_mask_"; "segment_ids_";
   "labels_distribution_"; "y_ph_"; "sess_"; "certainty_threshold_"].

(** [check_is_fitted(self, [...])] *)
Definition is_fitted (self : attrs) : result unit :=
  if forallb (hasattr self) fitted_attributes then Ok () else Raise NotFittedError.

Definition finalize_model (self : attrs) : attrs :=
  foldr delete self
    ["input_ids_"; "input_mask_"; "segment_ids_"; "y_ph_"; "logits_";
     "labels_distribution_"; "sess_"].

(** ** The temporary directory *)

(** [os.path.isfile(p)] *)
Definition isfile (fs : filesystem) (p : path) : bool :=
  bool_decide (is_Some (fs !! p)).

(** [os.listdir(dir_name)] *)
Definition listdir (fs : filesystem) (dir_name : string) : list string :=
  snd <$> filter (fun p : path => p.1 = dir_name) (elements (dom fs)).

(** [os.remove(p)] *)
Definition os_remove (fs : filesystem) (p : path) : result unit * filesystem :=
  match fs !! p with
  | Some _ => (Ok (), delete p fs)
  | None => (Raise (FileNotFoundError p), fs)
  end.

(** [for cur_name in names: os.remove(cur_name)]: the first failure ends it. *)
Fixpoint remove_all (fs : filesystem) (names : list path) : result unit * filesystem :=
  match names with
  | [] => (Ok (), fs)
  | cur_name :: rest =>
      match os_remove fs cur_name with
      | (Ok _, fs') => remove_all fs' rest
      | (Raise e, fs') => (Raise e, fs')
      end
  end.

(** [str.lower], on the ASCII letters. *)
Definition lower_char (c : ascii) : ascii :=
  let n := nat_of_ascii c in
  if ((65 <=? n) && (n <=? 90))%nat then ascii_of_nat (n + 32) else c.

Fixpoint lower (s : string) : string :=
  match s with
  | EmptyString => EmptyString
  | String c s' => String (lower_char c) (lower s')
  end.

(** [s.find(sub)] *)
Definition str_find (s sub : string) : Z :=
  match String.index 0 sub s with
  | Some n => Z.of_nat n
  | None => (-1)%Z
  end.

(** The order in which [sorted] puts two paths. *)
Definition path_le (p q : path) : Prop :=
  String.leb (p.1 +:+ "/" +:+ p.2) (q.1 +:+ "/" +:+ q.2) = true.

#[global] Instance path_le_dec p q : Decision (path_le p q).
Proof. unfold path_le. apply _. Defined.

(** The filter of [find_all_model_files]. *)
Definition matches_model_name (base_name it : string) : bool :=
  bool_decide (0 ≤ str_find (lower it) (lower base_name))%Z.

Definition find_all_model_files (fs : filesystem) (model_name : path) : list path :=
  let model_files := if isfile fs model_name then [model_name] else [] in
  let dir_name := model_name.1 in
  let base_name := model_name.2 in
  let model_files :=
    model_files ++
    ((fun cur => (dir_name, cur)) <$>
       filter (fun it => matches_model_name base_name it = true) (listdir fs dir_name)) in
  merge_sort path_le model_files.

(** ** The collaborators: tokenizer, session and saver *)

(** What the module obtains from [bert.tokenization], TensorFlow and
    TensorFlow Probability. A stochastic forward pass is a function of the
    variables, of the number of the [sess_.run] call that draws the weights,
    and of the fed batch; it yields the probability of a class for a row. *)
Class Collaborators : Type := {
  (* [FullTokenizer(vocab_file, do_lower_case).tokenize(text)] *)
  tokenizer_tokenize : string -> bool -> string -> list string;
  (* [FullTokenizer(...).convert_tokens_to_ids(tokens)] *)
  tokenizer_convert_tokens_to_ids : string -> bool -> list string -> list Z;
  (* suffixes of the files [tf.train.Saver.save] writes next to [file_name] *)
  saver_suffixes : list string;
  (* [self.labels_distribution_.probs] evaluated by one [sess_.run] *)
  probs_of_run : weights -> nat -> list ndarray -> nat -> nat -> Q
}.

Section Model.

Context `{Collaborators}.

(** [tf.train.Saver.save(self.sess_, file_name)]: the files of the model,
    whose names are [file_name] followed by a suffix. The saver also keeps
    its state file, named [checkpoint], in the directory of [file_name];
    that file is not one of the model, and a [filesystem] here holds the
    files of a directory other than it. *)
Definition save_model (self : attrs) (file_name : path) (fs : filesystem)
    : result unit * filesystem :=
  match getattr self "sess_" with
  | Ok (VSession (Some w)) =>
      (Ok (),
       foldr (fun sfx fs' => <[(file_name.1, file_name.2 +:+ sfx) := w]> fs') fs
             saver_suffixes)
  | Ok (VSession None) => (Raise (RuntimeError 1), fs)
  | Ok _ => (Raise TypeError, fs)
  | Raise e => (Raise e, fs)
  end.

(** [tf.train.Saver.restore(self.sess_, file_name)] *)
Definition load_model (self : attrs) (file_name : path) (fs : filesystem)
    : result attrs :=
  sess ← getattr self "sess_";
  match sess with
  | VSession _ =>
      match saver_suffixes with
      | [] => Raise (RuntimeError 2)
      | sfx :: _ =>
          if forallb (fun s => isfile fs (file_name.1, file_name.2 +:+ s)) saver_suffixes
          then match fs !! (file_name.1, file_name.2 +:+ sfx) with
               | Some w => Ok (<["sess_" := VSession (Some w)]> self)
               | None => Raise (RuntimeError 2)
               end
          else Raise (RuntimeError 2)
      end
  | _ => Raise TypeError
  end.

(** [build_model]: a new session and the nodes of a new graph are bound to
    the instance; the train and accuracy operations it returns belong to
    the epoch step and are not represented. *)
Definition build_model (self : attrs) : result attrs :=
  _ ← getattr self "gpu_memory_frac";
  let self := <["sess_" := VSession None]> self in
  batch_size ← getattr self "batch_size";
  match as_int batch_size with
  | None => Raise TypeError
  | Some b =>
      if decide (b < 0)%Z then Raise (ValueError MsgNumpyShapes) else
      let b := Z.to_nat b in
      let self := <["input_ids_" := VPlaceholder b MAX_SEQ_LENGTH]> self in
      let self := <["input_mask_" := VPlaceholder b MAX_SEQ_LENGTH]> self in
      let self := <["segment_ids_" := VPlaceholder b MAX_SEQ_LENGTH]> self in
      let self := <["y_ph_" := VPlaceholder b 0]> self in
      handle ← getattr self "bert_hub_module_handle";
      match handle with
      | VStr _ =>
          _ ← getattr self "verbose";
          sizes ← getattr self "hidden_layer_sizes";
          match sizes with
          | VTuple _ =>
              _ ← getattr self "random_seed";
              n_classes ← getattr self "n_classes_";
              match as_int n_classes with
              | None => Raise TypeError
              | Some c =>
                  if decide (c < 0)%Z then Raise (ValueError MsgNumpyShapes) else
                  let c := Z.to_nat c in
                  let self := <["logits_" := VLogits b c]> self in
                  Ok (<["labels_distribution_" := VCategorical b c]> self)
              end
          | _ => Raise TypeError
          end
      | _ => Raise TypeError
      end
  end.

(** ** [tokenize_all] for inference ([y is None]) *)

(** The three rows a text contributes: token ids, mask, segment ids. *)
Definition tokenize_text (vocab_file : string) (do_lower_case : bool)
    (source_text : string) : result (list Z * list Z * list Z) :=
  let tokenized_text := tokenizer_tokenize vocab_file do_lower_case source_text in
  let tokenized_text :=
    if decide (MAX_SEQ_LENGTH - 2 < length tokenized_text)
    then take (MAX_SEQ_LENGTH - 2) tokenized_text else tokenized_text in
  let tokenized_text := ["[CLS]"] ++ tokenized_text ++ ["[SEP]"] in
  let token_IDs := tokenizer_convert_tokens_to_ids vocab_file do_lower_case tokenized_text in
  if decide (MAX_SEQ_LENGTH < length token_IDs) then Raise IndexError else
  let n := length token_IDs in
  Ok (token_IDs ++ repeat 0%Z (MAX_SEQ_LENGTH - n),
      repeat 1%Z n ++ repeat 0%Z (MAX_SEQ_LENGTH - n),
      repeat 0%Z MAX_SEQ_LENGTH).

Definition tokenize_all (self : attrs) (X : list string) : result (list ndarray) :=
  tokenizer ← getattr self "tokenizer_";
  match tokenizer with
  | VTokenizer vocab_file do_lower_case =>
      rows ← mapM (tokenize_text vocab_file do_lower_case) X;
      Ok [Arr2 MAX_SEQ_LENGTH ((fun r => r.1.1) <$> rows);
          Arr2 MAX_SEQ_LENGTH ((fun r => r.1.2) <$> rows);
          Arr2 MAX_SEQ_LENGTH ((fun r => r.2) <$> rows)]
  | _ => Raise TypeError
  end.

(** ** [tokenize_all] with labels (lines 471-499) *)

(** [[l[i] for i in indices]] *)
Definition py_getitems {A : Type} (l : list A) (indices : list nat) : result (list A) :=
  mapM (fun i => match l !! i with Some a => Ok a | None => Raise IndexError end) indices.

(** The 32 low bits of an integer, read in two's complement. *)
Definition wrap_int32 (z : Z) : Z := ((z + 2 ^ 31) mod 2 ^ 32 - 2 ^ 31)%Z.

(** [a[i] = z] for a Python integer [z] and an array [a] of [dtype=np.int32]
    (NumPy 1.16, a C long of 64 bits): the integer is converted to a C long,
    which raises [OverflowError] when it does not fit, and the long is cast
    to 32 bits without a check. *)
Definition np_int32_of_int (z : Z) : result Z :=
  if decide (- 2 ^ 63 <= z < 2 ^ 63)%Z then Ok (wrap_int32 z) else Raise OverflowError.

(** Splits the tokenized texts into the labeled rows with their labels and
    the rows whose label is negative ([None] when there are none). *)
Definition tokenize_all_with_labels (self : attrs) (X : list string) (y : list Z)
    : result (list ndarray * ndarray * option (list ndarray)) :=
  X_tokenized ← tokenize_all self X;
  let n_samples := length X in
  labels ← py_getitems y (seq 0 n_samples);
  let indexed := zip (seq 0 n_samples) labels in
  let indices_of_labeled_samples :=
    fst <$> filter (fun il : nat * Z => (0 <= il.2)%Z) indexed in
  let indices_of_unlabeled_samples :=
    fst <$> filter (fun il : nat * Z => ~ (0 <= il.2)%Z) indexed in
  if decide (length indices_of_labeled_samples = 0) then
    Raise (ValueError MsgNoLabeledSamples)
  else
    labels_of_labeled_samples ← py_getitems y indices_of_labeled_samples;
    y_tokenized ← mapM np_int32_of_int labels_of_labeled_samples;
    if decide (length indices_of_unlabeled_samples = 0) then
      Ok (X_tokenized, Arr1 y_tokenized, None)
    else
      X_tokenized_unlabeled ←
        mapM (fun col => np_take col indices_of_unlabeled_samples) X_tokenized;
      X_tokenized ← mapM (fun col => np_take col indices_of_labeled_samples) X_tokenized;
      Ok (X_tokenized, Arr1 y_tokenized, Some X_tokenized_unlabeled).

End Model.

(** ** Floating-point matrices, idealised as matrices of rationals *)

Definition mat_add (a b : list (list Q)) : list (list Q) :=
  zip_with (zip_with Qplus) a b.

(** [np.mean(np.asarray(probs), axis=0)] *)
Definition np_mean_axis0 (probs : list (list (list Q))) : list (list Q) :=
  match probs with
  | [] => []
  | p :: ps =>
      let total := foldl mat_add p ps in
      map (map (fun x => x / inject_Z (Z.of_nat (length probs)))%Q) total
  end.

(** Storing a float into an [np.int32] cell truncates it toward zero. *)
Definition to_int32 (q : Q) : Z := Z.quot (Qnum q) (Zpos (Qden q)).

(** [a[lo:hi]] on the rows of an array. *)
Definition py_slice {A : Type} (l : list A) (lo hi : nat) : list A :=
  take (hi - lo) (drop lo l).

Definition np_slice (a : ndarray) (lo hi : nat) : ndarray :=
  match a with
  | Arr1 d => Arr1 (py_slice d lo hi)
  | Arr2 w rs => Arr2 w (py_slice rs lo hi)
  end.

(** [target[lo:hi] = rows]: the shapes have to agree. *)
Definition np_assign_rows {A : Type} (ncols : nat) (target : list (list A)) (lo hi : nat)
    (rows : list (list A)) : result (list (list A)) :=
  if decide (length rows = length (py_slice target lo hi)
             ∧ Forall (fun r => length r = ncols) rows)
  then Ok (take lo target ++ rows ++ drop (lo + length rows) target)
  else Raise (ValueError MsgNumpyShapes).

(** [row.argmax()]: the first position of the greatest entry. *)
Fixpoint argmax_from {A : Type} (ltb : A -> A -> bool) (best_idx : nat) (best : A)
    (idx : nat) (l : list A) : nat :=
  match l with
  | [] => best_idx
  | x :: l' => if ltb best x then argmax_from ltb idx x (S idx) l'
               else argmax_from ltb best_idx best (S idx) l'
  end.

Definition np_argmax {A : Type} (ltb : A -> A -> bool) (row : list A) : result nat :=
  match row with
  | [] => Raise (ValueError MsgNumpyEmptyReduction)
  | x :: l => Ok (argmax_from ltb 0 x 1 l)
  end.

(** [row.max()] *)
Definition np_max (row : list Q) : result Q :=
  match row with
  | [] => Raise (ValueError MsgNumpyEmptyReduction)
  | x :: l => Ok (foldl (fun m v => if Qltb m v then v else m) x l)
  end.

(** [a.min()] *)
Definition np_min (a : list Q) : result Q :=
  match a with
  | [] => Raise (ValueError MsgNumpyEmptyReduction)
  | x :: l => Ok (foldl (fun m v => if Qltb v m then v else m) x l)
  end.

(** ** Inference: [fill_feed_dict], [predict_proba], [predict] *)

Section Inference.

Context `{Collaborators}.

(** A feed dictionary: each placeholder with the array fed to it. *)
Definition fill_feed_dict (self : attrs) (X : list ndarray) (y : option ndarray)
    : result (list (value * ndarray)) :=
  batch_size ← getattr self "batch_size";
  match X, as_int batch_size with
  | [X0; X1; X2], Some b =>
      if decide (Z.of_nat (shape0 X0) = b) then
        input_ids ← getattr self "input_ids_";
        input_mask ← getattr self "input_mask_";
        segment_ids ← getattr self "segment_ids_";
        let feed_dict := [(input_ids, X0); (input_mask, X1); (segment_ids, X2)] in
        match y with
        | None => Ok feed_dict
        | Some y => y_ph ← getattr self "y_ph_"; Ok (feed_dict ++ [(y_ph, y)])
        end
      else Raise AssertionError
  | _, _ => Raise AssertionError
  end.

(** The session accepts an array for a placeholder of the same shape. *)
Definition feedable (entry : value * ndarray) : bool :=
  match entry with
  | (VPlaceholder rows 0, Arr1 d) => bool_decide (length d = rows)
  | (VPlaceholder rows cols, Arr2 w rs) =>
      bool_decide (cols ≠ 0 ∧ w = cols ∧ length rs = rows)
  | _ => false
  end.

(** [self.sess_.run([self.labels_distribution_.probs], feed_dict=feed_dict)];
    [run] numbers the call. *)
Definition run_probs (self : attrs) (run : nat) (feed_dict : list (value * ndarray))
    : result (list (list Q)) :=
  sess ← getattr self "sess_";
  dist ← getattr self "labels_distribution_";
  match sess, dist with
  | VSession (Some w), VCategorical rows cols =>
      if forallb feedable feed_dict then
        Ok (map (fun i => map (fun c => probs_of_run w run (snd <$> feed_dict) i c)
                              (seq 0 cols))
                (seq 0 rows))
      else Raise (ValueError MsgNumpyShapes)
  | VSession None, VCategorical _ _ => Raise (RuntimeError 1)
  | _, _ => Raise TypeError
  end.

(** [np.mean(np.asarray([sess_.run(...) for _ in range(num_monte_carlo)]), axis=0)];
    the passes are the calls [run], [run + 1], ... *)
Definition monte_carlo_mean (self : attrs) (run : nat) (num_monte_carlo : nat)
    (feed_dict : list (value * ndarray)) : result (list (list Q)) :=
  probs ← mapM (fun k => run_probs self (run + k) feed_dict) (seq 0 num_monte_carlo);
  Ok (np_mean_axis0 probs).

(** [[(i * B, i * B + B) for i in range(n_batches)]] *)
Definition bounds_of_full_batches (n_batches batch_size : nat) : list (nat * nat) :=
  (fun iteration => (iteration * batch_size, iteration * batch_size + batch_size))
    <$> seq 0 n_batches.

(** The loop of [predict_proba] over [bounds_of_batches]. *)
Fixpoint predict_batches (self : attrs) (run num_monte_carlo n_classes : nat)
    (X_tokenized : list ndarray) (bounds : list (nat * nat))
    (probabilities : list (list Z)) : result (list (list Z)) :=
  match bounds with
  | [] => Ok probabilities
  | cur_batch :: rest =>
      feed_dict ← fill_feed_dict self
        ((fun channel => np_slice channel cur_batch.1 cur_batch.2) <$> X_tokenized) None;
      mean_probs ← monte_carlo_mean self run num_monte_carlo feed_dict;
      probabilities ← np_assign_rows n_classes probabilities cur_batch.1 cur_batch.2
                        (map (map to_int32) mean_probs);
      predict_batches self (run + num_monte_carlo) num_monte_carlo n_classes
        X_tokenized rest probabilities
  end.

(** [predict_proba]; [run] is the number of session calls made so far.
    The buffer [probabilities] has [dtype=np.int32]. *)
Definition predict_proba (self : attrs) (run : nat) (X : list string) : result ndarray :=
  kwargs ← get_params self;
  _ ← check_params kwargs;
  _ ← check_X X "X";
  _ ← is_fitted self;
  X_tokenized ← tokenize_all self X;
  match X_tokenized with
  | [] => Raise IndexError
  | X0 :: _ =>
      let n_samples := shape0 X0 in
      batch_size ← getattr self "batch_size";
      num_monte_carlo ← getattr self "num_monte_carlo";
      n_classes ← getattr self "n_classes_";
      match as_int batch_size, as_int num_monte_carlo, as_int n_classes with
      | Some b, Some m, Some c =>
          '(X_tokenized, _) ← extend_Xy (fun indices => indices) b X_tokenized None false;
          match X_tokenized with
          | [] => Raise IndexError
          | X0 :: _ =>
              let n_batches := (Z.of_nat (shape0 X0) / b)%Z in
              let bounds_of_batches :=
                bounds_of_full_batches (Z.to_nat n_batches) (Z.to_nat b) in
              if decide (c < 0)%Z then Raise (ValueError MsgNumpyShapes) else
              let probabilities := repeat (repeat 0%Z (Z.to_nat c)) (shape0 X0) in
              probabilities ← predict_batches self run (Z.to_nat m) (Z.to_nat c)
                                X_tokenized bounds_of_batches probabilities;
              Ok (Arr2 (Z.to_nat c) (py_slice probabilities 0 n_samples))
          end
      | _, _, _ => Raise TypeError
      end
  end.

(** The number a stored threshold compares as. *)
Definition as_number (v : value) : option Q :=
  match v with
  | VFloat q => Some q
  | VInt z => Some (inject_Z z)
  | VBool b => Some (inject_Z (if b then 1 else 0))
  | _ => None
  end.

(** The loop of [predict] that replaces uncertain classes by [-1]. *)
Definition recognize (certainty_threshold : Q) (row : list Z) (recognized_class : nat) : result Z :=
  match row !! recognized_class with
  | Some p => if Qltb (inject_Z p) certainty_threshold then Ok (-1)%Z
              else Ok (Z.of_nat recognized_class)
  | None => Raise IndexError
  end.

Definition predict (self : attrs) (run : nat) (X : list string) : result (list Z) :=
  probabilities ← predict_proba self run X;
  match probabilities with
  | Arr2 ncols rows =>
      if decide (ncols = 0) then Raise (ValueError MsgNumpyEmptyReduction) else
      recognized_classes ← mapM (np_argmax Z.ltb) rows;
      if decide (length recognized_classes = 0) then Ok [] else
      threshold ← getattr self "certainty_threshold_";
      match as_number threshold with
      | Some thr =>
          mapM (fun '(row, c) => recognize thr row c) (zip rows recognized_classes)
      | None => Raise TypeError
      end
  | Arr1 _ => Raise IndexError
  end.

End Inference.

(** ** The epoch loop of [fit] (lines 159-250) *)

(** How the [for] loop over the epochs was left. *)
Inductive loop_exit : Type :=
| Exhausted      (* [range(self.max_epochs)] ran out *)
| EarlyStopping. (* [break] *)

(** The variables the loop updates: the instance, the temporary directory,
    [best_acc] and [n_epochs_without_improving]. *)
Record loop_state : Type := LoopState {
  ls_self : attrs;
  ls_fs : filesystem;
  ls_best_acc : option Q;
  ls_n_epochs_without_improving : nat
}.

Section Training.

Context `{Collaborators}.

(** Lines 163-201 of one epoch: the optimizer steps over the shuffled
    batches and the quality of the epoch ([f1_test] with a validation set,
    [acc_train] without one), as a function of the epoch and of the
    variables the epoch starts from; it may raise. *)
Variable run_epoch : nat -> weights -> result (weights * Q).

Variable tmp_model_name : path.

(** Lines 202-211 and 228-237: both branches select the model alike. *)
Definition select_model (st : loop_state) (acc : Q) : result unit * loop_state :=
  let improved :=
    match ls_best_acc st with
    | None => true
    | Some best_acc => Qltb best_acc acc
    end in
  if improved then
    match save_model (ls_self st) tmp_model_name (ls_fs st) with
    | (Ok _, fs) => (Ok (), LoopState (ls_self st) fs (Some acc) 0)
    | (Raise e, fs) => (Raise e, LoopState (ls_self st) fs (Some acc) (ls_n_epochs_without_improving st))
    end
  else
    (Ok (), LoopState (ls_self st) (ls_fs st) (ls_best_acc st)
                      (S (ls_n_epochs_without_improving st))).

(** Lines 244-247. *)
Definition restore_best (st : loop_state) : result loop_state :=
  match ls_best_acc st with
  | None => Ok st
  | Some _ =>
      self ← build_model (finalize_model (ls_self st));
      self ← load_model self tmp_model_name (ls_fs st);
      Ok (LoopState self (ls_fs st) (ls_best_acc st) (ls_n_epochs_without_improving st))
  end.

(** [for epoch in epochs: ...]; the state is returned on every exit, since
    the files written so far outlive an exception. *)
Fixpoint epoch_loop (patience : Z) (epochs : list nat) (st : loop_state)
    : result loop_exit * loop_state :=
  match epochs with
  | [] => (Ok Exhausted, st)
  | epoch :: rest =>
      match getattr (ls_self st) "sess_" with
      | Ok (VSession (Some w)) =>
          match run_epoch epoch w with
          | Raise e => (Raise e, st)
          | Ok (w', acc) =>
              let st := LoopState (<["sess_" := VSession (Some w')]> (ls_self st))
                          (ls_fs st) (ls_best_acc st) (ls_n_epochs_without_improving st) in
              match select_model st acc with
              | (Raise e, st) => (Raise e, st)
              | (Ok _, st) =>
                  if decide (patience ≤ Z.of_nat (ls_n_epochs_without_improving st))%Z
                  then (Ok EarlyStopping, st)
                  else match restore_best st with
                       | Raise e => (Raise e, st)
                       | Ok st => epoch_loop patience rest st
                       end
              end
          end
      | Ok (VSession None) => (Raise (RuntimeError 1), st)
      | Ok _ => (Raise TypeError, st)
      | Raise e => (Raise e, st)
      end
  end.

(** The [try] block of lines 160-247. *)
Definition fit_try (self : attrs) (fs : filesystem) : result loop_exit * loop_state :=
  let st := LoopState self fs None 0 in
  match getattr self "max_epochs", getattr self "patience" with
  | Ok max_epochs, Ok patience =>
      match as_int max_epochs, as_int patience with
      | Some e, Some p => epoch_loop p (seq 0 (Z.to_nat e)) st
      | _, _ => (Raise TypeError, st)
      end
  | Raise e, _ => (Raise e, st)
  | _, Raise e => (Raise e, st)
  end.

(** Lines 160-250: the [try] block and its [finally] clause. An exception
    of the clause replaces the outcome of the block. *)
Definition fit_epochs (self : attrs) (fs : filesystem) : result loop_exit * loop_state :=
  let '(outcome, st) := fit_try self fs in
  let '(removed, fs') :=
    remove_all (ls_fs st) (find_all_model_files (ls_fs st) tmp_model_name) in
  let st' := LoopState (ls_self st) fs' (ls_best_acc st) (ls_n_epochs_without_improving st) in
  match removed with
  | Raise e => (Raise e, st')
  | Ok _ => (outcome, st')
  end.

End Training.

(** ** Certainty threshold (lines 251-321 of [fit]) *)

(** [target[lo:hi] = values] on a vector: the lengths have to agree. *)
Definition np_assign_slice {A : Type} (target : list A) (lo hi : nat) (values : list A)
    : result (list A) :=
  if decide (length values = length (py_slice target lo hi))
  then Ok (take lo target ++ values ++ drop (lo + length values) target)
  else Raise (ValueError MsgNumpyShapes).

(** [sklearn.metrics.f1_score(y_true, y_pred)] for binary labels, the
    positive label being 1; a quotient with a zero denominator counts as 0. *)
Definition count_pairs (t p : bool) (y_true y_pred : list bool) : Z :=
  Z.of_nat (length (filter (fun tp : bool * bool => tp = (t, p)) (zip y_true y_pred))).

Definition safe_div (a b : Q) : Q := if Qeq_bool b 0 then 0%Q else (a / b)%Q.

Definition f1_score (y_true y_pred : list bool) : Q :=
  let tp := inject_Z (count_pairs true true y_true y_pred) in
  let fp := inject_Z (count_pairs false true y_true y_pred) in
  let fn := inject_Z (count_pairs true false y_true y_pred) in
  let precision := safe_div tp (tp + fp) in
  let recall := safe_div tp (tp + fn) in
  safe_div (2 * precision * recall) (precision + recall).

(** [probabilities >= threshold] *)
Definition at_least (probabilities : list Q) (threshold : Q) : list bool :=
  (fun p => Qle_bool threshold p) <$> probabilities.

(** The [while threshold < 1.0] loop of lines 315-320. *)
Fixpoint threshold_sweep (fuel : nat) (score : Q -> Q) (threshold best_threshold best_f1 : Q)
    : option Q :=
  match fuel with
  | 0 => None
  | S fuel' =>
      if Qltb threshold 1 then
        let f1 := score threshold in
        if Qltb best_f1 f1
        then threshold_sweep fuel' score (threshold + (1 # 1000)) threshold f1
        else threshold_sweep fuel' score (threshold + (1 # 1000)) best_threshold best_f1
      else Some best_threshold
  end.

(** Lines 297-321: the value assigned to [certainty_threshold_]. *)
Definition certainty_threshold (probabilities_for_labeled_samples : list Q)
    (probabilities_for_another_samples : option (list Q)) : result Q :=
  match probabilities_for_another_samples with
  | None => np_min probabilities_for_labeled_samples
  | Some another =>
      let y_true := repeat true (length probabilities_for_labeled_samples)
                    ++ repeat false (length another) in
      let probabilities := probabilities_for_labeled_samples ++ another in
      let score := fun threshold => f1_score y_true (at_least probabilities threshold) in
      let best_threshold := (1 # 1000)%Q in
      let best_f1 := score best_threshold in
      let threshold := (best_threshold + (1 # 1000))%Q in
      match threshold_sweep 1000 score threshold best_threshold best_f1 with
      | Some best_threshold => Ok best_threshold
      | None => Raise (RuntimeError 3)
      end
  end.

Section Calibration.

Context `{Collaborators}.

(** The loops of lines 254-263, 267-276 and 287-296: the greatest averaged
    class probability of every row, batch by batch. Returns the array and
    the number of session calls made. *)
Fixpoint max_probabilities (self : attrs) (run num_monte_carlo : nat)
    (X_tokenized : list ndarray) (bounds_of_batches : list (nat * nat))
    (probabilities : list Q) : result (list Q * nat) :=
  match bounds_of_batches with
  | [] => Ok (probabilities, run)
  | cur_batch :: rest =>
      feed_dict ← fill_feed_dict self
        ((fun channel => np_slice channel cur_batch.1 cur_batch.2) <$> X_tokenized) None;
      mean_probs ← monte_carlo_mean self run num_monte_carlo feed_dict;
      maxima ← mapM np_max mean_probs;
      probabilities ← np_assign_slice probabilities cur_batch.1 cur_batch.2 maxima;
      max_probabilities self (run + num_monte_carlo) num_monte_carlo X_tokenized rest
        probabilities
  end.

(** [(start, min(start + B, n))] for the [ceil(n / B)] batches of lines 281-286. *)
Definition bounds_of_batches_upto (n : nat) (batch_size : Z) : result (list (nat * nat)) :=
  if decide (batch_size = 0)%Z then Raise ZeroDivisionError else
  let n_batches := (- ((- Z.of_nat n) / batch_size))%Z in
  Ok ((fun iteration =>
         let batch_start := (Z.of_nat iteration * batch_size)%Z in
         let batch_end := Z.min (batch_start + batch_size) (Z.of_nat n) in
         (Z.to_nat batch_start, Z.to_nat batch_end)) <$> seq 0 (Z.to_nat n_batches)).

(** [np.zeros((n,), dtype=np.float32)] *)
Definition np_zeros (n : nat) : list Q := repeat 0%Q n.

(** Lines 251-321. [X_val_tokenized] comes with its batch bounds;
    [bounds_of_batches_for_training] is the list the epochs shuffled. *)
Definition fit_threshold (self : attrs) (run : nat)
    (X_train_tokenized : list ndarray) (bounds_of_batches_for_training : list (nat * nat))
    (X_val_tokenized : option (list ndarray * list (nat * nat)))
    (X_unlabeled_tokenized : option (list ndarray)) : result attrs :=
  batch_size ← getattr self "batch_size";
  num_monte_carlo ← getattr self "num_monte_carlo";
  match as_int batch_size, as_int num_monte_carlo with
  | Some b, Some m =>
      let '(X_labeled, bounds_of_batches) :=
        match X_val_tokenized with
        | None => (X_train_tokenized, bounds_of_batches_for_training)
        | Some val => val
        end in
      match X_labeled with
      | [] => Raise IndexError
      | X0 :: _ =>
          '(probabilities_for_labeled_samples, run) ←
            max_probabilities self run (Z.to_nat m) X_labeled bounds_of_batches
              (np_zeros (shape0 X0));
          probabilities_for_another_samples ←
            match X_unlabeled_tokenized with
            | None => Ok None
            | Some [] => Raise IndexError
            | Some ((U0 :: _) as X_unlabeled) =>
                bounds_of_batches ← bounds_of_batches_upto (shape0 U0) b;
                '(another, _) ← max_probabilities self run (Z.to_nat m) X_unlabeled
                                  bounds_of_batches (np_zeros (shape0 U0));
                Ok (Some another)
            end;
          threshold ← certainty_threshold probabilities_for_labeled_samples
                        probabilities_for_another_samples;
          Ok (<["certainty_threshold_" := VFloat threshold]> self)
      end
  | _, _ => Raise TypeError
  end.

End Calibration.

(** ** [fit] from the epoch loop to the threshold (lines 159-321) *)

Section FitTail.

Context `{Collaborators}.

Definition fit_from_epochs (run_epoch : nat -> weights -> result (weights * Q))
    (tmp_model_name : path) (self : attrs) (fs : filesystem) (run : nat)
    (X_train_tokenized : list ndarray) (bounds_of_batches_for_training : list (nat * nat))
    (X_val_tokenized : option (list ndarray * list (nat * nat)))
    (X_unlabeled_tokenized : option (list ndarray)) : result attrs * filesystem :=
  match fit_epochs run_epoch tmp_model_name self fs with
  | (Raise e, st) => (Raise e, ls_fs st)
  | (Ok _, st) =>
      (fit_threshold (ls_self st) run X_train_tokenized bounds_of_batches_for_training
         X_val_tokenized X_unlabeled_tokenized, ls_fs st)
  end.

End FitTail.

(** ** Pickling: [dump_all] and [load_all] *)

(** [str.strip()], on the ASCII white space. *)
Definition is_space (c : ascii) : bool :=
  let n := nat_of_ascii c in
  (((9 <=? n) && (n <=? 13)) || ((28 <=? n) && (n <=? 32)))%nat.

Fixpoint lstrip (s : string) : string :=
  match s with
  | EmptyString => EmptyString
  | String c s' => if is_space c then lstrip s' else s
  end.

Fixpoint rstrip (s : string) : string :=
  match s with
  | EmptyString => EmptyString
  | String c s' =>
      match rstrip s' with
      | EmptyString => if is_space c then EmptyString else String c EmptyString
      | r => String c r
      end
  end.

Definition strip (s : string) : string := rstrip (lstrip s).

(** [it[len('model.'):]] *)
Definition after_model_prefix (it : string) : string :=
  String.substring 6 (String.length it - 6) it.

Section Pickling.

Context `{Collaborators}.

(** The loop of lines 669-673. *)
Fixpoint read_model_files (fs : filesystem) (names : list path) (params : attrs)
    : result attrs :=
  match names with
  | [] => Ok params
  | cur_name :: rest =>
      match fs !! cur_name with
      | Some model_data =>
          read_model_files fs rest (<["model." +:+ cur_name.2 := VBytes model_data]> params)
      | None => Raise (FileNotFoundError cur_name)
      end
  end.

(** [dump_all]; [model_file_name] is the result of [get_temp_model_name()]. *)
Definition dump_all (self : attrs) (fs : filesystem) (model_file_name : path)
    : result attrs * filesystem :=
  let fitted := is_ok (is_fitted self) in
  match get_params self with
  | Raise e => (Raise e, fs)
  | Ok params =>
      if fitted then
        match getattr self "n_classes_", getattr self "tokenizer_" with
        | Ok n_classes, Ok tokenizer =>
            let params := <["n_classes_" := n_classes]> params in
            let params := <["tokenizer_" := tokenizer]> params in
            let params := <["model_name_" := VStr model_file_name.2]> params in
            let '(saved, fs) := save_model self model_file_name fs in
            let outcome :=
              match saved with
              | Raise e => Raise e
              | Ok _ => read_model_files fs (find_all_model_files fs model_file_name) params
              end in
            let '(removed, fs) :=
              remove_all fs (find_all_model_files fs model_file_name) in
            match removed with
            | Raise e => (Raise e, fs)
            | Ok _ => (outcome, fs)
            end
        | Raise e, _ => (Raise e, fs)
        | _, Raise e => (Raise e, fs)
        end
      else (Ok params, fs)
  end.

(** The names of lines 687-698. *)
Definition model_files_of (new_params : attrs) : list string :=
  filter (fun it3 => 0 < String.length it3)
    ((fun it2 => strip (after_model_prefix it2)) <$>
       filter (fun it1 => String.prefix "model." it1 = true ∧ 6 < String.length it1)
              (elements (dom new_params))).

(** The loop of lines 715-717. *)
Fixpoint write_model_files (new_params : attrs) (tmp_dir_name : string)
    (model_files : list string) (fs : filesystem) : result unit * filesystem :=
  match model_files with
  | [] => (Ok (), fs)
  | cur :: rest =>
      match new_params !! ("model." +:+ cur) with
      | Some (VBytes data) =>
          write_model_files new_params tmp_dir_name rest (<[(tmp_dir_name, cur) := data]> fs)
      | Some _ => (Raise TypeError, <[(tmp_dir_name, cur) := []]> fs)
      | None => (Raise (KeyError ("model." +:+ cur)), <[(tmp_dir_name, cur) := []]> fs)
      end
  end.

(** The [finally] clause of lines 721-723. *)
Definition remove_existing (fs : filesystem) (names : list path) : filesystem :=
  foldl (fun fs cur => if isfile fs cur then delete cur fs else fs) fs names.

(** [load_all]; [tmp_dir_name] is [tempfile.gettempdir()] and [now] is
    [int(round(time.time()))]. *)
Definition load_all (self : attrs) (new_params : attrs) (fs : filesystem)
    (tmp_dir_name : string) (now : Z) : result attrs * filesystem :=
  match check_params new_params with
  | Raise e => (Raise e, fs)
  | Ok _ =>
      let self := delete "tokenizer_" self in
      let self := finalize_model self in
      let fitted := bool_decide (is_Some (new_params !! "n_classes_")
                                 ∧ is_Some (new_params !! "tokenizer_")
                                 ∧ is_Some (new_params !! "model_name_")) in
      let model_files := model_files_of new_params in
      let fitted := fitted && negb (bool_decide (length model_files = 0)) in
      if fitted then
        let tmp_file_names := (fun cur => (tmp_dir_name, cur)) <$> model_files in
        match filter (fun cur => isfile fs cur = true) tmp_file_names with
        | cur :: _ => (Raise (ValueError (MsgFileExists cur)), fs)
        | [] =>
            let self := set_params self new_params in
            match getattr new_params "n_classes_", getattr new_params "tokenizer_",
                  getattr new_params "model_name_", getattr self "random_seed" with
            | Ok n_classes, Ok tokenizer, Ok model_name, Ok random_seed =>
                let self := <["n_classes_" := n_classes]> self in
                let self := <["tokenizer_" := tokenizer]> self in
                let self := match random_seed with
                            | VNone => <["random_seed" := VInt now]> self
                            | _ => self
                            end in
                let '(written, fs) :=
                  write_model_files new_params tmp_dir_name model_files fs in
                let outcome :=
                  match written, model_name with
                  | Raise e, _ => Raise e
                  | Ok _, VStr name =>
                      self ← build_model self;
                      load_model self (tmp_dir_name, name) fs
                  | Ok _, _ => self ← build_model self; Raise TypeError
                  end in
                (outcome, remove_existing fs tmp_file_names)
            | Raise e, _, _, _ => (Raise e, fs)
            | _, Raise e, _, _ => (Raise e, fs)
            | _, _, Raise e, _ => (Raise e, fs)
            | _, _, _, Raise e => (Raise e, fs)
            end
        end
      else (Ok (set_params self new_params), fs)
  end.

End Pickling.

(** ** The training loss of [build_model] (lines 540-546) *)

(** The tensors are idealised as real numbers. A [DenseFlipout] layer adds
    the divergence between its weight posterior and its prior to the losses
    of the model; [layer_kl] gives that number for a layer, and a layer is
    named by its number of units. *)
Section Loss.

Variable layer_kl : nat -> Z -> R.

(** [sum(l)] of Python: a left fold from 0. *)
Definition py_sum (l : list R) : R := fold_left Rplus l 0%R.

(** [tf.reduce_mean] *)
Definition reduce_mean (l : list R) : R := (py_sum l / INR (length l))%R.

(** [Categorical(logits=row).log_prob(label)]: the log-softmax of the
    logits at the label. *)
Definition categorical_log_prob (row : list R) (label : nat) : R :=
  (nth label row 0 - ln (py_sum (map exp row)))%R.

(** [self.labels_distribution_.log_prob(self.y_ph_)] over a batch. *)
Definition log_prob (logits : list (list R)) (y_ph : list nat) : list R :=
  zip_with categorical_log_prob logits y_ph.

(** The layers of [tf.keras.Sequential(layers)]: one per hidden size, then
    the output layer of [n_classes_] units; each with its position. *)
Definition flipout_layers (hidden_layer_sizes : list Z) (n_classes : Z) : list (nat * Z) :=
  imap (fun idx units => (idx, units)) (hidden_layer_sizes ++ [n_classes]).

(** [model.losses] *)
Definition model_losses (hidden_layer_sizes : list Z) (n_classes : Z) : list R :=
  (fun layer => layer_kl layer.1 layer.2) <$> flipout_layers hidden_layer_sizes n_classes.

(** [elbo_loss], the tensor handed to [optimizer.minimize]. *)
Definition elbo_loss (hidden_layer_sizes : list Z) (n_classes : Z)
    (logits : list (list R)) (y_ph : list nat) : R :=
  let neg_log_likelihood := (- reduce_mean (log_prob logits y_ph))%R in
  let kl := py_sum (model_losses hidden_layer_sizes n_classes) in
  (neg_log_likelihood + kl)%R.

(** *** The objective in the words of the specification *)

(** The probability the categorical distribution gives to a class. *)
Definition softmax_prob (row : list R) (label : nat) : R :=
  (exp (nth label row 0) / fold_right Rplus 0 (map exp row))%R.

(** Negative mean log-likelihood of the true labels: plain cross-entropy. *)
Definition spec_cross_entropy (logits : list (list R)) (labels : list nat) : R :=
  (- (fold_right Rplus 0 (zip_with (fun row label => ln (softmax_prob row label))
                                   logits labels)
      / INR (length (zip logits labels))))%R.

(** Sum of the per-layer divergences. *)
Definition spec_kl_sum (hidden_layer_sizes : list Z) (n_classes : Z) : R :=
  fold_right Rplus 0%R
    ((fun layer => layer_kl layer.1 layer.2) <$> flipout_layers hidden_layer_sizes n_classes).

Definition spec_elbo (hidden_layer_sizes : list Z) (n_classes : Z)
    (logits : list (list R)) (labels : list nat) : R :=
  (spec_cross_entropy logits labels + spec_kl_sum hidden_layer_sizes n_classes)%R.

End Loss.

(** ** Predicates and sample data used by the statements *)

(** A token matrix as [tokenize_all] builds it, with a last row. *)
Definition token_matrix (col : ndarray) : Prop :=
  exists rs r, col = Arr2 MAX_SEQ_LENGTH rs /\ last rs = Some r /\ length r = MAX_SEQ_LENGTH.

(** A column padded by replication: the old rows, then copies of the last. *)
Definition padded_with_last (n_extend : nat) (col col' : ndarray) : Prop :=
  exists rs r, col = Arr2 MAX_SEQ_LENGTH rs /\ last rs = Some r
               /\ col' = Arr2 MAX_SEQ_LENGTH (rs ++ repeat r n_extend).

(** The row of a text without tokens. *)
Definition zero_row : list Z := repeat 0%Z MAX_SEQ_LENGTH.

(** [z] occurs in [y] as the label of a known class. *)
Definition known_label (y : list Z) (z : Z) : Prop := z ∈ y /\ (0 <= z)%Z.

(** The distinct non-negative labels of [y] are exactly [0 .. k-1]. *)
Definition labels_exactly (y : list Z) (k : nat) : Prop :=
  forall z, known_label y z <-> (0 <= z < Z.of_nat k)%Z.

Definition contiguous_labels (y : list Z) : Prop :=
  exists k, 2 <= k /\ labels_exactly y k.

(** [y] has at least two distinct non-negative labels. *)
Definition two_known_labels (y : list Z) : Prop :=
  exists a b, known_label y a /\ known_label y b /\ a <> b.

(** The contract of the label check as the specification words it, at one
    input: contiguous labels are accepted, any other vector raises the error
    that names the expected and the actual class list. *)
Definition labels_claim (X : list string) (y : list Z) : Prop :=
  (forall k, 2 <= k -> labels_exactly y k -> fit_n_classes X y = Ok k)
  /\ (~ contiguous_labels y ->
      exists expected actual,
        fit_n_classes X y = Raise (ValueError (MsgNotOrdered expected actual))).

(** A matrix of rationals whose entries lie strictly between two bounds. *)
Definition mat_between (lo hi : Q) (m : list (list Q)) : Prop :=
  Forall (Forall (fun x => lo < x /\ x < hi)%Q) m.

(** Collaborators for the examples: a one-token tokenizer, a saver that
    writes two files, and a distribution that gives a quarter to class 0
    and three quarters to every other class, except under the weights [20],
    where it gives two fifths and three fifths. *)
Definition toy_collaborators : Collaborators := {|
  tokenizer_tokenize := fun _ _ text => [text];
  tokenizer_convert_tokens_to_ids := fun _ _ tokens => (fun _ => 7%Z) <$> tokens;
  saver_suffixes := [".index"; ".data-00000-of-00001"];
  probs_of_run := fun w _ _ _ c =>
    if decide (w = [20%Z])
    then (if decide (c = 0) then (2 # 5)%Q else (3 # 5)%Q)
    else (if decide (c = 0) then (1 # 4)%Q else (3 # 4)%Q)
|}.

(** The attributes [__init__] sets, with a batch size of two. *)
Definition toy_params : attrs :=
  <["batch_size" := VInt 2]> (
  <["hidden_layer_sizes" := VTuple [10%Z]]> (
  <["bert_hub_module_handle" := VStr "https://tfhub.dev/google/bert_uncased_L-12_H-768_A-12/1"]> (
  <["max_epochs" := VInt 3]> (
  <["num_monte_carlo" := VInt 2]> (
  <["patience" := VInt 1]> (
  <["random_seed" := VInt 42]> (
  <["gpu_memory_frac" := VFloat 1]> (
  <["validation_fraction" := VFloat 0]> (
  <["verbose" := VBool false]> ∅))))))))).

(** A two-class instance after [build_model], with initialised variables
    and a tokenizer, but no threshold yet. *)
Definition toy_trained : attrs :=
  <["sess_" := VSession (Some [1%Z])]>
    (<["tokenizer_" := VTokenizer "vocab.txt" true]>
       (value_or (∅ : attrs) (build_model (<["n_classes_" := VInt 2]> toy_params)))).

(** The same instance with a single epoch to train for. *)
Definition toy_single_epoch : attrs := <["max_epochs" := VInt 1]> toy_trained.

(** A fitted instance: the threshold is one half. *)
Definition toy_fitted : attrs :=
  <["certainty_threshold_" := VFloat (1 # 2)]> toy_trained.

(** Rows of integer zeros, [ncols] in each. *)
Definition zero_rows (ncols : nat) (rows : list (list Z)) : Prop :=
  Forall (fun row => length row = ncols /\ Forall (fun p => p = 0%Z) row) rows.

(** The sum of a row of the returned matrix, as a rational. *)
Definition row_sum (row : list Z) : Q := inject_Z (foldr Z.add 0%Z row).

(** A probability vector as the specification asks of [predict_proba]: the
    sum is within 1e-3 of 1 and every entry lies strictly in (0,1). *)
Definition probability_row (row : list Z) : Prop :=
  (1 - (1 # 1000) <= row_sum row /\ row_sum row <= 1 + (1 # 1000))%Q
  /\ Forall (fun p => 0 < inject_Z p /\ inject_Z p < 1)%Q row.

(** The thresholds of the sweep: [k / 1000]. *)
Definition grid (k : nat) : Q := (inject_Z (Z.of_nat k) / 1000)%Q.

(** F1 of the predicate [confidence >= threshold] against the indicator
    "the sample is labeled". *)
Definition friend_or_foe_f1 (labeled another : list Q) (threshold : Q) : Q :=
  f1_score (repeat true (length labeled) ++ repeat false (length another))
           (at_least (labeled ++ another) threshold).

(** [t] is the least member of [confidences]. *)
Definition minimum_of (confidences : list Q) (t : Q) : Prop :=
  t ∈ confidences /\ forall c, c ∈ confidences -> (t <= c)%Q.

(** [t] is the lowest threshold of the grid [1/1000 .. 999/1000] at which
    [score] is greatest. *)
Definition lowest_maximiser (score : Q -> Q) (t : Q) : Prop :=
  exists k, 1 <= k <= 999 /\ (t == grid k)%Q
            /\ (forall j, 1 <= j <= 999 -> (score (grid j) <= score t)%Q)
            /\ (forall j, 1 <= j < k -> (score (grid j) < score t)%Q).

(** The state of the loop of lines 315-320 when [threshold] is [k/1000]. *)
Definition sweep_invariant (score : Q -> Q) (k : nat)
    (threshold best_threshold best_f1 : Q) : Prop :=
  (threshold == grid k)%Q
  /\ best_f1 = score best_threshold
  /\ exists kb, 1 <= kb < k /\ (best_threshold == grid kb)%Q
                /\ (forall j, 1 <= j < k -> (score (grid j) <= best_f1)%Q)
                /\ (forall j, 1 <= j < kb -> (score (grid j) < best_f1)%Q).

(** The set the confidences of the labeled samples are computed on: the
    validation set when there is one, the training set otherwise. *)
Definition labeled_evaluation_set (X_train_tokenized : list ndarray)
    (bounds_of_batches_for_training : list (nat * nat))
    (X_val_tokenized : option (list ndarray * list (nat * nat)))
    : list ndarray * list (nat * nat) :=
  match X_val_tokenized with
  | None => (X_train_tokenized, bounds_of_batches_for_training)
  | Some val => val
  end.

(** The epochs of the examples. The first one reaches the quality 1/2 with
    the weights [10]. Every later one comes after the reload of lines
    245-246 and fetches the operations of line 135, which belong to the
    graph that the reload discarded: the session raises. *)
Definition toy_run_epoch (epoch : nat) (w : weights) : result (weights * Q) :=
  match epoch with
  | 0 => Ok ([10%Z], (1 # 2)%Q)
  | _ => Raise (RuntimeError 4)
  end.

Definition toy_tmp_model_name : path := ("/tmp", "tmpk3x9bert_cls.ckpt").

(** One batch of two texts. *)
Definition toy_batch : list ndarray :=
  [Arr2 MAX_SEQ_LENGTH [zero_row; zero_row]; Arr2 MAX_SEQ_LENGTH [zero_row; zero_row];
   Arr2 MAX_SEQ_LENGTH [zero_row; zero_row]].

(** The files of a model name in a directory: those whose name contains the
    base name, whatever the case of the letters. *)
Definition model_file_of (model_name : path) (p : path) : Prop :=
  p.1 = model_name.1 /\ matches_model_name model_name.2 p.2 = true.

(** The state an epoch hands to the model selection. *)
Definition after_epoch (st : loop_state) (w' : weights) : loop_state :=
  LoopState (<["sess_" := VSession (Some w')]> (ls_self st))
    (ls_fs st) (ls_best_acc st) (ls_n_epochs_without_improving st).

(** The session holds the variables of the checkpoint on disk. *)
Definition holds_checkpoint `{Collaborators} (tmp_model_name : path) (st : loop_state) : Prop :=
  exists sfx w, head saver_suffixes = Some sfx
                /\ ls_fs st !! (tmp_model_name.1, tmp_model_name.2 +:+ sfx) = Some w
                /\ ls_self st !! "sess_" = Some (VSession (Some w)).

(** The restore the specification expects, for one run of the [try] block:
    when the loop is left without an exception after saving a checkpoint,
    the session the threshold is computed with holds the variables of that
    checkpoint. *)
Definition calibrates_on_best_checkpoint `{Collaborators}
    (run_epoch : nat -> weights -> result (weights * Q)) (tmp_model_name : path)
    (self : attrs) (fs : filesystem) : Prop :=
  forall exit st,
    fit_try run_epoch tmp_model_name self fs = (Ok exit, st) ->
    ls_best_acc st <> None -> holds_checkpoint tmp_model_name st.

(** The operations the epochs fetch at line 170 are the ones [build_model]
    returned at line 135. The reload of lines 245-246 closes the session and
    resets the default graph ([finalize_model], line 570), builds a new
    graph and drops its operations ([_, _, _ = self.build_model()]); an epoch
    that follows a reload therefore asks the new session for operations of
    a graph it does not hold, and [sess_.run] raises (nor does anything
    initialise the local variables of [tf.metrics.accuracy] in the new
    graph). Every epoch but the first follows a reload, since the first
    epoch always sets [best_acc]. *)
Definition fetches_first_graph (run_epoch : nat -> weights -> result (weights * Q)) : Prop :=
  forall epoch w, 0 < epoch -> exists e, run_epoch epoch w = Raise e.

(** The fitted example pickled into an empty temporary directory, and the
    instance a fresh object is restored to from that state. *)
Definition toy_pickled : result attrs * filesystem :=
  dump_all (H := toy_collaborators) toy_fitted ∅ toy_tmp_model_name.

Definition toy_state : attrs := value_or (∅ : attrs) toy_pickled.1.

Definition toy_unpickled : result attrs * filesystem :=
  load_all (H := toy_collaborators) ∅ toy_state toy_pickled.2 "/tmp" 0.

Definition toy_restored : attrs := value_or (∅ : attrs) toy_unpickled.1.

(** The threshold step on the example, with the batch as labeled set and
    the same batch again as unlabeled set. *)
Definition toy_calibrated : attrs :=
  value_or (∅ : attrs)
    (fit_threshold (H := toy_collaborators) toy_trained 0 toy_batch [(0, 2)] None
       (Some toy_batch)).

(** Two batches that share no row. *)
Definition disjoint_bounds (b1 b2 : nat * nat) : Prop := b1.2 <= b2.1 \/ b2.2 <= b1.1.

(** Batches inside an array of [n] rows, no two of which overlap. *)
Fixpoint separate_batches (n : nat) (bounds : list (nat * nat)) : Prop :=
  match bounds with
  | [] => True
  | cur :: rest =>
      cur.1 <= cur.2 <= n /\ Forall (disjoint_bounds cur) rest /\ separate_batches n rest
  end.


(** ** The remaining methods of the class *)

(** *** [__init__], [__copy__] and [__deepcopy__] *)

(** The attributes [__init__] binds, in the order of its assignments. *)
Definition init (hidden_layer_sizes bert_hub_module_handle batch_size validation_fraction
    max_epochs patience num_monte_carlo gpu_memory_frac verbose random_seed : value) : attrs :=
  <["verbose" := verbose]> (
  <["validation_fraction" := validation_fraction]> (
  <["gpu_memory_frac" := gpu_memory_frac]> (
  <["random_seed" := random_seed]> (
  <["patience" := patience]> (
  <["num_monte_carlo" := num_monte_carlo]> (
  <["max_epochs" := max_epochs]> (
  <["bert_hub_module_handle" := bert_hub_module_handle]> (
  <["hidden_layer_sizes" := hidden_layer_sizes]> (
  <["batch_size" := batch_size]> ∅))))))))).

(** The attributes [__copy__] hands over when the instance is fitted, in
    the order of lines 612-620. *)
Definition copied_attributes : list string :=
  ["n_classes_"; "logits_"; "tokenizer_"; "input_ids_"; "input_mask_"; "segment_ids_";
   "y_ph_"; "sess_"; "labels_distribution_"].

(** [result.name = self.name] for every name of a list, from left to right. *)
Fixpoint copy_attributes (self copied : attrs) (names : list string) : result attrs :=
  match names with
  | [] => Ok copied
  | name :: rest => v ← getattr self name; copy_attributes self (<[name := v]> copied) rest
  end.

(** [__copy__]; [__deepcopy__] has the same body. [cls.__new__(cls)] is an
    instance without attributes, and the keyword arguments of [set_params]
    are read from [self] in the order they are written. *)
Definition copy_instance (self : attrs) : result attrs :=
  bert_hub_module_handle ← getattr self "bert_hub_module_handle";
  hidden_layer_sizes ← getattr self "hidden_layer_sizes";
  num_monte_carlo ← getattr self "num_monte_carlo";
  batch_size ← getattr self "batch_size";
  validation_fraction ← getattr self "validation_fraction";
  max_epochs ← getattr self "max_epochs";
  patience ← getattr self "patience";
  gpu_memory_frac ← getattr self "gpu_memory_frac";
  verbose ← getattr self "verbose";
  random_seed ← getattr self "random_seed";
  let copied :=
    set_params ∅
      (<["bert_hub_module_handle" := bert_hub_module_handle]> (
       <["hidden_layer_sizes" := hidden_layer_sizes]> (
       <["num_monte_carlo" := num_monte_carlo]> (
       <["batch_size" := batch_size]> (
       <["validation_fraction" := validation_fraction]> (
       <["max_epochs" := max_epochs]> (
       <["patience" := patience]> (
       <["gpu_memory_frac" := gpu_memory_frac]> (
       <["verbose" := verbose]> (
       <["random_seed" := random_seed]> ∅)))))))))) in
  if is_ok (is_fitted self) then copy_attributes self copied copied_attributes
  else Ok copied.

(** *** [score] and the validation data of [fit] *)

(** The messages of lines 87-89 and 390-392. *)
Inductive label_message : Type :=
| MsgClassUnknown (y_name : string) (class_idx : Z)
    (* '`{y_name}` is wrong. Class {0} is unknown.' *)
| MsgClassesUnknown (y_name : string) (unknown_classes : list Z).
    (* '`{y_name}` is wrong. Classes {0} are unknown.' *)

(** What a method that checks labels against [n_classes_] does: it returns,
    it lets an exception of the functions above pass, or it raises a
    [ValueError] with one of the two messages. *)
Inductive outcome (A : Type) : Type :=
| Returns (a : A)
| Raises (e : exn)
| RaisesValueError (m : label_message).
Arguments Returns {A} a.
Arguments Raises {A} e.
Arguments RaisesValueError {A} m.

#[global] Instance outcome_ret : MRet outcome := fun A a => Returns a.
#[global] Instance outcome_bind : MBind outcome := fun A B k r =>
  match r with
  | Returns a => k a
  | Raises e => Raises e
  | RaisesValueError m => RaisesValueError m
  end.

Definition lift {A : Type} (r : result A) : outcome A :=
  match r with
  | Ok a => Returns a
  | Raise e => Raises e
  end.

(** [sorted(list(set(classes) - set(range(n_classes))))] *)
Definition unknown_classes_of (classes : list Z) (n_classes : Z) : list Z :=
  sorted_Z (list_to_set classes ∖ list_to_set (py_range (Z.to_nat n_classes))).

(** Lines 84-89 of [fit] and 387-392 of [score]. *)
Definition check_known_classes (y_name : string) (classes : list Z) (n_classes : Z)
    : outcome unit :=
  if decide ((list_to_set classes : gset Z) ⊆ list_to_set (py_range (Z.to_nat n_classes)))
  then Returns ()
  else
    let unknown_classes := unknown_classes_of classes n_classes in
    if decide (length unknown_classes = 1) then
      match unknown_classes with
      | class_idx :: _ => RaisesValueError (MsgClassUnknown y_name class_idx)
      | [] => Raises IndexError
      end
    else RaisesValueError (MsgClassesUnknown y_name unknown_classes).

(** Lines 83-89 of [fit]: the validation data the caller gives, a pair of
    texts and labels, is checked against the classes of the training set. *)
Definition check_validation_data (n_classes : nat)
    (validation_data : list string * list Z) : outcome unit :=
  classes_for_validation ←
    lift (check_Xy validation_data.1 "X_val" validation_data.2 "y_val");
  check_known_classes "y_val" classes_for_validation (Z.of_nat n_classes).

Section Score.

Context `{Collaborators}.

(** [sklearn.metrics.f1_score(y_true, y_pred, average='macro')] on two
    label vectors of the same length. *)
Variable f1_macro : list Z -> list Z -> Q.

Definition score (self : attrs) (run : nat) (X : list string) (y : list Z) : outcome Q :=
  kwargs ← lift (get_params self);
  _ ← lift (check_params kwargs);
  _ ← lift (is_fitted self);
  classes_list ← lift (check_Xy X "X" y "y");
  n_classes ← lift (getattr self "n_classes_");
  match as_int n_classes with
  | None => Raises TypeError
  | Some c =>
      _ ← check_known_classes "y" classes_list c;
      y_pred ← lift (predict self run X);
      Returns (f1_macro y y_pred)
  end.

End Score.

(** *** [predict_log_proba] *)

(** A floating-point array, idealised as an array of reals. *)
Inductive real_array : Type :=
| RArr1 (data : list R)
| RArr2 (ncols : nat) (rows : list (list R)).

(** [np.log(a + 1e-9)] on an integer array. *)
Definition np_log_shifted (a : ndarray) : real_array :=
  let f := fun p : Z => ln (IZR p + 1 / 10 ^ 9)%R in
  match a with
  | Arr1 d => RArr1 (f <$> d)
  | Arr2 w rs => RArr2 w (map (map f) rs)
  end.

Section LogProba.

Context `{Collaborators}.

Definition predict_log_proba (self : attrs) (run : nat) (X : list string)
    : result real_array :=
  probabilities ← predict_proba self run X;
  Ok (np_log_shifted probabilities).

End LogProba.

(** *** Predicates of the statements about labels *)

(** What the check of the classes comes to once the unknown classes are
    listed: nothing is raised when there are none, the singular message
    names the only one, the plural message lists several. *)
Definition label_verdict {A : Type} (y_name : string) (unknown_classes : list Z)
    (accepted : outcome A) : outcome A :=
  match unknown_classes with
  | [] => accepted
  | [class_idx] => RaisesValueError (MsgClassUnknown y_name class_idx)
  | _ => RaisesValueError (MsgClassesUnknown y_name unknown_classes)
  end.

(** [unknown_classes] lists, in increasing order and once each, the labels
    of [y] that are at least [n_classes]. *)
Definition lists_unknown_labels (y : list Z) (n_classes : Z) (unknown_classes : list Z)
    : Prop :=
  StronglySorted Z.lt unknown_classes
  /\ forall z, z ∈ unknown_classes <-> known_label y z /\ (n_classes <= z)%Z.

(** *** Predicates of the statements about the graph and the pickled state *)

(** The attributes [build_model] binds, for a batch size and a number of
    classes: a session whose variables are not initialised, the four
    placeholders, the logits and the distribution of the labels. *)
Definition with_graph (self : attrs) (batch_size n_classes : nat) : attrs :=
  <["labels_distribution_" := VCategorical batch_size n_classes]> (
  <["logits_" := VLogits batch_size n_classes]> (
  <["y_ph_" := VPlaceholder batch_size 0]> (
  <["segment_ids_" := VPlaceholder batch_size MAX_SEQ_LENGTH]> (
  <["input_mask_" := VPlaceholder batch_size MAX_SEQ_LENGTH]> (
  <["input_ids_" := VPlaceholder batch_size MAX_SEQ_LENGTH]> (
  <["sess_" := VSession None]> self)))))).

(** The placeholders and the distribution of the labels are those of a graph
    built for a batch size and a number of classes. *)
Definition graph_built (self : attrs) (batch_size n_classes : nat) : Prop :=
  self !! "input_ids_" = Some (VPlaceholder batch_size MAX_SEQ_LENGTH)
  /\ self !! "input_mask_" = Some (VPlaceholder batch_size MAX_SEQ_LENGTH)
  /\ self !! "segment_ids_" = Some (VPlaceholder batch_size MAX_SEQ_LENGTH)
  /\ self !! "labels_distribution_" = Some (VCategorical batch_size n_classes).

(** The names [build_model] binds. *)
Definition graph_attributes : list string :=
  ["labels_distribution_"; "logits_"; "y_ph_"; "segment_ids_"; "input_mask_"; "input_ids_";
   "sess_"].

(** The temporary directory holds no file whose name contains the base
    name of the model, in whatever case. *)
Definition fresh_model_name (fs : filesystem) (model_name : path) : Prop :=
  forall p, is_Some (fs !! p) -> ~ model_file_of model_name p.

(** The names of the files the saver writes for a model name are kept by
    [str.strip]: they neither start nor end with white space. *)
Definition stripped_names (base_name : string) (suffixes : list string) : Prop :=
  Forall (fun sfx => strip (base_name +:+ sfx) = base_name +:+ sfx) suffixes.

(** *** Predicates of the statements about tokenization and batches *)

Section TokenRows.

Context `{Collaborators}.

(** The word pieces of a text as they are converted to ids: at most
    [MAX_SEQ_LENGTH - 2] of them, between the two markers. *)
Definition framed_tokens (vocab_file : string) (do_lower_case : bool) (text : string)
    : list string :=
  ["[CLS]"] ++ take (MAX_SEQ_LENGTH - 2) (tokenizer_tokenize vocab_file do_lower_case text)
    ++ ["[SEP]"].

End TokenRows.

(** A row filled up with zeros to [MAX_SEQ_LENGTH] entries. *)
Definition zero_padded (values : list Z) : list Z :=
  values ++ repeat 0%Z (MAX_SEQ_LENGTH - length values).

(** The rows of the samples whose label is not negative, and the rows of
    the others, both in the order of the samples. *)
Definition labeled_rows {A : Type} (rows : list A) (y : list Z) : list A :=
  fst <$> filter (fun ry : A * Z => (0 <= ry.2)%Z) (zip rows y).

Definition unlabeled_rows {A : Type} (rows : list A) (y : list Z) : list A :=
  fst <$> filter (fun ry : A * Z => ~ (0 <= ry.2)%Z) (zip rows y).

(** The rows a list of batches covers, batch after batch. *)
Definition rows_of_batches (bounds : list (nat * nat)) : list nat :=
  bounds ≫= fun cur_batch => seq cur_batch.1 (cur_batch.2 - cur_batch.1).

(** The number of rows [extend_Xy] appends to [n] rows for a batch size. *)
Definition n_extend_of (n : nat) (batch_size : Z) : nat :=
  Z.to_nat ((- Z.of_nat n) mod batch_size).

(** A column padded with copies of its last row; a column without rows has
    no last row and is left as it is. *)
Definition padded_column (n_extend : nat) (col col' : ndarray) : Prop :=
  exists rs, col = Arr2 MAX_SEQ_LENGTH rs
             /\ col' = Arr2 MAX_SEQ_LENGTH
                         (rs ++ match last rs with
                                | Some r => repeat r n_extend
                                | None => []
                                end).

#[global] Instance path_le_total : Total path_le.
Proof. intros p q. unfold path_le. apply String.leb_total. Qed.

(** A token matrix of [n] rows, each of [MAX_SEQ_LENGTH] entries. *)
Definition token_rows (n : nat) (col : ndarray) : Prop :=
  exists rs, col = Arr2 MAX_SEQ_LENGTH rs /\ length rs = n
             /\ Forall (fun r => length r = MAX_SEQ_LENGTH) rs.

(** *** Predicates of the statements about the epoch loop *)

Section BestCheckpoint.

Context `{Collaborators}.

Variable run_epoch : nat -> weights -> result (weights * Q).
Variable tmp_model_name : path.

(** The checkpoint on disk holds the variables [w], which an epoch produced
    with the quality that [best_acc] records. *)
Definition checkpoint_of_best (st : loop_state) (w : weights) : Prop :=
  exists epoch w0 best_acc sfx,
    run_epoch epoch w0 = Ok (w, best_acc)
    /\ ls_best_acc st = Some best_acc
    /\ head saver_suffixes = Some sfx
    /\ ls_fs st !! (tmp_model_name.1, tmp_model_name.2 +:+ sfx) = Some w.

(** The state in which an epoch starts after the first one: the session
    holds the variables of the checkpoint, and fewer than [patience] epochs
    in a row have failed to improve. *)
Definition starts_from_best (patience : Z) (st : loop_state) (w : weights) : Prop :=
  checkpoint_of_best st w
  /\ ls_self st !! "sess_" = Some (VSession (Some w))
  /\ (Z.of_nat (ls_n_epochs_without_improving st) < patience)%Z.

(** The state in which the loop stops early: exactly [patience] epochs in a
    row have failed to improve; the last one started from the variables [w]
    of the checkpoint, and the session is left with the variables it
    produced, whose quality is not above [best_acc]. *)
Definition stopped_after_patience (patience : Z) (st : loop_state) (w : weights) : Prop :=
  checkpoint_of_best st w
  /\ Z.of_nat (ls_n_epochs_without_improving st) = patience
  /\ exists epoch w' acc best_acc,
       run_epoch epoch w = Ok (w', acc)
       /\ ls_self st !! "sess_" = Some (VSession (Some w'))
       /\ ls_best_acc st = Some best_acc /\ (acc <= best_acc)%Q.

End BestCheckpoint.

(** *** Predicates of the statement about the certainty threshold *)

(** The matrix with the entry [g i c] in row [i] and column [c]. *)
Definition matrix_of (rows cols : nat) (g : nat -> nat -> Q) : list (list Q) :=
  map (fun i => map (fun c => g i c) (seq 0 cols)) (seq 0 rows).

Section Confidence.

Context `{Collaborators}.

(** The probability of class [c] for row [i] of the arrays [feed], averaged
    over [num_monte_carlo] passes through the network with the variables
    [w]: the passes are the session calls number [run], [run + 1], ... *)
Definition averaged_probability (w : weights) (run num_monte_carlo : nat)
    (feed : list ndarray) (i c : nat) : Q :=
  (foldr Qplus 0 ((fun pass => probs_of_run w (run + pass) feed i c) <$> seq 0 num_monte_carlo)
   / inject_Z (Z.of_nat num_monte_carlo))%Q.

(** [m] is the top averaged class probability of row [i]: the average of
    one of the [n_classes] classes, and no class has a greater one. *)
Definition top_averaged_probability (w : weights) (run num_monte_carlo : nat)
    (feed : list ndarray) (i n_classes : nat) (m : Q) : Prop :=
  (exists c, c < n_classes /\ (m == averaged_probability w run num_monte_carlo feed i c)%Q)
  /\ forall c, c < n_classes ->
       (averaged_probability w run num_monte_carlo feed i c <= m)%Q.

(** [confidences] holds, for each of the [n] samples of [X], its top
    averaged class probability: sample [j] is a row of one of the batches,
    the batch in position [k] is fed to the session by its own, and its
    passes are the session calls from number [run + k * num_monte_carlo]
    on. *)
Definition confidences_of (w : weights) (num_monte_carlo n_classes run : nat)
    (X : list ndarray) (bounds_of_batches : list (nat * nat)) (n : nat)
    (confidences : list Q) : Prop :=
  length confidences = n
  /\ forall j, j < n ->
       exists k cur_batch m,
         bounds_of_batches !! k = Some cur_batch
         /\ cur_batch.1 <= j < cur_batch.2
         /\ confidences !! j = Some m
         /\ top_averaged_probability w (run + k * num_monte_carlo) num_monte_carlo
              ((fun channel => np_slice channel cur_batch.1 cur_batch.2) <$> X)
              (j - cur_batch.1) n_classes m.

End Confidence.

(** Every row below [n] lies in one of the batches, and no two batches
    overlap. *)
Definition covers_rows (n : nat) (bounds : list (nat * nat)) : Prop :=
  separate_batches n bounds
  /\ forall j, j < n -> exists cur_batch, cur_batch ∈ bounds /\ cur_batch.1 <= j < cur_batch.2.

(** The batches [fit] hands to the calibration of the labeled samples: the
    bounds of lines 136-141 in the order the last [random.shuffle] of line
    161 left them, or those of lines 146-151 as built. *)
Definition batches_of_fit (batch_size : Z) (labeled : list ndarray * list (nat * nat)) : Prop :=
  exists X0 built,
    head labeled.1 = Some X0
    /\ bounds_of_batches_upto (shape0 X0) batch_size = Ok built
    /\ labeled.2 ≡ₚ built.

(** Collaborators whose class probabilities change with the session call
    and with the row: call [run] gives row [i] the probability
    [(run + i + 1) / 8] of class 0. *)
Definition varying_collaborators : Collaborators := {|
  tokenizer_tokenize := fun _ _ text => [text];
  tokenizer_convert_tokens_to_ids := fun _ _ tokens => (fun _ => 7%Z) <$> tokens;
  saver_suffixes := [".index"; ".data-00000-of-00001"];
  probs_of_run := fun _ run _ i c =>
    let p := (inject_Z (Z.of_nat (run + i + 1)) / 8)%Q in
    if decide (c = 0) then p else (1 - p)%Q
|}.

(** * Properties *)

(** ** Tactics and facts about the result monad *)

Lemma bind_Ok {A B : Type} (r : result A) (k : A -> result B) (b : B) :
  (r ≫= k) = Ok b -> exists a, r = Ok a /\ k a = Ok b.
Proof. destruct r as [a|e]; simpl; [eauto | discriminate]. Qed.

(** Splits an equation [(x ← r; k) = Ok b] in the context. *)
Ltac inv_bind H :=
  let a := fresh "a" in
  let Ha := fresh "Hrun" in
  apply bind_Ok in H; destruct H as (a & Ha & H).

Lemma mapM_Ok_length {A B : Type} (f : A -> result B) (l : list A) (bs : list B) :
  mapM f l = Ok bs -> length bs = length l.
Proof.
  revert bs; induction l as [|a l IH]; intros bs Hm; simpl in Hm.
  - by inversion Hm.
  - inv_bind Hm. inv_bind Hm. inversion Hm; subst. simpl. f_equal. by apply IH.
Qed.

Lemma mapM_Ok_lookup {A B : Type} (f : A -> result B) (l : list A) (bs : list B) i a :
  mapM f l = Ok bs -> l !! i = Some a -> exists b, bs !! i = Some b /\ f a = Ok b.
Proof.
  revert bs i; induction l as [|x l IH]; intros bs i Hm Hi; simpl in Hm; [done|].
  inv_bind Hm. inv_bind Hm. inversion Hm; subst.
  destruct i as [|i]; simpl in *.
  - inversion Hi; subst. eauto.
  - eauto.
Qed.

Lemma mapM_Ok_Forall2 {A B : Type} (f : A -> result B) (l : list A) (bs : list B) :
  mapM f l = Ok bs -> Forall2 (fun a b => f a = Ok b) l bs.
Proof.
  revert bs; induction l as [|x l IH]; intros bs Hm; simpl in Hm.
  - inversion Hm. constructor.
  - inv_bind Hm. inv_bind Hm. inversion Hm; subst. constructor; auto.
Qed.

(** A computation that succeeded, split into its value and the state left. *)
Lemma result_pair_eta {A B : Type} (r : result A * B) (d : A) :
  is_ok r.1 = true ->
  r = (Ok (value_or d r.1), r.2).
Proof. destruct r as [[a|e] b]; simpl; [done | discriminate]. Qed.

Lemma result_eta {A : Type} (r : result A) (d : A) :
  is_ok r = true -> r = Ok (value_or d r).
Proof. destruct r; simpl; [done | discriminate]. Qed.

(** ** [extend_Xy] *)

Section ExtendXyFacts.

Variable np_random_shuffle : list nat -> list nat.

(** A label vector never goes with a matrix pad. *)
Lemma np_concatenate_vector_matrix d w rs :
  np_concatenate (Arr1 d) (Arr2 w rs) = Raise (ValueError MsgNumpyDimensions).
Proof. reflexivity. Qed.

Lemma np_full_is_matrix n w v a : np_full n w v = Ok a -> exists rs, a = Arr2 w rs.
Proof.
  unfold np_full. case_decide; [discriminate|].
  destruct v as [z|r]; [intros [= <-]; eauto|].
  case_decide; [intros [= <-]; eauto|].
  destruct r as [|z [|? ?]]; try discriminate. intros [= <-]; eauto.
Qed.

(** The pad of a token matrix whose rows have [MAX_SEQ_LENGTH] entries. *)
Lemma extend_column_matrix (n_extend : Z) rs r :
  (0 <= n_extend)%Z -> last rs = Some r -> length r = MAX_SEQ_LENGTH ->
  extend_column n_extend (Arr2 MAX_SEQ_LENGTH rs)
  = Ok (Arr2 MAX_SEQ_LENGTH (rs ++ repeat r (Z.to_nat n_extend))).
Proof.
  intros Hn Hlast Hlen. unfold extend_column. simpl. rewrite Hlast. simpl.
  unfold np_full. case_decide; [lia|]. case_decide; [|done].
  simpl. try case_decide; done.
Qed.

Lemma mapM_extend_column (n_extend : Z) (X : list ndarray) :
  (0 <= n_extend)%Z -> Forall token_matrix X ->
  exists X_ext, mapM (extend_column n_extend) X = Ok X_ext
                /\ Forall2 (padded_with_last (Z.to_nat n_extend)) X X_ext.
Proof.
  intros Hn. induction 1 as [|col X (rs & r & -> & Hlast & Hlen) _ (X_ext & HX & IH)].
  - exists []. split; [done | constructor].
  - exists (Arr2 MAX_SEQ_LENGTH (rs ++ repeat r (Z.to_nat n_extend)) :: X_ext).
    split.
    + cbn [mapM]. rewrite (extend_column_matrix _ _ r) by done.
      cbn [mbind result_bind]. rewrite HX. reflexivity.
    + constructor; [|done]. exists rs, r. done.
Qed.

(** Without labels the token matrices are padded as the claim says: the
    path the label vector was meant to follow. *)
Lemma extend_Xy_tokens_padded X0 Xs (batch_size : Z) :
  (0 < batch_size)%Z -> Forall token_matrix (X0 :: Xs) ->
  (Z.of_nat (shape0 X0) mod batch_size <> 0)%Z ->
  exists X_ext,
    extend_Xy np_random_shuffle batch_size (X0 :: Xs) None false = Ok (X_ext, None)
    /\ Forall2 (padded_with_last
                  (Z.to_nat (batch_size - Z.of_nat (shape0 X0) mod batch_size)))
               (X0 :: Xs) X_ext.
Proof.
  intros Hb Hwf Hmod. unfold extend_Xy.
  rewrite decide_False by lia. rewrite decide_False by done.
  pose proof (Z.mod_pos_bound (Z.of_nat (shape0 X0)) batch_size Hb) as Hbound.
  destruct (mapM_extend_column (batch_size - Z.of_nat (shape0 X0) mod batch_size)
              (X0 :: Xs)) as (X_ext & -> & Hpad); [lia | done |].
  exists X_ext. done.
Qed.

(** With a well-formed input the label path fails in [np.concatenate]. *)
Lemma extend_Xy_labels_dimension_error X0 Xs ys (batch_size : Z) shuffle :
  (0 < batch_size)%Z -> Forall token_matrix (X0 :: Xs) -> ys <> [] ->
  (Z.of_nat (shape0 X0) mod batch_size <> 0)%Z ->
  extend_Xy np_random_shuffle batch_size (X0 :: Xs) (Some (Arr1 ys)) shuffle
  = Raise (ValueError MsgNumpyDimensions).
Proof.
  intros Hb Hwf Hys Hmod. unfold extend_Xy.
  rewrite decide_False by lia. rewrite decide_False by done.
  pose proof (Z.mod_pos_bound (Z.of_nat (shape0 X0)) batch_size Hb) as Hbound.
  destruct (mapM_extend_column (batch_size - Z.of_nat (shape0 X0) mod batch_size)
              (X0 :: Xs)) as (X_ext & -> & _); [lia | done |].
  cbn [mbind result_bind]. unfold np_last.
  destruct (last ys) as [z|] eqn:Hlast.
  - cbn [mbind result_bind]. unfold np_full. rewrite decide_False by lia.
    reflexivity.
  - apply last_None in Hlast. done.
Qed.

(** C3 (the code departs from the claim). Whenever the number of samples
    is not a multiple of the batch size, [extend_Xy] called with a label
    vector returns nothing: it raises, for every input and either value
    of [shuffle]. *)
Theorem extend_Xy_labels_raise X0 Xs ys (batch_size : Z) shuffle :
  (Z.of_nat (shape0 X0) mod batch_size <> 0)%Z ->
  exists e, extend_Xy np_random_shuffle batch_size (X0 :: Xs) (Some (Arr1 ys)) shuffle
            = Raise e.
Proof.
  intros Hmod. unfold extend_Xy.
  case_decide; [eauto|]. rewrite decide_False by done.
  destruct (mapM _ _) as [X_ext|e]; [|eauto]. cbn [mbind result_bind].
  destruct (np_last (Arr1 ys)) as [fill_value|e]; [|eauto]. cbn [mbind result_bind].
  destruct (np_full _ _ fill_value) as [pad|e] eqn:Hfull; [|eauto].
  apply np_full_is_matrix in Hfull as [rs ->]. cbn [mbind result_bind].
  rewrite np_concatenate_vector_matrix. eauto.
Qed.

(** C10. When the number of samples is a multiple of the batch size,
    [extend_Xy] with [shuffle=True] returns its inputs as they are: nothing
    is appended and no permutation is applied. *)
Theorem extend_Xy_multiple_unchanged X0 Xs y (batch_size : Z) :
  batch_size <> 0%Z -> (batch_size | Z.of_nat (shape0 X0))%Z ->
  extend_Xy np_random_shuffle batch_size (X0 :: Xs) y true = Ok (X0 :: Xs, y).
Proof.
  intros Hb Hdiv. unfold extend_Xy.
  rewrite decide_False by done.
  apply Z.mod_divide in Hdiv; [|done]. by rewrite decide_True.
Qed.

End ExtendXyFacts.

(** One tokenized text and its label, for a batch size of two. *)
Lemma extend_Xy_labels_raise_witness :
  (Z.of_nat (shape0 (Arr2 MAX_SEQ_LENGTH [zero_row])) mod 2 <> 0)%Z
  /\ exists e, extend_Xy (fun indices => indices) 2
                 [Arr2 MAX_SEQ_LENGTH [zero_row]; Arr2 MAX_SEQ_LENGTH [zero_row];
                  Arr2 MAX_SEQ_LENGTH [zero_row]]
                 (Some (Arr1 [0%Z])) true = Raise e.
Proof.
  split; [vm_compute; discriminate|].
  apply (extend_Xy_labels_raise (fun indices => indices)). vm_compute; discriminate.
Defined.

(** Two tokenized texts, a batch size of two, a reversing shuffle. *)
Lemma extend_Xy_multiple_unchanged_witness :
  2%Z <> 0%Z
  /\ (2 | Z.of_nat (shape0 (Arr2 MAX_SEQ_LENGTH [zero_row; zero_row])))%Z
  /\ extend_Xy (@rev nat) 2 [Arr2 MAX_SEQ_LENGTH [zero_row; zero_row]]
            (Some (Arr1 [0%Z; 1%Z])) true
  = Ok ([Arr2 MAX_SEQ_LENGTH [zero_row; zero_row]], Some (Arr1 [0%Z; 1%Z])).
Proof.
  assert (Hb : 2%Z <> 0%Z) by discriminate.
  assert (Hdiv : (2 | Z.of_nat (shape0 (Arr2 MAX_SEQ_LENGTH [zero_row; zero_row])))%Z)
    by (exists 1%Z; reflexivity).
  split; [exact Hb|]. split; [exact Hdiv|].
  exact (extend_Xy_multiple_unchanged (@rev nat) _ _ _ _ Hb Hdiv).
Defined.

(** The failing input of C3, evaluated. *)
Example extend_Xy_labels_example :
  extend_Xy (fun indices => indices) 2
    [Arr2 MAX_SEQ_LENGTH [zero_row]; Arr2 MAX_SEQ_LENGTH [zero_row];
     Arr2 MAX_SEQ_LENGTH [zero_row]]
    (Some (Arr1 [0%Z])) false
  = Raise (ValueError MsgNumpyDimensions).
Proof. vm_compute. reflexivity. Qed.

(** ** [check_Xy] and the label check of [fit] *)

Section Labels.

Lemma collect_classes_acc (y : list Z) (acc : gset Z) (z : Z) :
  z ∈ foldl (fun classes_list class_idx =>
               if decide (0 ≤ class_idx)%Z then classes_list ∪ {[class_idx]}
               else classes_list) acc y
  <-> z ∈ acc \/ known_label y z.
Proof.
  unfold known_label. revert acc; induction y as [|c y IH]; intros acc; simpl.
  - split; [auto | intros [?|[Hin _]]; [done | by apply elem_of_nil in Hin]].
  - rewrite IH. case_decide; rewrite ?elem_of_union, ?elem_of_singleton, elem_of_cons.
    + split; [intros [ [? | ->] | [? ?] ] | intros [? | [ [-> | ?] ?] ] ]; auto.
    + split; [intros [? | [? ?] ] | intros [? | [ [-> | ?] ?] ] ]; auto; lia.
Qed.

Lemma elem_of_collect_classes (y : list Z) (z : Z) :
  z ∈ collect_classes y <-> known_label y z.
Proof.
  unfold collect_classes. rewrite collect_classes_acc.
  split; [intros [Hin|?]; [set_solver | done] | auto].
Qed.

Lemma StronglySorted_le_NoDup_lt (l : list Z) :
  StronglySorted Z.le l -> NoDup l -> StronglySorted Z.lt l.
Proof.
  induction 1 as [|a l Hs IH Hall]; intros Hnd; [constructor|].
  apply NoDup_cons in Hnd as [Hnotin Hnd]. constructor; [auto|].
  rewrite Forall_forall in *. intros x Hx.
  assert (a <> x) by (intros ->; done).
  specialize (Hall x Hx). lia.
Qed.

Lemma sorted_Z_Permutation (s : gset Z) : sorted_Z s ≡ₚ elements s.
Proof. apply merge_sort_Permutation. Qed.

Lemma sorted_Z_sorted (s : gset Z) : StronglySorted Z.lt (sorted_Z s).
Proof.
  apply StronglySorted_le_NoDup_lt.
  - apply StronglySorted_merge_sort; apply _.
  - rewrite sorted_Z_Permutation. apply NoDup_elements.
Qed.

Lemma elem_of_sorted_Z (s : gset Z) (z : Z) : z ∈ sorted_Z s <-> z ∈ s.
Proof. rewrite sorted_Z_Permutation. apply elem_of_elements. Qed.

Lemma length_sorted_Z (s : gset Z) : length (sorted_Z s) = size s.
Proof. by rewrite sorted_Z_Permutation. Qed.

Lemma py_range_sorted (n : nat) : StronglySorted Z.lt (py_range n).
Proof.
  unfold py_range. apply (StronglySorted_fmap _ lt Z.lt); [intros; lia|].
  generalize 0. induction n as [|n IH]; intros start; simpl; constructor; [apply IH|].
  apply Forall_forall. intros x Hx. apply elem_of_seq in Hx. lia.
Qed.

Lemma elem_of_py_range (n : nat) (z : Z) : z ∈ py_range n <-> (0 <= z < Z.of_nat n)%Z.
Proof.
  unfold py_range. rewrite list_elem_of_fmap. split.
  - intros (i & -> & Hi). apply elem_of_seq in Hi. lia.
  - intros Hz. exists (Z.to_nat z). rewrite elem_of_seq. lia.
Qed.

Lemma length_py_range (n : nat) : length (py_range n) = n.
Proof. unfold py_range. by rewrite length_fmap, length_seq. Qed.

(** Two strictly increasing lists with the same members are the same. *)
Lemma strictly_sorted_ext (l1 l2 : list Z) :
  StronglySorted Z.lt l1 -> StronglySorted Z.lt l2 ->
  (forall z, z ∈ l1 <-> z ∈ l2) -> l1 = l2.
Proof.
  intros H1 H2 Hext.
  assert (Hnd : forall l, StronglySorted Z.lt l -> NoDup l).
  { induction 1 as [|a l _ IH Hall]; constructor; [|done].
    intros Hin. rewrite Forall_forall in Hall. specialize (Hall a Hin). lia. }
  apply (StronglySorted_unique_strong Z.lt); try done.
  - intros x1 x2 _ _ ? ?. lia.
  - apply NoDup_Permutation; auto.
Qed.

(** In a strictly increasing list of integers the last entry is at least
    the first one plus the number of entries after it. *)
Lemma strictly_sorted_last_ge (a : Z) (l : list Z) (z : Z) :
  StronglySorted Z.lt (a :: l) -> last (a :: l) = Some z ->
  (a + Z.of_nat (length l) <= z)%Z.
Proof.
  revert a; induction l as [|b l IH]; intros a Hs Hlast.
  - simpl in *. inversion Hlast. lia.
  - rewrite last_cons_cons in Hlast.
    apply StronglySorted_inv in Hs as [Hs Hall].
    apply Forall_cons in Hall as [Hab _].
    specialize (IH b Hs Hlast). simpl length. lia.
Qed.

(** ... and when the bound is met the list has no gap. *)
Lemma strictly_sorted_no_gap (a : Z) (l : list Z) (j : Z) :
  StronglySorted Z.lt (a :: l) -> last (a :: l) = Some (a + Z.of_nat (length l))%Z ->
  (a <= j <= a + Z.of_nat (length l))%Z -> j ∈ a :: l.
Proof.
  revert a; induction l as [|b l IH]; intros a Hs Hlast Hj.
  - simpl in Hj. apply elem_of_cons. left. lia.
  - rewrite last_cons_cons in Hlast.
    pose proof Hs as Hs'.
    apply StronglySorted_inv in Hs as [Hs Hall].
    apply Forall_cons in Hall as [Hab _].
    pose proof (strictly_sorted_last_ge b l _ Hs Hlast) as Hge.
    simpl length in *.
    assert (b = a + 1)%Z as -> by lia.
    apply elem_of_cons. destruct (decide (j = a)) as [->|Hne]; [by left|right].
    apply IH; [done| |lia].
    rewrite Hlast. f_equal. lia.
Qed.

Lemma strictly_sorted_le_last (l : list Z) (m z : Z) :
  StronglySorted Z.lt l -> last l = Some m -> z ∈ l -> (z <= m)%Z.
Proof.
  intros Hs Hlast Hz. apply last_Some in Hlast as [l' ->].
  apply elem_of_app in Hz as [Hz|Hz].
  - apply Z.lt_le_incl.
    apply (StronglySorted_app_1_elem_of Z.lt l' [m]); [done..|]. apply list_elem_of_singleton. done.
  - apply list_elem_of_singleton in Hz. lia.
Qed.

Lemma last_py_range (n : nat) : last (py_range (S n)) = Some (Z.of_nat n).
Proof. unfold py_range. rewrite seq_S, fmap_app. simpl. by rewrite last_snoc. Qed.

(** The check of lines 50-53 passes exactly on the list [0 .. n-1]. *)
Lemma ordered_check_iff (classes : list Z) (first final : Z) :
  StronglySorted Z.lt classes ->
  head classes = Some first -> last classes = Some final ->
  (first = 0%Z /\ final = (Z.of_nat (length classes) - 1)%Z)
  <-> classes = py_range (length classes).
Proof.
  intros Hs Hhead Hlast. split.
  - intros [-> ->]. destruct classes as [|a l]; [done|].
    simpl in Hhead. inversion Hhead; subst a.
    apply strictly_sorted_ext; [done | apply py_range_sorted |].
    intros z. rewrite elem_of_py_range.
    replace (Z.of_nat (length (0%Z :: l)) - 1)%Z with (0 + Z.of_nat (length l))%Z
      in Hlast by (simpl length; lia).
    split.
    + intros Hz. pose proof (strictly_sorted_le_last _ _ _ Hs Hlast Hz) as Hle.
      split; [|simpl length; lia].
      apply elem_of_cons in Hz as [->|Hz]; [lia|].
      apply StronglySorted_inv in Hs as [_ Hall].
      rewrite Forall_forall in Hall. specialize (Hall z Hz). lia.
    + intros Hz. apply (strictly_sorted_no_gap 0 l); [done..|].
      simpl length in Hz. lia.
  - intros Heq. destruct classes as [|a l]; [done|].
    rewrite Heq in Hhead, Hlast. simpl length in *.
    rewrite last_py_range in Hlast. inversion Hlast; subst final.
    unfold py_range in Hhead. simpl in Hhead. inversion Hhead; subst first.
    split; [done | lia].
Qed.

Lemma size_collect_two (y : list Z) :
  2 <= size (collect_classes y) <-> two_known_labels y.
Proof.
  unfold two_known_labels. split.
  - intros Hsize.
    destruct (elements (collect_classes y)) as [|a [|b l]] eqn:Hel.
    + unfold size, set_size in Hsize. simpl in Hsize. rewrite Hel in Hsize. simpl in *. lia.
    + unfold size, set_size in Hsize. simpl in Hsize. rewrite Hel in Hsize. simpl in *. lia.
    + pose proof (NoDup_elements (collect_classes y)) as Hnd. rewrite Hel in Hnd.
      exists a, b. rewrite <- !elem_of_collect_classes, <- !elem_of_elements, Hel.
      split; [by left|]. split; [right; by left|].
      apply NoDup_cons in Hnd as [Hnotin _]. intros ->. apply Hnotin. by left.
  - intros (a & b & Ha & Hb & Hne).
    apply elem_of_collect_classes in Ha, Hb.
    assert (Hsub : ({[a]} ∪ {[b]} : gset Z) ⊆ collect_classes y).
    { intros x Hx. apply elem_of_union in Hx as [Hx|Hx];
        apply elem_of_singleton in Hx; by subst x. }
    apply subseteq_size in Hsub. rewrite size_union in Hsub.
    2:{ intros x Hxa Hxb. apply elem_of_singleton in Hxa, Hxb. congruence. }
    rewrite !size_singleton in Hsub. lia.
Qed.

(** What [check_Xy] returns for texts and labels of equal length. *)
Lemma check_Xy_equal_length (X : list string) (X_name : string) (y : list Z) (y_name : string) :
  length X = length y ->
  check_Xy X X_name y y_name
  = if decide (size (collect_classes y) < 2)
    then Raise (ValueError (MsgTooFewClasses y_name))
    else Ok (sorted_Z (collect_classes y)).
Proof.
  intros Hlen. unfold check_Xy, check_X. cbn [mbind result_bind].
  rewrite decide_False by lia. done.
Qed.

(** [fit] accepts a label vector exactly when the sorted list of its
    classes is [0 .. n-1]. *)
Lemma fit_n_classes_equal_length (X : list string) (y : list Z) :
  length X = length y -> 2 <= size (collect_classes y) ->
  let classes := sorted_Z (collect_classes y) in
  fit_n_classes X y
  = if decide (classes = py_range (length classes)) then Ok (length classes)
    else Raise (ValueError (MsgNotOrdered (py_range (length classes)) classes)).
Proof.
  intros Hlen Hsize classes. unfold fit_n_classes.
  rewrite check_Xy_equal_length by done. rewrite decide_False by lia.
  cbn [mbind result_bind]. fold classes.
  assert (Hl : length classes = size (collect_classes y)) by apply length_sorted_Z.
  destruct (head classes) as [first|] eqn:Hhead;
    [|apply head_None in Hhead; rewrite Hhead in Hl; simpl in Hl; lia].
  destruct (last classes) as [final|] eqn:Hlast;
    [|apply last_None in Hlast; rewrite Hlast in Hl; simpl in Hl; lia].
  pose proof (ordered_check_iff classes first final (sorted_Z_sorted _) Hhead Hlast) as Hiff.
  destruct (decide (classes = _)) as [Heq|Hne].
  - rewrite decide_False; [done|]. apply Hiff in Heq. lia.
  - rewrite decide_True; [done|].
    destruct (decide (first = 0%Z)); [|auto].
    destruct (decide (final = (Z.of_nat (length classes) - 1)%Z)); [|auto].
    exfalso. apply Hne, Hiff. done.
Qed.

Lemma labels_exactly_iff (y : list Z) (k : nat) :
  labels_exactly y k <-> sorted_Z (collect_classes y) = py_range k.
Proof.
  split.
  - intros Hex. apply strictly_sorted_ext; [apply sorted_Z_sorted | apply py_range_sorted |].
    intros z. rewrite elem_of_sorted_Z, elem_of_collect_classes, elem_of_py_range. apply Hex.
  - intros Heq z. rewrite <- elem_of_collect_classes, <- elem_of_sorted_Z, Heq.
    apply elem_of_py_range.
Qed.

(** C6, as the code has it. For texts and labels of equal length: labels
    whose non-negative values are exactly [0 .. k-1], [k >= 2], are accepted
    and [n_classes_] becomes [k]; two or more known classes that are not of
    that form raise the error that names the expected list [0 .. n-1] and
    the sorted list of the classes found; fewer than two known classes
    raise the error about too few classes. *)
Theorem fit_n_classes_labels (X : list string) (y : list Z) :
  length X = length y ->
  (forall k, 2 <= k -> labels_exactly y k -> fit_n_classes X y = Ok k)
  /\ (two_known_labels y -> ~ contiguous_labels y ->
      exists actual,
        fit_n_classes X y
        = Raise (ValueError (MsgNotOrdered (py_range (length actual)) actual))
        /\ StronglySorted Z.lt actual
        /\ forall z, z ∈ actual <-> known_label y z)
  /\ (~ two_known_labels y ->
      fit_n_classes X y = Raise (ValueError (MsgTooFewClasses "y"))).
Proof.
  intros Hlen. split; [|split].
  - intros k Hk Hex. apply labels_exactly_iff in Hex.
    assert (Hsize : size (collect_classes y) = k).
    { rewrite <- length_sorted_Z, Hex. apply length_py_range. }
    rewrite fit_n_classes_equal_length by lia. cbn zeta.
    rewrite Hex, length_py_range. by rewrite decide_True.
  - intros Htwo Hnot. apply size_collect_two in Htwo.
    exists (sorted_Z (collect_classes y)).
    split; [|split].
    + rewrite fit_n_classes_equal_length by done. cbn zeta.
      rewrite decide_False; [done|]. intros Heq. apply Hnot.
      exists (length (sorted_Z (collect_classes y))). split.
      * rewrite length_sorted_Z. done.
      * by apply labels_exactly_iff.
    + apply sorted_Z_sorted.
    + intros z. by rewrite elem_of_sorted_Z, elem_of_collect_classes.
  - intros Hnot. unfold fit_n_classes. rewrite check_Xy_equal_length by done.
    rewrite decide_True; [done|].
    destruct (decide (size (collect_classes y) < 2)) as [|Hge]; [done|].
    exfalso. apply Hnot, size_collect_two. lia.
Qed.

End Labels.

(** Three texts, the third one unlabeled. *)
Lemma fit_n_classes_labels_witness :
  length ["a"; "b"; "c"] = length [0%Z; 1%Z; (-1)%Z]
  /\ fit_n_classes ["a"; "b"; "c"] [0%Z; 1%Z; (-1)%Z] = Ok 2.
Proof.
  assert (Hlen : length ["a"; "b"; "c"] = length [0%Z; 1%Z; (-1)%Z]) by reflexivity.
  split; [exact Hlen|].
  apply (proj1 (fit_n_classes_labels ["a"; "b"; "c"] [0%Z; 1%Z; (-1)%Z] Hlen) 2); [lia|].
  intros z. unfold known_label. rewrite !elem_of_cons, elem_of_nil. lia.
Defined.

(** C6 as worded fails on a label vector with a single class: the vector is
    not contiguous, yet the error raised is the one about too few classes. *)
Lemma labels_claim_single_class : ~ labels_claim ["a"; "b"] [0%Z; 0%Z].
Proof.
  intros [_ Hraise].
  destruct Hraise as (expected & actual & Heq).
  - intros (k & Hk & Hex).
    assert (Hone : known_label [0%Z; 0%Z] 1%Z) by (apply Hex; lia).
    destruct Hone as [Hin _]. rewrite !elem_of_cons, elem_of_nil in Hin. lia.
  - vm_compute in Heq. discriminate.
Qed.

(** ** Inference *)

(** Unfolds one step of a computation known to have succeeded. *)
Ltac step_ok H :=
  lazymatch type of H with
  | (_ ≫= _) = Ok _ => inv_bind H
  | (if decide ?P then _ else _) = Ok _ => destruct (decide P); [try discriminate H | try discriminate H]
  | (match ?x with _ => _ end) = Ok _ => destruct x eqn:?; try discriminate H
  end.

Tactic Notation "inv_bind" hyp(H) "as" simple_intropattern(a) ident(Ha) :=
  apply bind_Ok in H; destruct H as (a & Ha & H).

Section InferenceFacts.

Context `{Collaborators}.

Lemma tokenize_all_shape (self : attrs) (X : list string) (X_tokenized : list ndarray) :
  tokenize_all self X = Ok X_tokenized ->
  exists r0 r1 r2,
    X_tokenized = [Arr2 MAX_SEQ_LENGTH r0; Arr2 MAX_SEQ_LENGTH r1; Arr2 MAX_SEQ_LENGTH r2]
    /\ length r0 = length X.
Proof.
  unfold tokenize_all. intros Htok. step_ok Htok. step_ok Htok. step_ok Htok.
  inversion Htok; subst. eexists _, _, _. split; [done|].
  rewrite length_fmap. by eapply mapM_Ok_length.
Qed.

Lemma extend_column_grows (n_extend : Z) (col col' : ndarray) :
  extend_column n_extend col = Ok col' -> shape0 col <= shape0 col'.
Proof.
  unfold extend_column. intros Hext. step_ok Hext. step_ok Hext.
  destruct col as [d|w rs], a0 as [d'|w' rs']; simpl in Hext; try discriminate.
  - inversion Hext; subst. simpl. rewrite length_app. lia.
  - step_ok Hext. inversion Hext; subst. simpl. rewrite length_app. lia.
Qed.

Lemma extend_Xy_tokens_grow shuffle_fn (batch_size : Z) X0 Xs X' y' :
  extend_Xy shuffle_fn batch_size (X0 :: Xs) None false = Ok (X', y') ->
  exists X0' Xs', X' = X0' :: Xs' /\ shape0 X0 <= shape0 X0'.
Proof.
  unfold extend_Xy. intros Hext. step_ok Hext. step_ok Hext.
  - inversion Hext; subst. eauto.
  - step_ok Hext. inversion Hext; subst. simpl in Hrun.
    step_ok Hrun. step_ok Hrun. inversion Hrun; subst.
    eexists _, _. split; [done|]. by eapply extend_column_grows.
Qed.

(** *** The averaged probabilities and their integer cast *)

Lemma to_int32_small (q : Q) : (0 < q)%Q -> (q < 1)%Q -> to_int32 q = 0%Z.
Proof.
  destruct q as [n d]. unfold Qlt, to_int32; simpl. intros Hpos Hlt.
  apply Z.quot_small. lia.
Qed.

Lemma Forall_zip_with_both {A B C : Type} (f : A -> B -> C)
    (P : A -> Prop) (Q : B -> Prop) (R : C -> Prop) (l1 : list A) (l2 : list B) :
  (forall a b, P a -> Q b -> R (f a b)) ->
  Forall P l1 -> Forall Q l2 -> Forall R (zip_with f l1 l2).
Proof.
  intros Hf H1. revert l2. induction H1 as [|a l1 Ha _ IH]; intros l2 H2; [constructor|].
  destruct H2 as [|b l2 Hb H2]; [constructor|]. simpl. constructor; auto.
Qed.

Lemma mat_add_between (a b : Q) (A B : list (list Q)) :
  mat_between 0 a A -> mat_between 0 b B -> mat_between 0 (a + b) (mat_add A B).
Proof.
  unfold mat_between, mat_add. apply Forall_zip_with_both.
  intros ra rb. apply Forall_zip_with_both. intros x y [? ?] [? ?]. split; Lqa.lra.
Qed.

Lemma mat_between_le (lo hi hi' : Q) (m : list (list Q)) :
  (hi <= hi')%Q -> mat_between lo hi m -> mat_between lo hi' m.
Proof.
  intros Hle. unfold mat_between. intros Hm.
  eapply Forall_impl; [exact Hm|]. intros row Hrow.
  eapply Forall_impl; [exact Hrow|]. intros x [? ?]. split; [done | Lqa.lra].
Qed.

Lemma foldl_mat_add_between (ps : list (list (list Q))) (acc : list (list Q)) (k : Q) :
  mat_between 0 k acc -> Forall (mat_between 0 1) ps ->
  mat_between 0 (k + inject_Z (Z.of_nat (length ps))) (foldl mat_add acc ps).
Proof.
  revert acc k. induction ps as [|p ps IH]; intros acc k Hacc Hps; simpl.
  - eapply mat_between_le; [|done]. change (inject_Z (Z.of_nat 0)) with 0%Q. Lqa.lra.
  - apply Forall_cons in Hps as [Hp Hps].
    eapply mat_between_le; [|apply (IH _ (k + 1)%Q); [by apply mat_add_between | done]].
    simpl length. rewrite Nat2Z.inj_succ, <- Z.add_1_r, inject_Z_plus.
    change (inject_Z 1) with 1%Q. Lqa.lra.
Qed.

(** The mean of matrices with entries in (0,1) has its entries in (0,1). *)
Lemma np_mean_axis0_between (probs : list (list (list Q))) :
  Forall (mat_between 0 1) probs -> mat_between 0 1 (np_mean_axis0 probs).
Proof.
  destruct probs as [|p ps]; intros Hall; [constructor|].
  apply Forall_cons in Hall as [Hp Hps]. unfold np_mean_axis0.
  pose proof (foldl_mat_add_between ps p 1 Hp Hps) as Hsum.
  assert (Hlen : (inject_Z (Z.of_nat (length (p :: ps)))
                  == 1 + inject_Z (Z.of_nat (length ps)))%Q).
  { simpl length. rewrite Nat2Z.inj_succ, <- Z.add_1_l, inject_Z_plus. reflexivity. }
  set (n := inject_Z (Z.of_nat (length (p :: ps)))) in *.
  assert (Hn : (0 < n)%Q).
  { rewrite Hlen. pose proof (Nat2Z.is_nonneg (length ps)) as Hnn.
    assert (0 <= inject_Z (Z.of_nat (length ps)))%Q by (unfold Qle; simpl; lia). Lqa.lra. }
  unfold mat_between in *. apply Forall_forall. intros row Hrow.
  apply list_elem_of_In, in_map_iff in Hrow as (row' & <- & Hrow').
  apply list_elem_of_In in Hrow'. rewrite Forall_forall in Hsum. specialize (Hsum _ Hrow').
  apply Forall_forall. intros x Hx.
  apply list_elem_of_In, in_map_iff in Hx as (x' & <- & Hx').
  apply list_elem_of_In in Hx'. rewrite Forall_forall in Hsum.
  destruct (Hsum _ Hx') as [Hlo Hhi]. split.
  - apply Qlt_shift_div_l; [done | Lqa.lra].
  - apply Qlt_shift_div_r; [done | Lqa.lra].
Qed.

Section Softmax.

(** The output of a softmax: every probability is strictly between 0 and 1. *)
Hypothesis probs_of_run_open :
  forall w run feed i c, (0 < probs_of_run w run feed i c /\ probs_of_run w run feed i c < 1)%Q.

Lemma run_probs_between self run feed_dict probs :
  run_probs self run feed_dict = Ok probs -> mat_between 0 1 probs.
Proof.
  unfold run_probs. intros Hrun. repeat step_ok Hrun. inversion Hrun; subst.
  unfold mat_between. apply Forall_forall. intros row Hrow.
  apply list_elem_of_In, in_map_iff in Hrow as (i & <- & _).
  apply Forall_forall. intros x Hx.
  apply list_elem_of_In, in_map_iff in Hx as (c & <- & _). apply probs_of_run_open.
Qed.

Lemma monte_carlo_mean_between self run num_monte_carlo feed_dict mean_probs :
  monte_carlo_mean self run num_monte_carlo feed_dict = Ok mean_probs ->
  mat_between 0 1 mean_probs.
Proof.
  unfold monte_carlo_mean. intros Hmean. step_ok Hmean. inversion Hmean; subst.
  apply np_mean_axis0_between. apply mapM_Ok_Forall2 in Hrun.
  clear Hmean. induction Hrun as [|k p ks ps Hk _ IH]; constructor; [|done].
  by eapply run_probs_between.
Qed.

Lemma np_assign_rows_Forall {A : Type} (P : list A -> Prop) ncols
    (target : list (list A)) lo hi rows target' :
  np_assign_rows ncols target lo hi rows = Ok target' ->
  Forall P target -> Forall P rows ->
  Forall P target' /\ length target' = length target.
Proof.
  unfold np_assign_rows, py_slice. intros Hassign Htarget Hrows.
  step_ok Hassign. inversion Hassign; subst. destruct a as [Hlen _]. split.
  - apply Forall_app. split; [by apply Forall_take|].
    apply Forall_app. split; [done | by apply Forall_drop].
  - rewrite length_take, length_drop in Hlen.
    rewrite !length_app, length_take, length_drop. lia.
Qed.

Lemma np_assign_rows_ncols {A : Type} ncols (target : list (list A)) lo hi rows target' :
  np_assign_rows ncols target lo hi rows = Ok target' ->
  Forall (fun r => length r = ncols) rows.
Proof. unfold np_assign_rows. intros Hassign. step_ok Hassign. by destruct a. Qed.

(** Whatever the batches, the integer buffer stays full of zeros. *)
Lemma predict_batches_zero self num_monte_carlo n_classes X_tokenized bounds :
  forall run probabilities probabilities',
    zero_rows n_classes probabilities ->
    predict_batches self run num_monte_carlo n_classes X_tokenized bounds probabilities
    = Ok probabilities' ->
    zero_rows n_classes probabilities' /\ length probabilities' = length probabilities.
Proof.
  induction bounds as [|cur_batch rest IH]; intros run P P' Hzero Hrun; simpl in Hrun.
  - inversion Hrun; subst. done.
  - step_ok Hrun. step_ok Hrun. step_ok Hrun.
    rename a into feed_dict, a0 into mean_probs, a1 into P1.
    apply monte_carlo_mean_between in Hrun1.
    pose proof (np_assign_rows_ncols _ _ _ _ _ _ Hrun2) as Hcols.
    assert (Hnew : zero_rows n_classes (map (map to_int32) mean_probs)).
    { unfold zero_rows. apply Forall_forall. intros row Hrow.
      split; [by rewrite Forall_forall in Hcols; apply Hcols|].
      apply list_elem_of_In, in_map_iff in Hrow as (row' & <- & Hrow').
      apply list_elem_of_In in Hrow'. unfold mat_between in Hrun1.
      rewrite Forall_forall in Hrun1. specialize (Hrun1 _ Hrow').
      apply Forall_forall. intros p Hp.
      apply list_elem_of_In, in_map_iff in Hp as (q & <- & Hq).
      apply list_elem_of_In in Hq. rewrite Forall_forall in Hrun1.
      destruct (Hrun1 _ Hq). by apply to_int32_small. }
    destruct (np_assign_rows_Forall _ _ _ _ _ _ _ Hrun2 Hzero Hnew) as [Hzero1 Hlen1].
    destruct (IH _ _ _ Hzero1 Hrun) as [Hzero' Hlen']. split; [done | lia].
Qed.

(** [predict_proba] returns a matrix with a row per text and [n_classes_]
    columns, but since its buffer has [dtype=np.int32] every averaged
    probability is truncated: all the entries are 0. *)
Lemma predict_proba_all_zero (self : attrs) (run : nat) (X : list string)
    (probabilities : ndarray) :
  predict_proba self run X = Ok probabilities ->
  exists v c rows,
    self !! "n_classes_" = Some v /\ as_int v = Some c
    /\ probabilities = Arr2 (Z.to_nat c) rows
    /\ length rows = length X
    /\ zero_rows (Z.to_nat c) rows.
Proof.
  unfold predict_proba. intros Hp.
  inv_bind Hp as kwargs Hkwargs. inv_bind Hp as ? Hparams. inv_bind Hp as ? HX.
  inv_bind Hp as ? Hfitted. inv_bind Hp as X_tokenized Htok.
  apply tokenize_all_shape in Htok as (r0 & r1 & r2 & -> & Hlen).
  inv_bind Hp as vb Hvb. inv_bind Hp as vm Hvm. inv_bind Hp as vc Hvc.
  destruct (as_int vb) as [b|] eqn:Hb; [|discriminate].
  destruct (as_int vm) as [m|] eqn:Hm; [|discriminate].
  destruct (as_int vc) as [c|] eqn:Hc; [|discriminate].
  inv_bind Hp as [X_ext y_ext] Hext.
  apply extend_Xy_tokens_grow in Hext as (X0' & Xs' & -> & Hgrow).
  destruct (decide (c < 0)%Z); [discriminate|].
  inv_bind Hp as buffer Hbatches. inversion Hp; subst; clear Hp.
  apply predict_batches_zero in Hbatches as [Hzero Hlen'].
  2:{ unfold zero_rows. apply Forall_forall. intros row Hrow.
      apply list_elem_of_In, repeat_spec in Hrow as ->.
      split; [apply repeat_length|]. apply Forall_forall. intros p Hp'.
      by apply list_elem_of_In, repeat_spec in Hp'. }
  rewrite repeat_length in Hlen'. simpl in Hgrow.
  exists vc, c, (py_slice buffer 0 (length r0)).
  unfold getattr in Hvc. destruct (self !! "n_classes_") as [v|] eqn:Hv; [|discriminate].
  inversion Hvc; subst v.
  split; [done|]. split; [done|]. split; [done|]. unfold py_slice. split.
  - rewrite length_take, drop_0. lia.
  - unfold zero_rows in *. rewrite drop_0. by apply Forall_take.
Qed.

Lemma zero_row_sum (row : list Z) : Forall (fun p => p = 0%Z) row -> foldr Z.add 0%Z row = 0%Z.
Proof. induction 1 as [|p row -> _ IH]; simpl; [done | by rewrite IH]. Qed.

(** C1 (the code departs from the claim). No row that [predict_proba]
    returns is a probability vector in the sense of the claim: the
    entries are integers, all 0, and so is their sum. *)
Theorem predict_proba_rows_not_probabilities (self : attrs) (run : nat) (X : list string)
    (n_classes : nat) (rows : list (list Z)) :
  predict_proba self run X = Ok (Arr2 n_classes rows) ->
  length rows = length X
  /\ Forall (fun row => length row = n_classes /\ row_sum row == 0 /\ ~ probability_row row)%Q
            rows.
Proof.
  intros Hp. apply predict_proba_all_zero in Hp as (v & c & rows' & _ & _ & Heq & Hlen & Hzero).
  inversion Heq; subst. split; [done|].
  unfold zero_rows in Hzero. eapply Forall_impl; [exact Hzero|].
  intros row [Hcols Hrow]. split; [done|].
  assert (Hsum : row_sum row = 0%Q) by (unfold row_sum; by rewrite zero_row_sum).
  split; [by rewrite Hsum|].
  intros [[Hlo _] _]. rewrite Hsum in Hlo. revert Hlo. unfold Qle; simpl. lia.
Qed.

End Softmax.

(** *** [predict] *)

(** [argmax_from] keeps the first position of the greatest entry seen. *)
Lemma argmax_from_spec (l pre : list Z) (best_idx : nat) (best : Z) :
  pre !! best_idx = Some best ->
  (forall q, q ∈ pre -> (q <= best)%Z) ->
  (forall j q, j < best_idx -> pre !! j = Some q -> (q < best)%Z) ->
  exists p, (pre ++ l) !! argmax_from Z.ltb best_idx best (length pre) l = Some p
            /\ (forall q, q ∈ pre ++ l -> (q <= p)%Z)
            /\ (forall j q, j < argmax_from Z.ltb best_idx best (length pre) l ->
                            (pre ++ l) !! j = Some q -> (q < p)%Z).
Proof.
  revert pre best_idx best. induction l as [|x l IH]; intros pre bi b Hbi Hmax Hfirst.
  - simpl. rewrite app_nil_r. eauto.
  - simpl. replace (pre ++ x :: l) with ((pre ++ [x]) ++ l) by (by rewrite <- app_assoc).
    replace (S (length pre)) with (length (pre ++ [x])) by (rewrite length_app; simpl; lia).
    destruct (Z.ltb_spec b x) as [Hlt|Hge].
    + apply IH.
      * rewrite lookup_app_r by lia. by rewrite Nat.sub_diag.
      * intros q Hq. apply elem_of_app in Hq as [Hq|Hq].
        -- specialize (Hmax q Hq). lia.
        -- apply list_elem_of_singleton in Hq. lia.
      * intros j q Hj Hq. rewrite lookup_app_l in Hq by done.
        assert (Hin : q ∈ pre) by (by eapply list_elem_of_lookup_2).
        specialize (Hmax q Hin). lia.
    + apply IH.
      * apply lookup_lt_Some in Hbi as Hlt. by rewrite lookup_app_l.
      * intros q Hq. apply elem_of_app in Hq as [Hq|Hq]; [by apply Hmax|].
        apply list_elem_of_singleton in Hq. lia.
      * intros j q Hj Hq. apply lookup_lt_Some in Hbi as Hlt.
        rewrite lookup_app_l in Hq by lia. by eapply Hfirst.
Qed.

(** [np_argmax] returns the first position of the greatest entry. *)
Lemma np_argmax_spec (row : list Z) (c : nat) :
  np_argmax Z.ltb row = Ok c ->
  exists p, row !! c = Some p
            /\ (forall q, q ∈ row -> (q <= p)%Z)
            /\ (forall j q, j < c -> row !! j = Some q -> (q < p)%Z).
Proof.
  destruct row as [|x l]; [discriminate|]. simpl. intros [= <-].
  apply (argmax_from_spec l [x] 0 x); [done| |intros; lia].
  intros q Hq. apply list_elem_of_singleton in Hq. lia.
Qed.

(** C5. Every class [predict] returns is the arg-max of the matching row
    of [predict_proba] when the greatest entry of that row is at least
    [certainty_threshold_], and [-1] when it is below. *)
Theorem predict_argmax_or_unknown (self : attrs) (run : nat) (X : list string)
    (classes : list Z) :
  predict self run X = Ok classes ->
  exists n_classes rows,
    predict_proba self run X = Ok (Arr2 n_classes rows)
    /\ length classes = length rows
    /\ forall i row, rows !! i = Some row ->
         exists v threshold c p,
           self !! "certainty_threshold_" = Some v /\ as_number v = Some threshold
           /\ np_argmax Z.ltb row = Ok c /\ row !! c = Some p
           /\ (forall q, q ∈ row -> (q <= p)%Z)
           /\ ((threshold <= inject_Z p)%Q -> classes !! i = Some (Z.of_nat c))
           /\ ((inject_Z p < threshold)%Q -> classes !! i = Some (-1)%Z).
Proof.
  unfold predict. intros Hp. inv_bind Hp as probabilities Hproba.
  destruct probabilities as [|n_classes rows]; [discriminate|].
  destruct (decide (n_classes = 0)); [discriminate|].
  inv_bind Hp as recognized Hargmax.
  pose proof (mapM_Ok_length _ _ _ Hargmax) as Hlen.
  exists n_classes, rows. split; [done|].
  destruct (decide (length recognized = 0)) as [Hzero|Hpos].
  - inversion Hp; subst. split; [simpl; lia|].
    intros i row Hrow. apply lookup_lt_Some in Hrow. lia.
  - inv_bind Hp as v Hv. destruct (as_number v) as [threshold|] eqn:Hthr; [|discriminate].
    pose proof (mapM_Ok_length _ _ _ Hp) as Hlen'. rewrite length_zip in Hlen'.
    split; [lia|]. intros i row Hrow.
    destruct (mapM_Ok_lookup _ _ _ _ _ Hargmax Hrow) as (c & Hc & Hrowc).
    destruct (np_argmax_spec _ _ Hrowc) as (p & Hcp & Hmax & _).
    assert (Hzip : zip rows recognized !! i = Some (row, c)).
    { apply lookup_zip_with_Some. eauto. }
    destruct (mapM_Ok_lookup _ _ _ _ _ Hp Hzip) as (cls & Hcls & Hrec).
    unfold recognize in Hrec. rewrite Hcp in Hrec.
    unfold getattr in Hv. destruct (self !! "certainty_threshold_") as [v'|]; [|discriminate].
    inversion Hv; subst v'.
    exists v, threshold, c, p. do 5 (split; [done|]).
    unfold Qltb in Hrec. destruct (Qle_bool threshold (inject_Z p)) eqn:Hle; simpl in Hrec.
    + apply Qle_bool_iff in Hle. inversion Hrec; subst. split; [done|].
      intros Hlt. exfalso. Lqa.lra.
    + inversion Hrec; subst. split; [|done].
      intros Hle'. apply Qle_bool_iff in Hle'. congruence.
Qed.


End InferenceFacts.

(** The distribution of the example is a softmax output. *)
Lemma toy_probs_open (w : weights) (run : nat) (feed : list ndarray) (i c : nat) :
  (0 < probs_of_run (Collaborators := toy_collaborators) w run feed i c
   /\ probs_of_run (Collaborators := toy_collaborators) w run feed i c < 1)%Q.
Proof. simpl. repeat case_decide; split; reflexivity. Qed.

(** Three texts given to the fitted example. *)
Lemma predict_proba_rows_not_probabilities_witness :
  (forall w run feed i c,
      (0 < probs_of_run (Collaborators := toy_collaborators) w run feed i c
       /\ probs_of_run (Collaborators := toy_collaborators) w run feed i c < 1)%Q)
  /\ predict_proba (H := toy_collaborators) toy_fitted 0 ["a"; "b"; "c"]
     = Ok (Arr2 2 [[0%Z; 0%Z]; [0%Z; 0%Z]; [0%Z; 0%Z]])
  /\ length [[0%Z; 0%Z]; [0%Z; 0%Z]; [0%Z; 0%Z]] = length ["a"; "b"; "c"]
  /\ Forall (fun row => length row = 2%nat /\ row_sum row == 0 /\ ~ probability_row row)%Q
            [[0%Z; 0%Z]; [0%Z; 0%Z]; [0%Z; 0%Z]].
Proof.
  assert (Hp : predict_proba (H := toy_collaborators) toy_fitted 0 ["a"; "b"; "c"]
               = Ok (Arr2 2 [[0%Z; 0%Z]; [0%Z; 0%Z]; [0%Z; 0%Z]]))
    by (vm_compute; reflexivity).
  split; [exact toy_probs_open|]. split; [exact Hp|].
  exact (predict_proba_rows_not_probabilities toy_probs_open _ _ _ _ _ Hp).
Defined.

Lemma predict_argmax_or_unknown_witness :
  predict (H := toy_collaborators) toy_fitted 0 ["a"; "b"; "c"]
  = Ok [(-1)%Z; (-1)%Z; (-1)%Z]
  /\ exists n_classes rows,
      predict_proba (H := toy_collaborators) toy_fitted 0 ["a"; "b"; "c"]
      = Ok (Arr2 n_classes rows)
      /\ length [(-1)%Z; (-1)%Z; (-1)%Z] = length rows
      /\ forall i row, rows !! i = Some row ->
           exists v threshold c p,
             toy_fitted !! "certainty_threshold_" = Some v /\ as_number v = Some threshold
             /\ np_argmax Z.ltb row = Ok c /\ row !! c = Some p
             /\ (forall q, q ∈ row -> (q <= p)%Z)
             /\ ((threshold <= inject_Z p)%Q
                 -> [(-1)%Z; (-1)%Z; (-1)%Z] !! i = Some (Z.of_nat c))
             /\ ((inject_Z p < threshold)%Q
                 -> [(-1)%Z; (-1)%Z; (-1)%Z] !! i = Some (-1)%Z).
Proof.
  assert (Hp : predict (H := toy_collaborators) toy_fitted 0 ["a"; "b"; "c"]
               = Ok [(-1)%Z; (-1)%Z; (-1)%Z]) by (vm_compute; reflexivity).
  split; [exact Hp|].
  exact (predict_argmax_or_unknown _ _ _ _ Hp).
Defined.

(** Both branches of [predict] on the example: with the threshold 1/2 every
    text is unknown, with the threshold 0 the arg-max (class 0 of a row of
    zeros) is returned. *)
Example predict_example :
  predict_proba (H := toy_collaborators) toy_fitted 0 ["a"] = Ok (Arr2 2 [[0%Z; 0%Z]])
  /\ predict (H := toy_collaborators) toy_fitted 0 ["a"] = Ok [(-1)%Z]
  /\ predict (H := toy_collaborators)
       (<["certainty_threshold_" := VFloat 0]> toy_trained) 0 ["a"] = Ok [0%Z].
Proof. vm_compute. repeat split. Qed.

(** ** The certainty threshold *)

Section ThresholdFacts.

Lemma Qltb_true (a b : Q) : Qltb a b = true <-> (a < b)%Q.
Proof.
  unfold Qltb. rewrite negb_true_iff. split.
  - intros Hle. apply Qnot_le_lt. intros Hba. apply Qle_bool_iff in Hba. congruence.
  - intros Hlt. destruct (Qle_bool b a) eqn:Hle; [|done].
    apply Qle_bool_iff in Hle. Lqa.lra.
Qed.

Lemma Qltb_false (a b : Q) : Qltb a b = false <-> (b <= a)%Q.
Proof. unfold Qltb. rewrite negb_false_iff. apply Qle_bool_iff. Qed.

(** *** Without unlabeled samples: the minimum *)

Lemma foldl_min_spec (l : list Q) (x : Q) :
  let m := foldl (fun m v => if Qltb v m then v else m) x l in
  m ∈ x :: l /\ forall c, c ∈ x :: l -> (m <= c)%Q.
Proof.
  revert x. induction l as [|v l IH]; intros x; simpl.
  - split; [by left|]. intros c Hc. apply list_elem_of_singleton in Hc as ->. Lqa.lra.
  - destruct (Qltb v x) eqn:Hvx.
    + apply Qltb_true in Hvx. destruct (IH v) as [Hin Hle]. split.
      * right. done.
      * intros c Hc. apply elem_of_cons in Hc as [->|Hc]; [|by apply Hle].
        specialize (Hle v (list_elem_of_here _ _)). Lqa.lra.
    + apply Qltb_false in Hvx. destruct (IH x) as [Hin Hle]. split.
      * apply elem_of_cons in Hin as [->|Hin]; [by left | right; by right].
      * intros c Hc. apply elem_of_cons in Hc as [->|Hc]; [apply Hle; by left|].
        apply elem_of_cons in Hc as [->|Hc]; [|apply Hle; by right].
        specialize (Hle x (list_elem_of_here _ _)). Lqa.lra.
Qed.

Lemma np_min_spec (a : list Q) (t : Q) : np_min a = Ok t -> minimum_of a t.
Proof.
  destruct a as [|x l]; [discriminate|]. simpl. intros [= <-]. apply foldl_min_spec.
Qed.

Lemma np_min_total (a : list Q) : a <> [] -> exists t, np_min a = Ok t.
Proof. destruct a; [done|]. simpl. eauto. Qed.

(** *** With unlabeled samples: the sweep *)

Lemma grid_succ (k : nat) : (grid k + (1 # 1000) == grid (S k))%Q.
Proof.
  unfold grid. rewrite Nat2Z.inj_succ, <- Z.add_1_r, inject_Z_plus.
  change (inject_Z 1) with 1%Q. field.
Qed.

Lemma grid_lt_1 (k : nat) : (grid k < 1)%Q <-> k < 1000.
Proof. unfold grid, Qlt, Qdiv, Qmult, Qinv; simpl. lia. Qed.

Section Sweep.

Variable score : Q -> Q.

(** The score only depends on the value of the threshold. *)
Hypothesis score_proper : forall t t', (t == t')%Q -> score t = score t'.

Lemma threshold_sweep_spec (fuel : nat) :
  forall k threshold best_threshold best_f1,
    sweep_invariant score k threshold best_threshold best_f1 ->
    k <= 1000 -> 1000 - k < fuel ->
    exists t, threshold_sweep fuel score threshold best_threshold best_f1 = Some t
              /\ lowest_maximiser score t.
Proof.
  induction fuel as [|fuel IH]; intros k threshold bt bf Hinv Hk Hfuel; [lia|].
  destruct Hinv as (Hthr & Hbf & kb & Hkb & Hbt & Hmax & Hfirst).
  simpl. destruct (Qltb threshold 1) eqn:Hlt.
  - apply Qltb_true in Hlt. rewrite Hthr in Hlt. apply grid_lt_1 in Hlt.
    assert (Hnext : (threshold + (1 # 1000) == grid (S k))%Q)
      by (rewrite Hthr; apply grid_succ).
    rewrite (score_proper _ _ Hthr).
    destruct (Qltb bf (score (grid k))) eqn:Hbetter.
    + apply Qltb_true in Hbetter.
      apply (IH (S k)); [|lia..].
      split; [done|]. split; [by apply score_proper|].
      exists k. split; [lia|]. split; [done|]. split.
      * intros j Hj. destruct (decide (j = k)) as [->|Hne]; [Lqa.lra|].
        assert (score (grid j) <= bf)%Q by (apply Hmax; lia). Lqa.lra.
      * intros j Hj. assert (score (grid j) <= bf)%Q by (apply Hmax; lia). Lqa.lra.
    + apply Qltb_false in Hbetter.
      apply (IH (S k)); [|lia..].
      split; [done|]. split; [done|].
      exists kb. split; [lia|]. split; [done|]. split; [|done].
      intros j Hj. destruct (decide (j = k)) as [->|Hne]; [done|]. apply Hmax. lia.
  - apply Qltb_false in Hlt. rewrite Hthr in Hlt.
    assert (Hk' : k = 1000).
    { destruct (decide (k < 1000)) as [Hlt'|]; [|lia].
      apply grid_lt_1 in Hlt'. Lqa.lra. }
    subst k. exists bt. split; [done|].
    exists kb. split; [lia|]. split; [done|]. rewrite <- Hbf. split.
    + intros j Hj. apply Hmax. lia.
    + done.
Qed.

End Sweep.

Lemma at_least_proper (probabilities : list Q) (t t' : Q) :
  (t == t')%Q -> at_least probabilities t = at_least probabilities t'.
Proof.
  intros Heq. unfold at_least. apply list_fmap_ext. intros _ p _.
  destruct (Qle_bool t p) eqn:H1, (Qle_bool t' p) eqn:H2; try done.
  - apply Qle_bool_iff in H1. rewrite Heq in H1. apply Qle_bool_iff in H1. congruence.
  - apply Qle_bool_iff in H2. rewrite <- Heq in H2. apply Qle_bool_iff in H2. congruence.
Qed.

Lemma friend_or_foe_f1_proper (labeled another : list Q) (t t' : Q) :
  (t == t')%Q -> friend_or_foe_f1 labeled another t = friend_or_foe_f1 labeled another t'.
Proof. intros Heq. unfold friend_or_foe_f1. by rewrite (at_least_proper _ _ _ Heq). Qed.

Lemma certainty_threshold_unfold (labeled another : list Q) :
  certainty_threshold labeled (Some another)
  = match threshold_sweep 1000 (friend_or_foe_f1 labeled another)
            ((1 # 1000) + (1 # 1000)) (1 # 1000)
            (friend_or_foe_f1 labeled another (1 # 1000)) with
    | Some best_threshold => Ok best_threshold
    | None => Raise (RuntimeError 3)
    end.
Proof. reflexivity. Qed.

(** The sweep of [certainty_threshold] ends at the lowest maximiser. *)
Lemma certainty_threshold_sweep (labeled another : list Q) :
  exists t, certainty_threshold labeled (Some another) = Ok t
            /\ lowest_maximiser (friend_or_foe_f1 labeled another) t.
Proof.
  rewrite certainty_threshold_unfold.
  destruct (threshold_sweep_spec (friend_or_foe_f1 labeled another)
              (friend_or_foe_f1_proper labeled another) 1000 2
              ((1 # 1000) + (1 # 1000))%Q (1 # 1000)%Q
              (friend_or_foe_f1 labeled another (1 # 1000)))
    as (t & -> & Hbest); [|lia|lia|eauto].
  split; [reflexivity|]. split; [done|].
  exists 1. split; [lia|]. split; [reflexivity|].
  assert (Hone : friend_or_foe_f1 labeled another (grid 1)
                 = friend_or_foe_f1 labeled another (1 # 1000)).
  { apply friend_or_foe_f1_proper. reflexivity. }
  split.
  - intros j Hj. assert (j = 1) as -> by lia. rewrite Hone. Lqa.lra.
  - intros j Hj. lia.
Qed.

(** The value assigned to [certainty_threshold_]. *)
Lemma certainty_threshold_spec (labeled : list Q) (another : option (list Q)) (t : Q) :
  certainty_threshold labeled another = Ok t ->
  match another with
  | None => minimum_of labeled t
  | Some another => lowest_maximiser (friend_or_foe_f1 labeled another) t
  end.
Proof.
  destruct another as [another|]; [|apply np_min_spec].
  destruct (certainty_threshold_sweep labeled another) as (t' & -> & Hbest).
  by intros [= <-].
Qed.

(** The sweep always ends with a threshold; the minimum needs a sample. *)
Lemma certainty_threshold_total (labeled : list Q) (another : option (list Q)) :
  (another = None -> labeled <> []) -> exists t, certainty_threshold labeled another = Ok t.
Proof.
  intros Hne. destruct another as [another|].
  - destruct (certainty_threshold_sweep labeled another) as (t & Ht & _). eauto.
  - apply np_min_total. auto.
Qed.

(** [np_max] returns the greatest entry of a row: the top probability. *)
Lemma np_max_spec (row : list Q) (m : Q) :
  np_max row = Ok m -> m ∈ row /\ forall x, x ∈ row -> (x <= m)%Q.
Proof.
  destruct row as [|x l]; [discriminate|]. simpl. intros [= <-].
  revert x. induction l as [|v l IH]; intros x; simpl.
  - split; [by left|]. intros c Hc. apply list_elem_of_singleton in Hc as ->. Lqa.lra.
  - destruct (Qltb x v) eqn:Hxv.
    + apply Qltb_true in Hxv. destruct (IH v) as [Hin Hle]. split; [by right|].
      intros c Hc. apply elem_of_cons in Hc as [->|Hc]; [|by apply Hle].
      specialize (Hle v (list_elem_of_here _ _)). Lqa.lra.
    + apply Qltb_false in Hxv. destruct (IH x) as [Hin Hle]. split.
      * apply elem_of_cons in Hin as [->|Hin]; [by left | right; by right].
      * intros c Hc. apply elem_of_cons in Hc as [->|Hc]; [apply Hle; by left|].
        apply elem_of_cons in Hc as [->|Hc]; [|apply Hle; by right].
        specialize (Hle x (list_elem_of_here _ _)). Lqa.lra.
Qed.

End ThresholdFacts.

Lemma lookup_py_slice {A : Type} (l : list A) (lo hi i : nat) :
  py_slice l lo hi !! i = if decide (i < hi - lo) then l !! (lo + i) else None.
Proof.
  unfold py_slice. case_decide.
  - by rewrite lookup_take_lt, lookup_drop.
  - apply lookup_take_ge. lia.
Qed.

Lemma np_assign_slice_lookup {A : Type} (target target' : list A) (lo hi : nat) values :
  lo <= hi <= length target ->
  np_assign_slice target lo hi values = Ok target' ->
  length target' = length target
  /\ length values = hi - lo
  /\ forall j, target' !! j
               = if decide (lo <= j < hi) then values !! (j - lo) else target !! j.
Proof.
  intros Hrange. unfold np_assign_slice, py_slice. case_decide as Hlen; [|discriminate].
  intros [= <-]. rewrite length_take, length_drop in Hlen.
  assert (Hv : length values = hi - lo) by lia.
  split; [rewrite !length_app, length_take, length_drop; lia|]. split; [done|].
  intros j. case_decide as Hj.
  - rewrite lookup_app_r by (rewrite length_take; lia).
    rewrite length_take, lookup_app_l by lia. f_equal. lia.
  - destruct (decide (j < lo)) as [Hlt|Hge].
    + rewrite lookup_app_l by (rewrite length_take; lia). by rewrite lookup_take_lt.
    + rewrite lookup_app_r by (rewrite length_take; lia).
      rewrite length_take, lookup_app_r by lia.
      rewrite lookup_drop. f_equal. lia.
Qed.

Section FitThreshold.

Context `{Collaborators}.

(** Every batch leaves in its slice of the array the greatest averaged
    class probability of each of its rows, and no later batch touches it. *)
Lemma max_probabilities_slices (self : attrs) (num_monte_carlo : nat)
    (X_tokenized : list ndarray) (bounds : list (nat * nat)) :
  forall run probabilities confidences run',
    separate_batches (length probabilities) bounds ->
    max_probabilities self run num_monte_carlo X_tokenized bounds probabilities
    = Ok (confidences, run') ->
    length confidences = length probabilities
    /\ (forall j, (forall b, b ∈ bounds -> ~ (b.1 <= j < b.2)) ->
                  confidences !! j = probabilities !! j)
    /\ forall b, b ∈ bounds ->
         exists run_b feed_dict mean_probs maxima,
           fill_feed_dict self ((fun channel => np_slice channel b.1 b.2) <$> X_tokenized)
             None = Ok feed_dict
           /\ monte_carlo_mean self run_b num_monte_carlo feed_dict = Ok mean_probs
           /\ mapM np_max mean_probs = Ok maxima
           /\ py_slice confidences b.1 b.2 = maxima.
Proof.
  induction bounds as [|cur rest IH]; intros run probs confs run' Hsep Hmax.
  - simpl in Hmax. inversion Hmax; subst. split; [done|]. split; [done|].
    intros b Hb. by apply elem_of_nil in Hb.
  - simpl in Hsep. destruct Hsep as (Hrange & Hdisj & Hsep).
    simpl in Hmax. inv_bind Hmax as feed_dict Hfeed. inv_bind Hmax as mean_probs Hmean.
    inv_bind Hmax as maxima Hmaxima. inv_bind Hmax as probs1 Hassign.
    destruct (np_assign_slice_lookup _ _ _ _ _ Hrange Hassign) as (Hlen1 & Hvals & Hlook1).
    rewrite <- Hlen1 in Hsep.
    destruct (IH _ _ _ _ Hsep Hmax) as (Hlen & Hout & Hin).
    split; [lia|]. split.
    + intros j Hj. rewrite Hout.
      * rewrite Hlook1. rewrite decide_False; [done|]. apply Hj. by left.
      * intros b Hb. apply Hj. by right.
    + intros b Hb. apply elem_of_cons in Hb as [->|Hb]; [|by apply Hin].
      exists run, feed_dict, mean_probs, maxima. do 3 (split; [done|]).
      apply list_eq. intros i. rewrite lookup_py_slice.
      case_decide as Hi.
      * rewrite Hout.
        -- rewrite Hlook1, decide_True by lia. f_equal. lia.
        -- intros b Hb Hbi. rewrite Forall_forall in Hdisj.
           destruct (Hdisj b Hb) as [Hd|Hd]; lia.
      * symmetry. apply lookup_ge_None_2. lia.
Qed.

Lemma py_getitems_seq {A : Type} (l : list A) (n : nat) (items : list A) :
  py_getitems l (seq 0 n) = Ok items -> items = take n l.
Proof.
  unfold py_getitems. intros Hitems. apply list_eq. intros i.
  pose proof (mapM_Ok_length _ _ _ Hitems) as Hlen. rewrite length_seq in Hlen.
  destruct (decide (i < n)) as [Hlt|Hge].
  - destruct (mapM_Ok_lookup _ _ _ i i Hitems) as (b & Hb & Hli).
    { by apply lookup_seq. }
    rewrite Hb, lookup_take_lt by done.
    destruct (l !! i); [by inversion Hli | discriminate].
  - rewrite lookup_ge_None_2 by lia.
    symmetry. apply lookup_ge_None_2. rewrite length_take. lia.
Qed.

(** [tokenize_all] hands unlabeled rows to [fit] exactly when one of the
    labels of the texts is negative. *)
Lemma tokenize_all_with_labels_unlabeled (self : attrs) (X : list string) (y : list Z)
    X_tokenized y_tokenized X_unlabeled :
  tokenize_all_with_labels self X y = Ok (X_tokenized, y_tokenized, X_unlabeled) ->
  X_unlabeled = None <-> Forall (fun label => (0 <= label)%Z) (take (length X) y).
Proof.
  unfold tokenize_all_with_labels. intros Htok.
  inv_bind Htok as X_tok Hall. inv_bind Htok as labels Hlabels.
  apply py_getitems_seq in Hlabels as Htake.
  destruct (decide (length _ = 0)) as [|_]; [discriminate|].
  inv_bind Htok as y_labeled Hy. inv_bind Htok as y_tok Hstore.
  destruct (decide (length (fst <$> filter (fun il : nat * Z => ~ (0 <= il.2)%Z)
                                      (zip (seq 0 (length X)) labels)) = 0))
    as [Hnone|Hsome].
  - inversion Htok; subst. split; [intros _|done].
    rewrite length_fmap in Hnone. apply nil_length_inv in Hnone.
    apply Forall_forall. intros label Hlabel.
    apply list_elem_of_lookup in Hlabel as [i Hi].
    assert (Hin : (i, label) ∈ zip (seq 0 (length X)) (take (length X) y)).
    { apply list_elem_of_lookup. exists i. apply lookup_zip_with_Some.
      exists i, label. split; [done|]. split; [|done].
      apply lookup_seq. split; [done|]. apply lookup_lt_Some in Hi.
      rewrite length_take in Hi. lia. }
    destruct (decide (0 <= label)%Z) as [|Hneg]; [done|]. exfalso.
    assert (Hfil : (i, label) ∈ filter (fun il : nat * Z => ~ (0 <= il.2)%Z)
                                  (zip (seq 0 (length X)) (take (length X) y))).
    { apply list_elem_of_filter. done. }
    rewrite Hnone in Hfil. by apply elem_of_nil in Hfil.
  - inv_bind Htok as Xu Hu. inv_bind Htok as Xl Hl. inversion Htok; subst.
    split; [discriminate|]. intros Hall'. exfalso. apply Hsome.
    rewrite length_fmap.
    destruct (filter (fun il : nat * Z => ~ (0 <= il.2)%Z) _) as [|[i label] rest] eqn:Hfil;
      [done|]. exfalso.
    assert (Hin : (i, label) ∈ filter (fun il : nat * Z => ~ (0 <= il.2)%Z)
                                 (zip (seq 0 (length X)) (take (length X) y)))
      by (rewrite Hfil; left).
    apply list_elem_of_filter in Hin as [Hneg Hin]. simpl in Hneg.
    apply list_elem_of_lookup in Hin as [j Hj].
    apply lookup_zip_with_Some in Hj as (i' & label' & [= <- <-] & _ & Hlab).
    rewrite Forall_forall in Hall'. apply Hneg, Hall'.
    by eapply list_elem_of_lookup_2.
Qed.

End FitThreshold.


(** On the example every confidence is 24/32: without unlabeled samples the
    threshold is that minimum; with the batch as unlabeled set every
    threshold up to 3/4 has the same F1 and the sweep keeps the first. *)
Example fit_threshold_example :
  (fit_threshold (H := toy_collaborators) toy_trained 0 toy_batch [(0, 2)] None None
     ≫= fun self => getattr self "certainty_threshold_") = Ok (VFloat (24 # 32))
  /\ getattr toy_calibrated "certainty_threshold_" = Ok (VFloat (1 # 1000)).
Proof. vm_compute. split; reflexivity. Qed.

(** ** The temporary directory and the epoch loop *)

Section FilesystemFacts.

Lemma elem_of_listdir (fs : filesystem) (dir_name name : string) :
  name ∈ listdir fs dir_name <-> is_Some (fs !! (dir_name, name)).
Proof.
  unfold listdir. rewrite list_elem_of_fmap. split.
  - intros ([d n] & -> & Hin). apply list_elem_of_filter in Hin as [Hd Hin].
    simpl in *. subst d. by apply elem_of_elements, elem_of_dom in Hin.
  - intros Hsome. exists (dir_name, name). split; [done|].
    apply list_elem_of_filter. split; [done|]. by apply elem_of_elements, elem_of_dom.
Qed.

Lemma NoDup_listdir (fs : filesystem) (dir_name : string) : NoDup (listdir fs dir_name).
Proof.
  unfold listdir. apply NoDup_fmap_2_strong.
  - intros [d1 n1] [d2 n2] H1 H2 Heq. simpl in Heq. subst n2.
    apply list_elem_of_filter in H1 as [H1 _], H2 as [H2 _]. simpl in *. congruence.
  - apply NoDup_filter, NoDup_elements.
Qed.

(** When no file bears the bare model name, [find_all_model_files] lists
    every model file once. *)
Lemma find_all_model_files_spec (fs : filesystem) (model_name : path) :
  fs !! model_name = None ->
  NoDup (find_all_model_files fs model_name)
  /\ forall p, p ∈ find_all_model_files fs model_name
               <-> is_Some (fs !! p) /\ model_file_of model_name p.
Proof.
  intros Hnone. unfold find_all_model_files, isfile.
  rewrite bool_decide_eq_false_2 by (rewrite Hnone; by intros [? ?]).
  simpl app. split.
  - rewrite merge_sort_Permutation. apply NoDup_fmap_2; [by intros ? ? [= ?]|].
    apply NoDup_filter, NoDup_listdir.
  - intros [d n]. rewrite merge_sort_Permutation, list_elem_of_fmap.
    unfold model_file_of. simpl. split.
    + intros (cur & [= -> ->] & Hcur). apply list_elem_of_filter in Hcur as [Hm Hcur].
      apply elem_of_listdir in Hcur. done.
    + intros (Hsome & -> & Hm). exists n. split; [done|].
      apply list_elem_of_filter. split; [done|]. by apply elem_of_listdir.
Qed.

(** Removing distinct existing files succeeds and removes exactly them. *)
Lemma remove_all_spec (names : list path) :
  forall fs : filesystem,
    NoDup names -> (forall p, p ∈ names -> is_Some (fs !! p)) ->
    exists fs', remove_all fs names = (Ok (), fs')
                /\ forall p, fs' !! p = if decide (p ∈ names) then None else fs !! p.
Proof.
  induction names as [|cur rest IH]; intros fs Hnd Hex.
  - exists fs. split; [done|]. intros p. rewrite decide_False; [done|]. apply not_elem_of_nil.
  - apply NoDup_cons in Hnd as [Hnotin Hnd].
    destruct (Hex cur (list_elem_of_here _ _)) as [data Hcur].
    simpl. unfold os_remove. rewrite Hcur.
    destruct (IH (delete cur fs) Hnd) as (fs' & -> & Hfs').
    { intros p Hp. rewrite lookup_delete_ne; [apply Hex; by right|]. by intros ->. }
    exists fs'. split; [done|]. intros p. rewrite Hfs'.
    destruct (decide (p = cur)) as [->|Hne].
    + rewrite decide_False by done. rewrite lookup_delete_eq.
      rewrite decide_True; [done | by left].
    + rewrite lookup_delete_ne by done.
      destruct (decide (p ∈ rest)) as [Hin|Hnin].
      * rewrite decide_True; [done | by right].
      * rewrite decide_False; [done|]. intros Hin. apply elem_of_cons in Hin as [?|?]; done.
Qed.

(** The [finally] clause on a directory without the bare model name. *)
Lemma cleanup_spec (fs : filesystem) (model_name : path) :
  fs !! model_name = None ->
  exists fs', remove_all fs (find_all_model_files fs model_name) = (Ok (), fs')
              /\ (forall p, model_file_of model_name p -> fs' !! p = None)
              /\ (forall p, ~ model_file_of model_name p -> fs' !! p = fs !! p).
Proof.
  intros Hnone. destruct (find_all_model_files_spec fs model_name Hnone) as [Hnd Hin].
  destruct (remove_all_spec _ fs Hnd) as (fs' & Hrm & Hfs').
  { intros p Hp. by apply Hin in Hp as [? _]. }
  exists fs'. split; [done|]. split.
  - intros p Hp. rewrite Hfs'. destruct (decide (p ∈ _)) as [|Hnin]; [done|].
    destruct (fs !! p) eqn:Hp'; [|done]. exfalso. apply Hnin, Hin. eauto.
  - intros p Hp. rewrite Hfs'. rewrite decide_False; [done|].
    intros Hp'. apply Hin in Hp' as [_ ?]. done.
Qed.

(** *** The files of a checkpoint are model files *)

Lemma string_length_app (a b : string) :
  String.length (a +:+ b) = String.length a + String.length b.
Proof. induction a as [|c a IH]; simpl; [done | by rewrite IH]. Qed.

Lemma lower_app (a b : string) : lower (a +:+ b) = lower a +:+ lower b.
Proof. induction a as [|c a IH]; simpl; [done | by rewrite IH]. Qed.

Lemma prefix_app (a b : string) : String.prefix a (a +:+ b) = true.
Proof.
  apply prefix_correct. induction a as [|c a IH]; simpl.
  - by destruct b.
  - by rewrite IH.
Qed.

Lemma index_prefix (s1 s2 : string) :
  String.prefix s1 s2 = true -> String.index 0 s1 s2 = Some 0.
Proof.
  destruct s2 as [|c s2]; cbn [String.index].
  - destruct s1; [done|]. intros Hp. apply prefix_correct in Hp. discriminate.
  - by intros ->.
Qed.

Lemma str_find_prefix (a b : string) : str_find (a +:+ b) a = 0%Z.
Proof. unfold str_find. by rewrite index_prefix by apply prefix_app. Qed.

Lemma checkpoint_file_matches (model_name : path) (sfx : string) :
  model_file_of model_name (model_name.1, model_name.2 +:+ sfx).
Proof.
  split; [done|]. unfold matches_model_name. simpl.
  rewrite lower_app, str_find_prefix. done.
Qed.

End FilesystemFacts.

Section EpochFacts.

Context `{Collaborators}.

Variable run_epoch : nat -> weights -> result (weights * Q).
Variable tmp_model_name : path.

(** One successful turn of the loop, step by step. *)
Lemma epoch_loop_cons_Ok (patience : Z) (epoch : nat) (rest : list nat)
    (st st' : loop_state) (exit : loop_exit) :
  epoch_loop run_epoch tmp_model_name patience (epoch :: rest) st = (Ok exit, st') ->
  exists w w' acc st1,
    ls_self st !! "sess_" = Some (VSession (Some w))
    /\ run_epoch epoch w = Ok (w', acc)
    /\ select_model tmp_model_name (after_epoch st w') acc = (Ok (), st1)
    /\ (((patience <= Z.of_nat (ls_n_epochs_without_improving st1))%Z
         /\ exit = EarlyStopping /\ st' = st1)
        \/ (~ (patience <= Z.of_nat (ls_n_epochs_without_improving st1))%Z
            /\ exists st2, restore_best tmp_model_name st1 = Ok st2
                           /\ epoch_loop run_epoch tmp_model_name patience rest st2
                              = (Ok exit, st'))).
Proof.
  simpl. unfold getattr.
  destruct (ls_self st !! "sess_") as [[| | | | | | | |[w|]| | |]|] eqn:Hsess;
    try (intros [=]; fail).
  destruct (run_epoch epoch w) as [[w' acc]|e] eqn:Hrun; [|intros [=]].
  fold (after_epoch st w').
  destruct (select_model tmp_model_name (after_epoch st w') acc) as [[[]|e] st1] eqn:Hsel;
    [|intros [=]].
  intros Hloop. exists w, w', acc, st1. do 3 (split; [done|]).
  destruct (decide (patience ≤ _)%Z) as [Hstop|Hgo].
  - left. inversion Hloop; subst. done.
  - right. split; [done|].
    destruct (restore_best tmp_model_name st1) as [st2|e] eqn:Hres; [|discriminate].
    eauto.
Qed.

Lemma select_model_Ok (st st1 : loop_state) (acc : Q) :
  select_model tmp_model_name st acc = (Ok (), st1) ->
  ls_self st1 = ls_self st
  /\ ((ls_best_acc st1 = Some acc /\ ls_n_epochs_without_improving st1 = 0
       /\ save_model (ls_self st) tmp_model_name (ls_fs st) = (Ok (), ls_fs st1))
      \/ (exists best_acc, ls_best_acc st = Some best_acc /\ (acc <= best_acc)%Q
                           /\ ls_best_acc st1 = Some best_acc
                           /\ ls_n_epochs_without_improving st1
                              = S (ls_n_epochs_without_improving st)
                           /\ ls_fs st1 = ls_fs st)).
Proof.
  unfold select_model.
  destruct (ls_best_acc st) as [best_acc|] eqn:Hbest.
  - destruct (Qltb best_acc acc) eqn:Hlt.
    + destruct (save_model _ _ _) as [[[]|e] fs] eqn:Hsave; intros [= <-]; simpl. auto.
    + intros [= <-]. simpl. split; [done|]. right. exists best_acc.
      apply Qltb_false in Hlt. done.
  - destruct (save_model _ _ _) as [[[]|e] fs] eqn:Hsave; intros [= <-]; simpl. auto.
Qed.

Lemma load_model_Ok (self self' : attrs) (fs : filesystem) :
  load_model self tmp_model_name fs = Ok self' ->
  exists sfx w, head saver_suffixes = Some sfx
                /\ fs !! (tmp_model_name.1, tmp_model_name.2 +:+ sfx) = Some w
                /\ self' !! "sess_" = Some (VSession (Some w)).
Proof.
  unfold load_model. intros Hload. inv_bind Hload as sess Hsess.
  destruct sess; try discriminate.
  destruct saver_suffixes as [|sfx rest]; [discriminate|].
  destruct (forallb _ _); [|discriminate].
  destruct (fs !! _) as [w|] eqn:Hw; [|discriminate].
  inversion Hload; subst. exists sfx, w. split; [done|]. split; [done|].
  apply lookup_insert_eq.
Qed.

Lemma restore_best_Ok (st st2 : loop_state) :
  restore_best tmp_model_name st = Ok st2 -> ls_best_acc st <> None ->
  holds_checkpoint tmp_model_name st2 /\ ls_fs st2 = ls_fs st /\ ls_best_acc st2 = ls_best_acc st.
Proof.
  unfold restore_best. destruct (ls_best_acc st) as [best|] eqn:Hbest; [|done].
  intros Hres _. inv_bind Hres as self1 Hbuild. inv_bind Hres as self2 Hload.
  inversion Hres; subst; simpl. split; [|done].
  apply load_model_Ok in Hload as (sfx & w & ? & ? & ?). exists sfx, w. done.
Qed.

(** When the epochs run out, the last thing the loop did was to reload the
    best checkpoint. *)
Lemma epoch_loop_exhausted_restored (patience : Z) (epochs : list nat) :
  forall st st',
    epochs <> [] ->
    epoch_loop run_epoch tmp_model_name patience epochs st = (Ok Exhausted, st') ->
    holds_checkpoint tmp_model_name st'.
Proof.
  induction epochs as [|epoch rest IH]; intros st st' Hne Hloop; [done|].
  apply epoch_loop_cons_Ok in Hloop
    as (w & w' & acc & st1 & Hsess & Hrun & Hsel & [(_ & [=] & _)|(Hgo & st2 & Hres & Hrest)]).
  apply select_model_Ok in Hsel as [_ Hsel].
  assert (Hbest : ls_best_acc st1 <> None).
  { destruct Hsel as [(-> & _)|(b & _ & _ & -> & _)]; done. }
  destruct (restore_best_Ok _ _ Hres Hbest) as (Hholds & _ & _).
  destruct rest as [|epoch' rest'].
  - simpl in Hrest. inversion Hrest; subst. done.
  - by eapply IH.
Qed.

(** The loop as written, whatever the epochs do: on early stopping the
    session is left with the variables of the last epoch, whose quality was
    not above the best one; nothing is reloaded. *)
Lemma epoch_loop_early_stopping_raw (patience : Z) (epochs : list nat) :
  forall st st',
    (0 < patience)%Z ->
    epoch_loop run_epoch tmp_model_name patience epochs st = (Ok EarlyStopping, st') ->
    exists epoch w w' acc best_acc,
      run_epoch epoch w = Ok (w', acc)
      /\ ls_self st' !! "sess_" = Some (VSession (Some w'))
      /\ ls_best_acc st' = Some best_acc /\ (acc <= best_acc)%Q.
Proof.
  induction epochs as [|epoch rest IH]; intros st st' Hp Hloop; [discriminate|].
  apply epoch_loop_cons_Ok in Hloop
    as (w & w' & acc & st1 & Hsess & Hrun & Hsel & [(Hstop & _ & ->)|(Hgo & st2 & Hres & Hrest)]).
  - apply select_model_Ok in Hsel as [Hself Hsel].
    destruct Hsel as [(_ & Hn & _)|(best & Hb & Hle & Hb1 & Hn & _)]; [lia|].
    exists epoch, w, w', acc, best. split; [done|]. split; [|done].
    rewrite Hself. simpl. apply lookup_insert_eq.
  - by eapply IH.
Qed.

(** *** The files of the loop *)

Lemma write_suffixes_bare_name (suffixes : list string) (w : weights) (fs : filesystem) :
  Forall (fun sfx => sfx <> "") suffixes -> fs !! tmp_model_name = None ->
  foldr (fun sfx fs' => <[(tmp_model_name.1, tmp_model_name.2 +:+ sfx) := w]> fs') fs suffixes
  !! tmp_model_name = None.
Proof.
  intros Hall Hnone. induction Hall as [|sfx rest Hsfx _ IH]; [done|].
  simpl. rewrite lookup_insert_ne; [exact IH|].
  destruct tmp_model_name as [d b]. simpl. intros [= Heq].
  apply Hsfx. destruct sfx; [done|]. exfalso.
  apply (f_equal String.length) in Heq. rewrite string_length_app in Heq.
  simpl in Heq. lia.
Qed.

Section Cleanup.

(** The saver writes next to the model name, never onto it. *)
Hypothesis suffixes_not_empty : Forall (fun sfx => sfx <> "") saver_suffixes.

Lemma save_model_bare_name (self : attrs) (fs fs' : filesystem) (r : result unit) :
  fs !! tmp_model_name = None ->
  save_model self tmp_model_name fs = (r, fs') -> fs' !! tmp_model_name = None.
Proof.
  intros Hnone. unfold save_model.
  destruct (getattr self "sess_") as [[| | | | | | | |[w|]| | |]|e];
    try (intros [= _ <-]; done).
  intros [= _ <-]. by apply write_suffixes_bare_name.
Qed.

Lemma select_model_bare_name (st st1 : loop_state) (acc : Q) (r : result unit) :
  ls_fs st !! tmp_model_name = None ->
  select_model tmp_model_name st acc = (r, st1) -> ls_fs st1 !! tmp_model_name = None.
Proof.
  intros Hnone. unfold select_model.
  destruct (match ls_best_acc st with Some best_acc => Qltb best_acc acc | None => true end).
  - destruct (save_model _ _ _) as [[[]|e] fs] eqn:Hsave; intros [= _ <-]; simpl;
      by eapply save_model_bare_name.
  - by intros [= _ <-].
Qed.

Lemma restore_best_fs (st st2 : loop_state) :
  restore_best tmp_model_name st = Ok st2 -> ls_fs st2 = ls_fs st.
Proof.
  unfold restore_best. destruct (ls_best_acc st); [|by intros [= <-]].
  intros Hres. inv_bind Hres as self1 Hbuild. inv_bind Hres as self2 Hload.
  by inversion Hres.
Qed.

(** However the loop ends, no file bears the bare model name. *)
Lemma epoch_loop_bare_name (patience : Z) (epochs : list nat) :
  forall st st' outcome,
    ls_fs st !! tmp_model_name = None ->
    epoch_loop run_epoch tmp_model_name patience epochs st = (outcome, st') ->
    ls_fs st' !! tmp_model_name = None.
Proof.
  induction epochs as [|epoch rest IH]; intros st st' outcome Hnone; simpl.
  - by intros [= _ <-].
  - destruct (getattr (ls_self st) "sess_") as [[| | | | | | | |[w|]| | |]|e];
      try (intros [= _ <-]; done).
    destruct (run_epoch epoch w) as [[w' acc]|e]; [|by intros [= _ <-]].
    destruct (select_model _ _ _) as [r st1] eqn:Hsel.
    apply select_model_bare_name in Hsel; [|done].
    destruct r as [[]|e]; [|by intros [= _ <-]].
    destruct (decide _); [by intros [= _ <-]|].
    destruct (restore_best tmp_model_name st1) as [st2|e] eqn:Hres;
      [|by intros [= _ <-]].
    apply restore_best_fs in Hres. apply IH. by rewrite Hres.
Qed.

Lemma fit_try_bare_name (self : attrs) (fs : filesystem) outcome st :
  fs !! tmp_model_name = None ->
  fit_try run_epoch tmp_model_name self fs = (outcome, st) ->
  ls_fs st !! tmp_model_name = None.
Proof.
  intros Hnone. unfold fit_try.
  destruct (getattr self "max_epochs") as [max_epochs|e];
    destruct (getattr self "patience") as [patience|e'];
    try (intros [= _ <-]; done).
  destruct (as_int max_epochs) as [e|]; destruct (as_int patience) as [p|];
    try (intros [= _ <-]; done).
  by apply epoch_loop_bare_name.
Qed.

(** C8. Whatever the epochs do, and however the loop is left (the
    epochs run out, early stopping, an exception), once the [finally]
    clause has run no file of the temporary model name is left: every
    file whose name contains its base name is gone, the files of the
    saver among them, and the outcome of the loop is passed on. *)
Theorem fit_epochs_removes_checkpoints (self : attrs) (fs : filesystem)
    (outcome : result loop_exit) (st : loop_state) :
  fs !! tmp_model_name = None ->
  fit_epochs run_epoch tmp_model_name self fs = (outcome, st) ->
  (forall p, model_file_of tmp_model_name p -> ls_fs st !! p = None)
  /\ (forall sfx, sfx ∈ saver_suffixes ->
                  ls_fs st !! (tmp_model_name.1, tmp_model_name.2 +:+ sfx) = None)
  /\ outcome = (fit_try run_epoch tmp_model_name self fs).1.
Proof.
  intros Hnone. unfold fit_epochs.
  destruct (fit_try run_epoch tmp_model_name self fs) as [outcome0 st0] eqn:Htry.
  apply fit_try_bare_name in Htry; [|done].
  destruct (cleanup_spec _ _ Htry) as (fs' & -> & Hgone & _).
  intros [= <- <-]. simpl. split; [done|]. split; [|done].
  intros sfx _. apply Hgone, checkpoint_file_matches.
Qed.

End Cleanup.

End EpochFacts.

(** *** The epochs of the example *)

(** With three epochs to train for, the example saves the weights [10] of
    its first epoch, reloads them, and raises in the second epoch: the
    checkpoint is still on disk when the exception leaves the loop. *)
Example fit_try_second_epoch_example :
  let r := fit_try (H := toy_collaborators) toy_run_epoch toy_tmp_model_name toy_trained ∅ in
  r.1 = Raise (RuntimeError 4)
  /\ ls_best_acc r.2 = Some (1 # 2)%Q
  /\ ls_n_epochs_without_improving r.2 = 0
  /\ ls_fs r.2 !! ("/tmp", "tmpk3x9bert_cls.ckpt.index") = Some [10%Z]
  /\ ls_self r.2 !! "sess_" = Some (VSession (Some [10%Z])).
Proof. vm_compute. repeat split. Qed.

(** With a single epoch the loop ends after the reload, and the threshold
    is computed on the weights of the checkpoint. *)
Example fit_from_epochs_example :
  let fitted :=
    (fit_from_epochs (H := toy_collaborators) toy_run_epoch toy_tmp_model_name
       toy_single_epoch ∅ 0 toy_batch [(0, 2)] None None).1 in
  let on_checkpoint :=
    fit_threshold (H := toy_collaborators)
      (<["sess_" := VSession (Some [10%Z])]> toy_single_epoch) 0 toy_batch [(0, 2)] None
      None in
  (fitted ≫= fun self => getattr self "sess_") = Ok (VSession (Some [10%Z]))
  /\ (fitted ≫= fun self => getattr self "certainty_threshold_") = Ok (VFloat (24 # 32))
  /\ (on_checkpoint ≫= fun self => getattr self "certainty_threshold_")
     = Ok (VFloat (24 # 32)).
Proof. vm_compute. repeat split. Qed.

(** The example: its loop is left by the exception of the second epoch,
    with a checkpoint on disk. *)
Lemma fit_epochs_removes_checkpoints_witness :
  Forall (fun sfx => sfx <> "") (saver_suffixes (Collaborators := toy_collaborators))
  /\ (∅ : filesystem) !! toy_tmp_model_name = None
  /\ let r := fit_epochs (H := toy_collaborators) toy_run_epoch toy_tmp_model_name
                toy_trained ∅ in
     (forall p, model_file_of toy_tmp_model_name p -> ls_fs r.2 !! p = None)
     /\ (forall sfx, sfx ∈ saver_suffixes (Collaborators := toy_collaborators) ->
                     ls_fs r.2 !! (toy_tmp_model_name.1, toy_tmp_model_name.2 +:+ sfx) = None)
     /\ r.1 = (fit_try (H := toy_collaborators) toy_run_epoch toy_tmp_model_name
                 toy_trained ∅).1.
Proof.
  assert (Hsfx : Forall (fun sfx => sfx <> "")
                   (saver_suffixes (Collaborators := toy_collaborators)))
    by (repeat constructor; discriminate).
  assert (Hnone : (∅ : filesystem) !! toy_tmp_model_name = None) by apply lookup_empty.
  split; [exact Hsfx|]. split; [exact Hnone|].
  exact (fit_epochs_removes_checkpoints toy_run_epoch toy_tmp_model_name Hsfx toy_trained ∅
           _ _ Hnone (surjective_pairing _)).
Defined.

(** The loop of the example wrote two files; the directory is empty after. *)
Example fit_epochs_example :
  elements (dom (ls_fs (fit_try (H := toy_collaborators) toy_run_epoch toy_tmp_model_name
                          toy_trained ∅).2))
  = [("/tmp", "tmpk3x9bert_cls.ckpt.index");
     ("/tmp", "tmpk3x9bert_cls.ckpt.data-00000-of-00001")]
  /\ elements (dom (ls_fs (fit_epochs (H := toy_collaborators) toy_run_epoch
                             toy_tmp_model_name toy_trained ∅).2)) = [].
Proof. vm_compute. split; reflexivity. Qed.

(** Were a file to bear the bare model name, [find_all_model_files] would
    list it twice and the second [os.remove] would raise, leaving the files
    after it; the saver never writes such a file. *)
Example cleanup_bare_name_example :
  let fs : filesystem :=
    <[("/tmp", "m.ckpt") := [1%Z]]> (<[("/tmp", "m.ckpt.index") := [1%Z]]> ∅) in
  find_all_model_files fs ("/tmp", "m.ckpt")
  = [("/tmp", "m.ckpt"); ("/tmp", "m.ckpt"); ("/tmp", "m.ckpt.index")]
  /\ (remove_all fs (find_all_model_files fs ("/tmp", "m.ckpt"))).1
     = Raise (FileNotFoundError ("/tmp", "m.ckpt"))
  /\ (remove_all fs (find_all_model_files fs ("/tmp", "m.ckpt"))).2
       !! ("/tmp", "m.ckpt.index") = Some [1%Z].
Proof. vm_compute. repeat split. Qed.

(** ** Pickling *)

Section PicklingFacts.

Context `{Collaborators}.

Lemma get_params_names (self : attrs) (names : list string) (k : string) :
  forall acc params : attrs,
    dict_display self names acc = Ok params -> k ∉ names -> params !! k = acc !! k.
Proof.
  induction names as [|name names IH]; intros acc params; simpl.
  - by intros [= <-] _.
  - intros Hget Hk. inv_bind Hget as v Hv.
    apply not_elem_of_cons in Hk as [Hne Hk].
    rewrite (IH _ _ Hget Hk). by rewrite lookup_insert_ne.
Qed.

Lemma get_params_no_threshold (self params : attrs) :
  get_params self = Ok params -> params !! "certainty_threshold_" = None.
Proof.
  intros Hget. rewrite (get_params_names self param_names _ ∅ params Hget).
  - apply lookup_empty.
  - unfold param_names. rewrite !elem_of_cons, elem_of_nil.
    intros Hin. repeat (destruct Hin as [Hin|Hin]; [discriminate Hin|]). done.
Qed.

Lemma read_model_files_no_threshold (fs : filesystem) (names : list path) :
  forall params params',
    read_model_files fs names params = Ok params' ->
    params' !! "certainty_threshold_" = params !! "certainty_threshold_".
Proof.
  induction names as [|cur rest IH]; intros params params'; simpl.
  - by intros [= <-].
  - destruct (fs !! cur) as [data|]; [|discriminate].
    intros Hread. apply IH in Hread. rewrite Hread. by rewrite lookup_insert_ne.
Qed.

(** The pickled state has no entry for the threshold. *)
Lemma dump_all_no_threshold (self params : attrs) (fs fs' : filesystem) (name : path) :
  dump_all self fs name = (Ok params, fs') -> params !! "certainty_threshold_" = None.
Proof.
  unfold dump_all. destruct (get_params self) as [params0|e] eqn:Hget; [|intros [=]].
  apply get_params_no_threshold in Hget.
  destruct (is_ok (is_fitted self)); [|by intros [= <- _]].
  destruct (getattr self "n_classes_") as [n_classes|e]; [|intros [=]].
  destruct (getattr self "tokenizer_") as [tokenizer|e]; [|intros [=]].
  destruct (save_model self name fs) as [saved fs1].
  destruct (remove_all fs1 _) as [[[]|e] fs2]; [|intros [=]].
  destruct saved as [[]|e]; [|intros [=]].
  intros [= Hread _]. apply read_model_files_no_threshold in Hread.
  rewrite Hread. by rewrite !lookup_insert_ne.
Qed.

Lemma build_model_no_threshold (self self' : attrs) :
  build_model self = Ok self' ->
  self' !! "certainty_threshold_" = self !! "certainty_threshold_".
Proof.
  unfold build_model. intros Hbuild. inv_bind Hbuild as frac Hfrac.
  inv_bind Hbuild as batch_size Hb. destruct (as_int batch_size) as [b|]; [|discriminate].
  destruct (decide (b < 0)%Z); [discriminate|].
  inv_bind Hbuild as handle Hh. destruct handle; try discriminate.
  inv_bind Hbuild as verbose Hv. inv_bind Hbuild as sizes Hs.
  destruct sizes; try discriminate.
  inv_bind Hbuild as seed Hseed. inv_bind Hbuild as n_classes Hn.
  destruct (as_int n_classes) as [c|]; [|discriminate].
  destruct (decide (c < 0)%Z); [discriminate|].
  inversion Hbuild; subst. by rewrite !lookup_insert_ne.
Qed.

Lemma load_model_no_threshold (self self' : attrs) (name : path) (fs : filesystem) :
  load_model self name fs = Ok self' ->
  self' !! "certainty_threshold_" = self !! "certainty_threshold_".
Proof.
  unfold load_model. intros Hload. inv_bind Hload as sess Hsess.
  destruct sess; try discriminate.
  destruct saver_suffixes as [|sfx rest]; [discriminate|].
  destruct (forallb _ _); [|discriminate].
  destruct (fs !! _) as [w|]; [|discriminate].
  inversion Hload; subst. by rewrite lookup_insert_ne.
Qed.

Lemma finalize_model_no_threshold (self : attrs) :
  self !! "certainty_threshold_" = None ->
  finalize_model self !! "certainty_threshold_" = None.
Proof. intros Hnone. unfold finalize_model. simpl. by rewrite !lookup_delete_ne. Qed.

(** [load_all] sets no threshold: an instance without one stays without. *)
Lemma load_all_no_threshold (self new_params self' : attrs) (fs fs' : filesystem)
    (tmp_dir_name : string) (now : Z) :
  self !! "certainty_threshold_" = None ->
  new_params !! "certainty_threshold_" = None ->
  load_all self new_params fs tmp_dir_name now = (Ok self', fs') ->
  self' !! "certainty_threshold_" = None.
Proof.
  intros Hself Hnew. unfold load_all.
  destruct (check_params new_params) as [[]|e]; [|intros [=]].
  assert (Hfin : finalize_model (delete "tokenizer_" self) !! "certainty_threshold_" = None).
  { apply finalize_model_no_threshold. by rewrite lookup_delete_ne. }
  assert (Hset : set_params (finalize_model (delete "tokenizer_" self)) new_params
                 !! "certainty_threshold_" = None).
  { unfold set_params. apply lookup_union_None. done. }
  destruct (_ && _).
  - destruct (filter _ _) as [|cur rest]; [|intros [=]].
    destruct (getattr new_params "n_classes_") as [n_classes|e]; [|intros [=]].
    destruct (getattr new_params "tokenizer_") as [tokenizer|e]; [|intros [=]].
    destruct (getattr new_params "model_name_") as [model_name|e]; [|intros [=]].
    destruct (getattr _ "random_seed") as [random_seed|e]; [|intros [=]].
    destruct (write_model_files _ _ _ _) as [written fs1].
    intros [= Hout _].
    destruct written as [[]|e]; [|discriminate].
    assert (Hpre : forall s : attrs,
               s = set_params (finalize_model (delete "tokenizer_" self)) new_params ->
               match random_seed with
               | VNone => <["random_seed" := VInt now]>
                            (<["tokenizer_" := tokenizer]> (<["n_classes_" := n_classes]> s))
               | _ => <["tokenizer_" := tokenizer]> (<["n_classes_" := n_classes]> s)
               end !! "certainty_threshold_" = None).
    { intros s ->. destruct random_seed; by rewrite !lookup_insert_ne. }
    specialize (Hpre _ eq_refl).
    destruct model_name; try (inv_bind Hout as s1 Hb; discriminate).
    inv_bind Hout as self1 Hbuild.
    apply build_model_no_threshold in Hbuild. apply load_model_no_threshold in Hout.
    rewrite Hout, Hbuild. exact Hpre.
  - by intros [= <- _].
Qed.

(** Without the threshold the instance does not count as fitted. *)
Lemma is_fitted_needs_threshold (self : attrs) :
  self !! "certainty_threshold_" = None -> is_fitted self = Raise NotFittedError.
Proof.
  intros Hnone. unfold is_fitted.
  destruct (forallb (hasattr self) fitted_attributes) eqn:Hall; [|done].
  rewrite forallb_forall in Hall.
  assert (Hin : In "certainty_threshold_" fitted_attributes).
  { unfold fitted_attributes. simpl. tauto. }
  apply Hall in Hin. unfold hasattr in Hin. rewrite Hnone in Hin.
  apply bool_decide_eq_true in Hin. by destruct Hin.
Qed.

Lemma predict_needs_threshold (self : attrs) (run : nat) (X : list string) :
  self !! "certainty_threshold_" = None -> exists e, predict self run X = Raise e.
Proof.
  intros Hnone. unfold predict, predict_proba.
  destruct (get_params self) as [kwargs|e]; [|simpl; eauto]. cbn [mbind result_bind].
  destruct (check_params kwargs) as [[]|e]; [|simpl; eauto]. cbn [mbind result_bind].
  unfold check_X. cbn [mbind result_bind].
  rewrite is_fitted_needs_threshold by done. simpl. eauto.
Qed.

(** C2 (the code departs from the claim). Whatever the fitted instance,
    the instance restored by [__setstate__] from the state [__getstate__]
    produced has no [certainty_threshold_]: it is reported as not fitted
    and [predict] raises instead of returning the class ids. *)
Theorem pickle_roundtrip_loses_threshold (self params self' : attrs)
    (fs fs' fs'' : filesystem) (model_file_name : path) (tmp_dir_name : string) (now : Z) :
  dump_all self fs model_file_name = (Ok params, fs') ->
  load_all ∅ params fs' tmp_dir_name now = (Ok self', fs'') ->
  self' !! "certainty_threshold_" = None
  /\ is_fitted self' = Raise NotFittedError
  /\ forall run X, exists e, predict self' run X = Raise e.
Proof.
  intros Hdump Hload.
  assert (Hnone : self' !! "certainty_threshold_" = None).
  { eapply load_all_no_threshold; [| |exact Hload].
    - apply lookup_empty.
    - by eapply dump_all_no_threshold. }
  split; [done|]. split; [by apply is_fitted_needs_threshold|].
  intros run X. by apply predict_needs_threshold.
Qed.

End PicklingFacts.


(** The fitted example, pickled and restored. *)
Lemma pickle_roundtrip_loses_threshold_witness :
  dump_all (H := toy_collaborators) toy_fitted ∅ toy_tmp_model_name
  = (Ok toy_state, toy_pickled.2)
  /\ load_all (H := toy_collaborators) ∅ toy_state toy_pickled.2 "/tmp" 0
     = (Ok toy_restored, toy_unpickled.2)
  /\ toy_restored !! "certainty_threshold_" = None
  /\ is_fitted toy_restored = Raise NotFittedError
  /\ forall run X, exists e, predict (H := toy_collaborators) toy_restored run X = Raise e.
Proof.
  assert (Hdump : dump_all (H := toy_collaborators) toy_fitted ∅ toy_tmp_model_name
                  = (Ok toy_state, toy_pickled.2)).
  { unfold toy_state. apply (result_pair_eta toy_pickled). vm_compute. reflexivity. }
  assert (Hload : load_all (H := toy_collaborators) ∅ toy_state toy_pickled.2 "/tmp" 0
                  = (Ok toy_restored, toy_unpickled.2)).
  { unfold toy_restored. apply (result_pair_eta toy_unpickled). vm_compute. reflexivity. }
  split; [exact Hdump|]. split; [exact Hload|].
  exact (pickle_roundtrip_loses_threshold _ _ _ _ _ _ _ _ _ Hdump Hload).
Defined.

(** The original predicts; the restored instance raises [NotFittedError]. *)
Example pickle_roundtrip_example :
  predict (H := toy_collaborators) toy_fitted 0 ["a"; "b"] = Ok [(-1)%Z; (-1)%Z]
  /\ predict (H := toy_collaborators) toy_restored 0 ["a"; "b"] = Raise NotFittedError.
Proof. vm_compute. split; reflexivity. Qed.

(** ** The training loss *)

Section LossFacts.

Variable layer_kl : nat -> Z -> R.

Lemma fold_left_Rplus (l : list R) (a : R) :
  fold_left Rplus l a = (a + fold_right Rplus 0 l)%R.
Proof.
  revert a. induction l as [|x l IH]; intros a; simpl; [Lra.lra|].
  rewrite IH. Lra.lra.
Qed.

Lemma py_sum_fold_right (l : list R) : py_sum l = fold_right Rplus 0%R l.
Proof. unfold py_sum. rewrite fold_left_Rplus. Lra.lra. Qed.

Lemma sum_exp_pos (row : list R) : row <> [] -> (0 < fold_right Rplus 0 (map exp row))%R.
Proof.
  destruct row as [|x row]; [done|]. intros _. simpl.
  assert (Hnn : (0 <= fold_right Rplus 0 (map exp row))%R).
  { induction row as [|y row IH]; simpl; [Lra.lra|].
    pose proof (exp_pos y). Lra.lra. }
  pose proof (exp_pos x). Lra.lra.
Qed.

(** The log-probability the distribution object returns is the logarithm
    of the softmax probability. *)
Lemma categorical_log_prob_softmax (row : list R) (label : nat) :
  row <> [] -> categorical_log_prob row label = ln (softmax_prob row label).
Proof.
  intros Hne. unfold categorical_log_prob, softmax_prob.
  rewrite py_sum_fold_right. pose proof (sum_exp_pos row Hne) as Hpos.
  unfold Rdiv. rewrite ln_mult; [|apply exp_pos | by apply Rinv_0_lt_compat].
  rewrite ln_exp, ln_Rinv by done. Lra.lra.
Qed.

Lemma log_prob_softmax (logits : list (list R)) (y_ph : list nat) :
  Forall (fun row => row <> []) logits ->
  log_prob logits y_ph
  = zip_with (fun row label => ln (softmax_prob row label)) logits y_ph.
Proof.
  intros Hall. revert y_ph. unfold log_prob.
  induction Hall as [|row logits Hrow _ IH]; intros y_ph; [done|].
  destruct y_ph as [|label y_ph]; [done|]. simpl.
  rewrite categorical_log_prob_softmax by done. by rewrite IH.
Qed.

Lemma neg_log_likelihood_cross_entropy (logits : list (list R)) (y_ph : list nat) :
  Forall (fun row => row <> []) logits ->
  (- reduce_mean (log_prob logits y_ph))%R = spec_cross_entropy logits y_ph.
Proof.
  intros Hall. unfold reduce_mean, spec_cross_entropy.
  rewrite py_sum_fold_right, log_prob_softmax by done.
  rewrite length_zip_with, length_zip. reflexivity.
Qed.

(** C9. The loss handed to the optimizer is the negative mean
    log-likelihood of the labels of the batch under the categorical
    distribution of the logits, plus the sum of the divergences of the
    layers (one per hidden layer and one for the output layer): it exceeds
    the plain cross-entropy by exactly that sum. *)
Theorem elbo_loss_is_elbo (hidden_layer_sizes : list Z) (n_classes : Z)
    (logits : list (list R)) (y_ph : list nat) :
  Forall (fun row => row <> []) logits ->
  elbo_loss layer_kl hidden_layer_sizes n_classes logits y_ph
  = spec_elbo layer_kl hidden_layer_sizes n_classes logits y_ph
  /\ (elbo_loss layer_kl hidden_layer_sizes n_classes logits y_ph
      - spec_cross_entropy logits y_ph)%R
     = spec_kl_sum layer_kl hidden_layer_sizes n_classes
  /\ length (model_losses layer_kl hidden_layer_sizes n_classes)
     = S (length hidden_layer_sizes).
Proof.
  intros Hall. unfold elbo_loss, spec_elbo. cbn zeta.
  rewrite neg_log_likelihood_cross_entropy by done.
  unfold model_losses, spec_kl_sum. rewrite py_sum_fold_right.
  split; [reflexivity|]. split; [Lra.lra|].
  unfold flipout_layers. rewrite length_fmap, length_imap, length_app. simpl. lia.
Qed.

End LossFacts.

(** Two classes with equal logits, one hidden layer, every divergence 1. *)
Lemma elbo_loss_is_elbo_witness :
  Forall (fun row => row <> []) [[0%R; 0%R]]
  /\ elbo_loss (fun _ _ => 1%R) [100%Z] 2 [[0%R; 0%R]] [0%nat]
     = spec_elbo (fun _ _ => 1%R) [100%Z] 2 [[0%R; 0%R]] [0%nat]
  /\ (elbo_loss (fun _ _ => 1%R) [100%Z] 2 [[0%R; 0%R]] [0%nat]
      - spec_cross_entropy [[0%R; 0%R]] [0%nat])%R
     = spec_kl_sum (fun _ _ => 1%R) [100%Z] 2
  /\ length (model_losses (fun _ _ => 1%R) [100%Z] 2) = S (length [100%Z]).
Proof.
  assert (Hrows : Forall (fun row : list R => row <> []) [[0%R; 0%R]])
    by (repeat constructor; discriminate).
  split; [exact Hrows|].
  exact (elbo_loss_is_elbo (fun _ _ => 1%R) [100%Z] 2 [[0%R; 0%R]] [0%nat] Hrows).
Defined.


(** * The parameters of an instance *)

(** Solves [name ∈ param_names] for a literal name. *)
Ltac param_name := unfold param_names; repeat first [apply list_elem_of_here | apply list_elem_of_further].

Section ParamsFacts.

Lemma dict_display_Ok (self : attrs) (names : list string) :
  Forall (fun name => is_Some (self !! name)) names ->
  forall acc : attrs,
    exists params : attrs,
      dict_display self names acc = Ok params
      /\ forall k, params !! k = if decide (k ∈ names) then self !! k else acc !! k.
Proof.
  induction 1 as [|name names [v Hv] _ IH]; intros acc.
  - exists acc. split; [done|]. intros k. rewrite decide_False; [done | apply not_elem_of_nil].
  - destruct (IH (<[name := v]> acc)) as (params & Hdisplay & Hlookup).
    exists params. split.
    + cbn [dict_display]. unfold getattr. rewrite Hv. exact Hdisplay.
    + intros k. rewrite Hlookup.
      destruct (decide (k = name)) as [->|Hne].
      * rewrite (decide_True (P := name ∈ name :: names)) by apply list_elem_of_here.
        case_decide; [done|]. by rewrite lookup_insert_eq.
      * rewrite lookup_insert_ne by done.
        destruct (decide (k ∈ names)) as [Hin|Hout].
        -- rewrite decide_True; [done | by apply list_elem_of_further].
        -- rewrite decide_False; [done|]. by apply not_elem_of_cons.
Qed.

(** The display raises for the first attribute that is missing. *)
Lemma dict_display_Raise (self : attrs) (before : list string) (name : string)
    (after : list string) :
  Forall (fun name => is_Some (self !! name)) before -> self !! name = None ->
  forall acc : attrs,
    dict_display self (before ++ name :: after) acc = Raise (AttributeError name).
Proof.
  induction 1 as [|first before [v Hv] _ IH]; intros Hnone acc.
  - cbn [app dict_display]. unfold getattr. by rewrite Hnone.
  - cbn [app dict_display]. unfold getattr. rewrite Hv. cbn [mbind result_bind]. by apply IH.
Qed.

(** A list with an element that fails [P] splits at the first such element. *)
Lemma first_missing (self : attrs) (names : list string) :
  ~ Forall (fun name => is_Some (self !! name)) names ->
  exists before name after,
    names = before ++ name :: after
    /\ Forall (fun name => is_Some (self !! name)) before /\ self !! name = None.
Proof.
  induction names as [|name names IH]; intros Hmissing.
  - destruct Hmissing. constructor.
  - destruct (self !! name) as [v|] eqn:Hname.
    + destruct IH as (before & missing & after & -> & Hbefore & Hnone).
      { intros Hall. apply Hmissing. constructor; [by eexists | done]. }
      exists (name :: before), missing, after. split; [done|]. split; [|done].
      constructor; [by eexists | done].
    + exists [], name, names. done.
Qed.

Lemma elem_of_param_names_lookup (params self : attrs) :
  (forall k, params !! k = if decide (k ∈ param_names) then self !! k else None) ->
  params = filter (fun kv : string * value => kv.1 ∈ param_names) self.
Proof.
  intros Hlookup. apply map_eq. intros k. rewrite Hlookup, map_lookup_filter.
  destruct (self !! k) as [v|]; simpl; [|by case_decide].
  case_decide; [by rewrite option_guard_True | by rewrite option_guard_False].
Qed.

Lemma get_params_Ok_iff (self params : attrs) :
  get_params self = Ok params
  <-> Forall (fun name => is_Some (self !! name)) param_names
      /\ params = filter (fun kv : string * value => kv.1 ∈ param_names) self.
Proof.
  split.
  - intros Hget.
    destruct (decide (Forall (fun name => is_Some (self !! name)) param_names)) as [Hall|Hnot].
    + split; [done|].
      destruct (dict_display_Ok self param_names Hall ∅) as (params' & Hget' & Hlookup).
      unfold get_params in Hget. rewrite Hget' in Hget. injection Hget as <-.
      apply elem_of_param_names_lookup. intros k. rewrite Hlookup, lookup_empty. done.
    + destruct (first_missing self param_names Hnot)
        as (before & name & after & Hnames & Hbefore & Hnone).
      unfold get_params in Hget. rewrite Hnames in Hget.
      by rewrite (dict_display_Raise self before name after Hbefore Hnone) in Hget.
  - intros [Hall ->].
    destruct (dict_display_Ok self param_names Hall ∅) as (params' & Hget' & Hlookup).
    unfold get_params. rewrite Hget'. f_equal.
    apply elem_of_param_names_lookup. intros k. rewrite Hlookup, lookup_empty. done.
Qed.

(** X1 ([get_params]): when the ten parameter attributes exist the result is
    the instance dictionary restricted to them; otherwise the call raises
    [AttributeError] for the first parameter, in the order of the dictionary
    display of lines 502-505, that is missing, whatever the later ones are. *)
Theorem get_params_restricts (self : attrs) :
  (Forall (fun name => is_Some (self !! name)) param_names ->
   get_params self = Ok (filter (fun kv : string * value => kv.1 ∈ param_names) self))
  /\ (~ Forall (fun name => is_Some (self !! name)) param_names ->
      exists before name after,
        param_names = before ++ name :: after
        /\ Forall (fun name => is_Some (self !! name)) before /\ self !! name = None
        /\ get_params self = Raise (AttributeError name)).
Proof.
  split.
  - intros Hall. by apply get_params_Ok_iff.
  - intros Hnot.
    destruct (first_missing self param_names Hnot)
      as (before & name & after & Hnames & Hbefore & Hnone).
    exists before, name, after. do 3 (split; [done|]).
    unfold get_params. rewrite Hnames. by apply dict_display_Raise.
Qed.

(** With [batch_size] and [num_monte_carlo] both missing, the error names
    [batch_size], which the display reads first. *)
Example get_params_first_missing_example :
  get_params (delete "batch_size" (delete "num_monte_carlo" toy_params))
  = Raise (AttributeError "batch_size").
Proof. vm_compute. reflexivity. Qed.

Lemma lookup_restricted (self : attrs) (k : string) :
  filter (fun kv : string * value => kv.1 ∈ param_names) self !! k
  = if decide (k ∈ param_names) then self !! k else None.
Proof.
  rewrite map_lookup_filter. destruct (self !! k) as [v|]; simpl; [|by case_decide].
  case_decide; [by rewrite option_guard_True | by rewrite option_guard_False].
Qed.

(** X2 ([set_params] after [get_params]): writing back what [get_params]
    returned changes nothing, and after [set_params] with the keyword
    arguments [params] the call [get_params()] returns the new value of
    every parameter that was given, the old value of the others, and no key
    that is not a parameter. *)
Theorem set_params_get_params (self params old : attrs) :
  get_params self = Ok old ->
  set_params self old = self
  /\ get_params (set_params self params)
     = Ok (filter (fun kv : string * value => kv.1 ∈ param_names) (params ∪ old)).
Proof.
  intros [Hall ->]%get_params_Ok_iff. split.
  - unfold set_params. apply map_eq. intros k.
    rewrite lookup_union, lookup_restricted.
    case_decide; destruct (self !! k); done.
  - apply get_params_Ok_iff. split.
    + unfold set_params. eapply Forall_impl; [exact Hall|].
      intros name [v Hv]. rewrite lookup_union, Hv. destruct (params !! name); by eexists.
    + apply map_eq. intros k. rewrite !lookup_restricted. unfold set_params.
      case_decide; [|done]. rewrite !lookup_union, lookup_restricted.
      by rewrite decide_True.
Qed.

(** The verdict of [check_params] depends on the ten parameters only. *)
Lemma check_params_ext (kwargs kwargs' : attrs) :
  (forall name, name ∈ param_names -> kwargs !! name = kwargs' !! name) ->
  check_params kwargs = check_params kwargs'.
Proof.
  intros Hsame. unfold check_params, check_positive_int, require.
  rewrite (Hsame "batch_size") by param_name.
  rewrite (Hsame "bert_hub_module_handle") by param_name.
  rewrite (Hsame "max_epochs") by param_name.
  rewrite (Hsame "num_monte_carlo") by param_name.
  rewrite (Hsame "patience") by param_name.
  rewrite (Hsame "random_seed") by param_name.
  rewrite (Hsame "gpu_memory_frac") by param_name.
  rewrite (Hsame "validation_fraction") by param_name.
  rewrite (Hsame "verbose") by param_name.
  rewrite (Hsame "hidden_layer_sizes") by param_name.
  reflexivity.
Qed.

End ParamsFacts.

Section CopyFacts.

Context `{Collaborators}.

Lemma lookup_init (hidden_layer_sizes bert_hub_module_handle batch_size validation_fraction
    max_epochs patience num_monte_carlo gpu_memory_frac verbose random_seed : value)
    (k : string) :
  init hidden_layer_sizes bert_hub_module_handle batch_size validation_fraction max_epochs
       patience num_monte_carlo gpu_memory_frac verbose random_seed !! k
  = if decide (k = "verbose") then Some verbose
    else if decide (k = "validation_fraction") then Some validation_fraction
    else if decide (k = "gpu_memory_frac") then Some gpu_memory_frac
    else if decide (k = "random_seed") then Some random_seed
    else if decide (k = "patience") then Some patience
    else if decide (k = "num_monte_carlo") then Some num_monte_carlo
    else if decide (k = "max_epochs") then Some max_epochs
    else if decide (k = "bert_hub_module_handle") then Some bert_hub_module_handle
    else if decide (k = "hidden_layer_sizes") then Some hidden_layer_sizes
    else if decide (k = "batch_size") then Some batch_size
    else None.
Proof.
  unfold init. rewrite !lookup_insert, lookup_empty.
  repeat (destruct (decide (_ = k)) as [<-|?];
          [reflexivity | rewrite (decide_False (P := k = _)) by congruence]).
  reflexivity.
Qed.

Lemma lookup_init_other (hidden_layer_sizes bert_hub_module_handle batch_size validation_fraction
    max_epochs patience num_monte_carlo gpu_memory_frac verbose random_seed : value)
    (k : string) :
  k ∉ param_names ->
  init hidden_layer_sizes bert_hub_module_handle batch_size validation_fraction max_epochs
       patience num_monte_carlo gpu_memory_frac verbose random_seed !! k = None.
Proof.
  intros Hnot. rewrite lookup_init.
  repeat (rewrite decide_False by (intros ->; apply Hnot; param_name)). reflexivity.
Qed.

Lemma init_has_parameters (hidden_layer_sizes bert_hub_module_handle batch_size
    validation_fraction max_epochs patience num_monte_carlo gpu_memory_frac verbose
    random_seed : value) :
  Forall (fun name =>
            is_Some (init hidden_layer_sizes bert_hub_module_handle batch_size
                          validation_fraction max_epochs patience num_monte_carlo
                          gpu_memory_frac verbose random_seed !! name)) param_names.
Proof.
  unfold param_names. repeat constructor; rewrite lookup_init; eexists; reflexivity.
Qed.

Lemma is_fitted_Ok_iff (self : attrs) :
  is_fitted self = Ok () <-> Forall (fun name => is_Some (self !! name)) fitted_attributes.
Proof.
  unfold is_fitted.
  destruct (forallb (hasattr self) fitted_attributes) eqn:Hall.
  - split; [intros _ | done].
    apply Is_true_true, forallb_True in Hall. eapply Forall_impl; [exact Hall|].
    intros name Hhas. unfold hasattr in Hhas. by apply bool_decide_unpack in Hhas.
  - split; [done|]. intros Hforall. exfalso.
    assert (Htrue : forallb (hasattr self) fitted_attributes = true); [|congruence].
    apply Is_true_true, forallb_True. eapply Forall_impl; [exact Hforall|].
    intros name Hsome. unfold hasattr. by apply bool_decide_pack.
Qed.

Lemma copy_attributes_Ok (self : attrs) (names : list string) :
  Forall (fun name => is_Some (self !! name)) names ->
  forall copied : attrs,
    exists copied' : attrs,
      copy_attributes self copied names = Ok copied'
      /\ forall k, copied' !! k = if decide (k ∈ names) then self !! k else copied !! k.
Proof.
  induction 1 as [|name names [v Hv] _ IH]; intros copied.
  - exists copied. split; [done|]. intros k. case_decide; [set_solver | done].
  - destruct (IH (<[name := v]> copied)) as (copied' & Hcopy & Hlookup).
    exists copied'. split.
    + cbn [copy_attributes]. unfold getattr. rewrite Hv. exact Hcopy.
    + intros k. rewrite Hlookup.
      destruct (decide (k = name)) as [->|Hne].
      * rewrite (decide_True (P := name ∈ name :: names)) by set_solver.
        case_decide; [done|]. by rewrite lookup_insert_eq.
      * rewrite lookup_insert_ne by done. repeat case_decide; set_solver.
Qed.

Lemma copy_instance_lookup (self : attrs) :
  Forall (fun name => is_Some (self !! name)) param_names ->
  exists copied : attrs,
    copy_instance self = Ok copied
    /\ forall k, copied !! k
                 = if decide (k ∈ param_names) then self !! k
                   else if is_ok (is_fitted self) && bool_decide (k ∈ copied_attributes)
                        then self !! k else None.
Proof.
  intros Hall. rewrite Forall_forall in Hall.
  destruct (Hall "bert_hub_module_handle" ltac:(param_name)) as [v1 Hv1].
  destruct (Hall "hidden_layer_sizes" ltac:(param_name)) as [v2 Hv2].
  destruct (Hall "num_monte_carlo" ltac:(param_name)) as [v3 Hv3].
  destruct (Hall "batch_size" ltac:(param_name)) as [v4 Hv4].
  destruct (Hall "validation_fraction" ltac:(param_name)) as [v5 Hv5].
  destruct (Hall "max_epochs" ltac:(param_name)) as [v6 Hv6].
  destruct (Hall "patience" ltac:(param_name)) as [v7 Hv7].
  destruct (Hall "gpu_memory_frac" ltac:(param_name)) as [v8 Hv8].
  destruct (Hall "verbose" ltac:(param_name)) as [v9 Hv9].
  destruct (Hall "random_seed" ltac:(param_name)) as [v10 Hv10].
  unfold copy_instance, getattr.
  rewrite Hv1, Hv2, Hv3, Hv4, Hv5, Hv6, Hv7, Hv8, Hv9, Hv10.
  cbn [mbind result_bind].
  set (kwargs := <["bert_hub_module_handle" := v1]> _).
  assert (Hkwargs : forall k, set_params ∅ kwargs !! k
                              = if decide (k ∈ param_names) then self !! k else None).
  { intros k. unfold set_params. rewrite lookup_union, lookup_empty, right_id_L by apply _.
    unfold kwargs. rewrite !lookup_insert, lookup_empty.
    repeat (destruct (decide (_ = k)) as [<-|?];
            [by rewrite decide_True by param_name|]).
    rewrite decide_False; [done|]. unfold param_names.
    rewrite !elem_of_cons, elem_of_nil. intros Hin. repeat destruct Hin as [->|Hin]; done. }
  destruct (is_ok (is_fitted self)) eqn:Hfitted.
  - assert (Hpresent : Forall (fun name => is_Some (self !! name)) copied_attributes).
    { assert (Hok : is_fitted self = Ok ()) by (destruct (is_fitted self) as [[]|]; done).
      apply is_fitted_Ok_iff in Hok. rewrite Forall_forall in Hok. apply Forall_forall.
      intros name Hin. apply Hok. unfold copied_attributes in Hin. unfold fitted_attributes.
      repeat (apply elem_of_cons in Hin as [->|Hin];
              [repeat first [apply list_elem_of_here | apply list_elem_of_further]|]).
      by apply elem_of_nil in Hin. }
    destruct (copy_attributes_Ok self copied_attributes Hpresent (set_params ∅ kwargs))
      as (copied & Hcopy & Hlookup).
    exists copied. split; [exact Hcopy|]. intros k. rewrite Hlookup, Hkwargs. simpl.
    destruct (decide (k ∈ copied_attributes)) as [Hin|Hnotin].
    + rewrite bool_decide_eq_true_2 by done. by case_decide.
    + rewrite bool_decide_eq_false_2 by done. done.
  - exists (set_params ∅ kwargs). split; [done|]. intros k. by rewrite Hkwargs.
Qed.

(** X3 ([__copy__], [__deepcopy__]): a copy takes over the ten parameters
    and, from a fitted instance, the nine attributes of lines 612-620, and
    nothing else. It has no [certainty_threshold_], so [is_fitted] raises
    [NotFittedError] on it and [predict] raises, even when the original
    instance is fitted. *)
Theorem copy_instance_forgets_threshold (self : attrs) :
  Forall (fun name => is_Some (self !! name)) param_names ->
  exists copied : attrs,
    copy_instance self = Ok copied
    /\ (forall name, name ∈ param_names -> copied !! name = self !! name)
    /\ (is_fitted self = Ok () ->
        forall name, name ∈ copied_attributes -> copied !! name = self !! name)
    /\ (forall name, name ∉ param_names -> name ∉ copied_attributes -> copied !! name = None)
    /\ (is_fitted self <> Ok () -> forall name, name ∉ param_names -> copied !! name = None)
    /\ is_fitted copied = Raise NotFittedError
    /\ forall run X, exists e, predict copied run X = Raise e.
Proof.
  intros Hall. destruct (copy_instance_lookup self Hall) as (copied & Hcopy & Hlookup).
  assert (Hthreshold : copied !! "certainty_threshold_" = None).
  { rewrite Hlookup. rewrite decide_False by (unfold param_names; set_solver).
    rewrite (bool_decide_eq_false_2 ("certainty_threshold_" ∈ copied_attributes))
      by (unfold copied_attributes; set_solver).
    by rewrite andb_false_r. }
  exists copied. split_and!.
  - exact Hcopy.
  - intros name Hin. rewrite Hlookup. by rewrite decide_True.
  - intros Hfitted name Hin. rewrite Hlookup, Hfitted. simpl.
    rewrite bool_decide_eq_true_2 by done. by case_decide.
  - intros name Hparam Hcopied. rewrite Hlookup, decide_False by done.
    rewrite bool_decide_eq_false_2 by done. by rewrite andb_false_r.
  - intros Hnot name Hparam. rewrite Hlookup, decide_False by done.
    destruct (is_fitted self) as [[]|e]; [done|]. reflexivity.
  - by apply is_fitted_needs_threshold.
  - intros run X. by apply predict_needs_threshold.
Qed.

(** X4 ([__init__] with [get_params] and [__copy__]): [get_params] of a new
    instance returns the constructor's arguments and nothing else, and the
    copy of a new instance is an instance with the same attributes. *)
Theorem init_round_trips (hidden_layer_sizes bert_hub_module_handle batch_size
    validation_fraction max_epochs patience num_monte_carlo gpu_memory_frac verbose
    random_seed : value) :
  let self := init hidden_layer_sizes bert_hub_module_handle batch_size validation_fraction
                   max_epochs patience num_monte_carlo gpu_memory_frac verbose random_seed in
  get_params self = Ok self /\ copy_instance self = Ok self.
Proof.
  intros self.
  assert (Hall := init_has_parameters hidden_layer_sizes bert_hub_module_handle batch_size
                    validation_fraction max_epochs patience num_monte_carlo gpu_memory_frac
                    verbose random_seed).
  fold self in Hall. split.
  - apply get_params_Ok_iff. split; [exact Hall|].
    apply map_eq. intros k. rewrite lookup_restricted.
    case_decide; [done|]. by apply lookup_init_other.
  - destruct (copy_instance_lookup self Hall) as (copied & -> & Hlookup). f_equal.
    apply map_eq. intros k. rewrite Hlookup.
    case_decide; [done|].
    assert (Hunfitted : is_ok (is_fitted self) = false).
    { destruct (is_fitted self) as [[]|e] eqn:Hfitted; [|done].
      apply is_fitted_Ok_iff in Hfitted. rewrite Forall_forall in Hfitted.
      destruct (Hfitted "n_classes_") as [v Hv]; [unfold fitted_attributes; set_solver|].
      unfold self in Hv. rewrite lookup_init_other in Hv; [done|].
      unfold param_names. set_solver. }
    rewrite Hunfitted. simpl. symmetry. by apply lookup_init_other.
Qed.

End CopyFacts.

Lemma copy_instance_forgets_threshold_witness :
  Forall (fun name => is_Some (toy_fitted !! name)) param_names
  /\ is_fitted toy_fitted = Ok ()
  /\ exists copied : attrs,
      copy_instance toy_fitted = Ok copied
      /\ (forall name, name ∈ param_names -> copied !! name = toy_fitted !! name)
      /\ (is_fitted toy_fitted = Ok () ->
          forall name, name ∈ copied_attributes -> copied !! name = toy_fitted !! name)
      /\ (forall name, name ∉ param_names -> name ∉ copied_attributes -> copied !! name = None)
      /\ (is_fitted toy_fitted <> Ok () ->
          forall name, name ∉ param_names -> copied !! name = None)
      /\ is_fitted copied = Raise NotFittedError
      /\ forall run X, exists e, predict (H := toy_collaborators) copied run X = Raise e.
Proof.
  assert (Hall : Forall (fun name => is_Some (toy_fitted !! name)) param_names).
  { unfold param_names. repeat constructor; vm_compute; eexists; reflexivity. }
  split; [exact Hall|]. split; [vm_compute; reflexivity|].
  exact (copy_instance_forgets_threshold (H := toy_collaborators) toy_fitted Hall).
Defined.

Lemma set_params_get_params_witness :
  let old := value_or (∅ : attrs) (get_params toy_fitted) in
  let params : attrs := <["batch_size" := VInt 8]> (<["sess_" := VNone]> ∅) in
  get_params toy_fitted = Ok old
  /\ set_params toy_fitted old = toy_fitted
  /\ get_params (set_params toy_fitted params)
     = Ok (filter (fun kv : string * value => kv.1 ∈ param_names) (params ∪ old)).
Proof.
  intros old params.
  assert (Hold : get_params toy_fitted = Ok old) by (apply result_eta; vm_compute; reflexivity).
  split; [exact Hold|]. exact (set_params_get_params toy_fitted params old Hold).
Defined.


(** * Labels that the fitted classes do not cover *)

Section KnownClasses.

Lemma known_classes_subseteq (classes : list Z) (n_classes : Z) :
  (list_to_set classes : gset Z) ⊆ list_to_set (py_range (Z.to_nat n_classes))
  <-> Forall (fun z => 0 <= z < n_classes)%Z classes.
Proof.
  rewrite Forall_forall. split.
  - intros Hsub z Hin.
    assert (Hz : z ∈ (list_to_set (py_range (Z.to_nat n_classes)) : gset Z)).
    { apply Hsub. by apply elem_of_list_to_set. }
    apply elem_of_list_to_set, elem_of_py_range in Hz. lia.
  - intros Hall z Hin. apply elem_of_list_to_set in Hin.
    apply elem_of_list_to_set, elem_of_py_range. specialize (Hall z Hin). lia.
Qed.

Lemma elem_of_unknown_classes_of (classes : list Z) (n_classes z : Z) :
  z ∈ unknown_classes_of classes n_classes <-> z ∈ classes /\ ~ (0 <= z < n_classes)%Z.
Proof.
  unfold unknown_classes_of.
  rewrite elem_of_sorted_Z, elem_of_difference, !elem_of_list_to_set, elem_of_py_range.
  split; intros [Hin Hnot]; (split; [done | lia]).
Qed.

Lemma unknown_classes_of_nil (classes : list Z) (n_classes : Z) :
  unknown_classes_of classes n_classes = []
  <-> Forall (fun z => 0 <= z < n_classes)%Z classes.
Proof.
  rewrite Forall_forall. split.
  - intros Hnil z Hin. destruct (decide (0 <= z < n_classes)%Z) as [|Hnot]; [done|].
    assert (Hz : z ∈ unknown_classes_of classes n_classes)
      by by apply elem_of_unknown_classes_of.
    rewrite Hnil in Hz. by apply elem_of_nil in Hz.
  - intros Hall. destruct (unknown_classes_of classes n_classes) as [|z l] eqn:Hunknown; [done|].
    assert (Hz : z ∈ unknown_classes_of classes n_classes) by (rewrite Hunknown; left).
    apply elem_of_unknown_classes_of in Hz as [Hin Hnot]. by destruct (Hnot (Hall z Hin)).
Qed.

(** The verdict of lines 84-89 and 387-392, read off the sorted list of
    the classes outside [range(n_classes)]. *)
Lemma check_known_classes_verdict (y_name : string) (classes : list Z) (n_classes : Z) :
  check_known_classes y_name classes n_classes
  = label_verdict y_name (unknown_classes_of classes n_classes) (Returns ()).
Proof.
  unfold check_known_classes, label_verdict.
  destruct (decide ((list_to_set classes : gset Z)
                    ⊆ list_to_set (py_range (Z.to_nat n_classes)))) as [Hsub|Hsub].
  - apply known_classes_subseteq, unknown_classes_of_nil in Hsub. by rewrite Hsub.
  - rewrite known_classes_subseteq, <- unknown_classes_of_nil in Hsub.
    destruct (unknown_classes_of classes n_classes) as [|z [|z' l]]; [done | done |].
    rewrite decide_False by (simpl; lia). done.
Qed.

End KnownClasses.

Section ScoreFacts.

Context `{Collaborators}.

Variable f1_macro : list Z -> list Z -> Q.

Lemma check_Xy_two_known (X : list string) (X_name : string) (y : list Z) (y_name : string) :
  length y = length X -> two_known_labels y ->
  check_Xy X X_name y y_name = Ok (sorted_Z (collect_classes y)).
Proof.
  intros Hlen Htwo. rewrite check_Xy_equal_length by done.
  apply size_collect_two in Htwo. by rewrite decide_False by lia.
Qed.

Lemma unknown_labels_listed (y : list Z) (n_classes : Z) :
  lists_unknown_labels y n_classes
    (unknown_classes_of (sorted_Z (collect_classes y)) n_classes).
Proof.
  split.
  - apply sorted_Z_sorted.
  - intros z. rewrite elem_of_unknown_classes_of, elem_of_sorted_Z, elem_of_collect_classes.
    unfold known_label. split; [intros [[Hin Hpos] Hnot] | intros [[Hin Hpos] Hge]].
    + split; [done | lia].
    + split; [done | lia].
Qed.

(** X5 (validation data of [fit]): the labels given for validation are
    accepted when every label that is not negative is below the number of
    classes of the training set. Otherwise a [ValueError] names the unknown
    classes in increasing order, with the singular message when there is
    exactly one. A wrong length or fewer than two classes is reported first. *)
Theorem check_validation_data_verdict (n_classes : nat) (X_val : list string)
    (y_val : list Z) :
  (length y_val <> length X_val ->
   check_validation_data n_classes (X_val, y_val)
   = Raises (ValueError (MsgLengthMismatch "X_val" "y_val" (length X_val) (length y_val))))
  /\ (length y_val = length X_val -> ~ two_known_labels y_val ->
      check_validation_data n_classes (X_val, y_val)
      = Raises (ValueError (MsgTooFewClasses "y_val")))
  /\ (length y_val = length X_val -> two_known_labels y_val ->
      exists unknown_classes,
        lists_unknown_labels y_val (Z.of_nat n_classes) unknown_classes
        /\ check_validation_data n_classes (X_val, y_val)
           = label_verdict "y_val" unknown_classes (Returns ())).
Proof.
  split_and!.
  - intros Hlen. unfold check_validation_data, check_Xy, check_X.
    cbn [mbind result_bind fst snd]. by rewrite decide_True.
  - intros Hlen Hfew. unfold check_validation_data. cbn [fst snd].
    rewrite check_Xy_equal_length by done.
    rewrite <- size_collect_two in Hfew. by rewrite decide_True by lia.
  - intros Hlen Htwo.
    exists (unknown_classes_of (sorted_Z (collect_classes y_val)) (Z.of_nat n_classes)).
    split; [apply unknown_labels_listed|].
    unfold check_validation_data. cbn [fst snd]. rewrite check_Xy_two_known by done.
    cbn [lift mbind outcome_bind]. apply check_known_classes_verdict.
Qed.

(** X6 ([score]): with valid parameters, an instance that is not fitted
    raises [NotFittedError] whatever the data. On a fitted one the labels
    are checked first as [check_Xy] checks them: a [ValueError] when their
    number differs from the number of texts, another one when fewer than two
    distinct labels are not negative. Otherwise a [ValueError] names, in
    increasing order, the labels that are at least [n_classes_], and only
    when there are none the result of [predict] is scored against [y].
    Negative labels are never reported. *)
Theorem score_verdict (self : attrs) (run : nat) (X : list string) (y : list Z)
    (kwargs : attrs) :
  get_params self = Ok kwargs -> check_params kwargs = Ok () ->
  (is_fitted self <> Ok () -> score f1_macro self run X y = Raises NotFittedError)
  /\ (is_fitted self = Ok () ->
      (length y <> length X ->
       score f1_macro self run X y
       = Raises (ValueError (MsgLengthMismatch "X" "y" (length X) (length y))))
      /\ (length y = length X -> ~ two_known_labels y ->
          score f1_macro self run X y = Raises (ValueError (MsgTooFewClasses "y")))
      /\ (length y = length X -> two_known_labels y ->
          forall c, self !! "n_classes_" = Some (VInt c) ->
          exists unknown_classes,
            lists_unknown_labels y c unknown_classes
            /\ score f1_macro self run X y
               = label_verdict "y" unknown_classes
                   (y_pred ← lift (predict self run X); Returns (f1_macro y y_pred)))).
Proof.
  intros Hget Hcheck. unfold score. rewrite Hget. cbn [lift mbind outcome_bind].
  rewrite Hcheck. cbn [lift mbind outcome_bind]. split.
  - intros Hnot. unfold is_fitted in *.
    destruct (forallb (hasattr self) fitted_attributes); [done | reflexivity].
  - intros Hfitted. rewrite Hfitted. cbn [lift mbind outcome_bind]. split_and!.
    + intros Hlen. unfold check_Xy, check_X. cbn [mbind result_bind].
      by rewrite decide_True.
    + intros Hlen Hfew. rewrite check_Xy_equal_length by done.
      rewrite <- size_collect_two in Hfew. by rewrite decide_True by lia.
    + intros Hlen Htwo c Hclasses.
      rewrite check_Xy_two_known by done. cbn [lift mbind outcome_bind].
      unfold getattr. rewrite Hclasses. cbn [lift mbind outcome_bind as_int].
      exists (unknown_classes_of (sorted_Z (collect_classes y)) c).
      split; [apply unknown_labels_listed|].
      rewrite check_known_classes_verdict. unfold label_verdict.
      by destruct (unknown_classes_of (sorted_Z (collect_classes y)) c) as [|z [|z' l]].
Qed.

End ScoreFacts.

Lemma score_verdict_witness :
  let kwargs := value_or (∅ : attrs) (get_params toy_fitted) in
  let f1_macro := fun _ _ : list Z => 0%Q in
  let X := ["a"; "b"; "c"] in
  let y := [0; 1; 5]%Z in
  get_params toy_fitted = Ok kwargs
  /\ check_params kwargs = Ok ()
  /\ (is_fitted toy_fitted <> Ok () ->
      score (H := toy_collaborators) f1_macro toy_fitted 0 X y = Raises NotFittedError)
  /\ (is_fitted toy_fitted = Ok () ->
      (length y <> length X ->
       score (H := toy_collaborators) f1_macro toy_fitted 0 X y
       = Raises (ValueError (MsgLengthMismatch "X" "y" (length X) (length y))))
      /\ (length y = length X -> ~ two_known_labels y ->
          score (H := toy_collaborators) f1_macro toy_fitted 0 X y
          = Raises (ValueError (MsgTooFewClasses "y")))
      /\ (length y = length X -> two_known_labels y ->
          forall c, toy_fitted !! "n_classes_" = Some (VInt c) ->
          exists unknown_classes,
            lists_unknown_labels y c unknown_classes
            /\ score (H := toy_collaborators) f1_macro toy_fitted 0 X y
               = label_verdict "y" unknown_classes
                   (y_pred ← lift (predict (H := toy_collaborators) toy_fitted 0 X);
                    Returns (f1_macro y y_pred)))).
Proof.
  intros kwargs f1_macro X y.
  assert (Hget : get_params toy_fitted = Ok kwargs)
    by (apply result_eta; vm_compute; reflexivity).
  assert (Hcheck : check_params kwargs = Ok ()) by (vm_compute; reflexivity).
  split; [exact Hget|]. split; [exact Hcheck|].
  exact (score_verdict (H := toy_collaborators) f1_macro toy_fitted 0 X y kwargs Hget Hcheck).
Defined.

Example score_unknown_class_example :
  score (H := toy_collaborators) (fun _ _ => 0%Q) toy_fitted 0 ["a"; "b"; "c"; "d"]
        [0; 1; 5; -1]%Z
  = RaisesValueError (MsgClassUnknown "y" 5)
  /\ score (H := toy_collaborators) (fun _ _ => 0%Q) toy_fitted 0 ["a"; "b"; "c"; "d"]
           [0; 7; 5; 1]%Z
     = RaisesValueError (MsgClassesUnknown "y" [5; 7]%Z)
  /\ score (H := toy_collaborators) (fun _ _ => 0%Q) toy_trained 0 ["a"; "b"] [0; 1]%Z
     = Raises NotFittedError
  /\ score (H := toy_collaborators) (fun _ _ => 0%Q) toy_fitted 0 ["a"; "b"] [5; 5]%Z
     = Raises (ValueError (MsgTooFewClasses "y"))
  /\ check_validation_data 2 (["a"; "b"; "c"], [0; 1; -1]%Z) = Returns ()
  /\ check_validation_data 2 (["a"; "b"; "c"], [0; 1; 2]%Z)
     = RaisesValueError (MsgClassUnknown "y_val" 2).
Proof. vm_compute. repeat split. Qed.


(** * Model files and the two [finally] clauses *)

Section ModelFilesFacts.

Lemma string_app_nil_r (s : string) : s +:+ "" = s.
Proof.
  induction s as [|c s IH]; [done|].
  change (String c (s +:+ "") = String c s). by rewrite IH.
Qed.

Lemma model_name_is_model_file (model_name : path) : model_file_of model_name model_name.
Proof.
  destruct model_name as [dir_name base_name].
  rewrite <- (string_app_nil_r base_name) at 2. apply (checkpoint_file_matches (dir_name, base_name)).
Qed.

(** The directory entries that pass the filter of line 739. *)
Lemma matching_entries (fs : filesystem) (model_name : path) :
  let entries :=
    (fun cur => (model_name.1, cur))
      <$> filter (fun it => matches_model_name model_name.2 it = true)
                 (listdir fs model_name.1) in
  NoDup entries
  /\ forall p, p ∈ entries <-> is_Some (fs !! p) /\ model_file_of model_name p.
Proof.
  intros entries. split.
  - apply NoDup_fmap_2; [by intros ? ? [= ?]|]. apply NoDup_filter, NoDup_listdir.
  - intros [d n]. unfold entries. rewrite list_elem_of_fmap.
    unfold model_file_of. simpl. split.
    + intros (cur & [= -> ->] & Hcur). apply list_elem_of_filter in Hcur as [Hm Hcur].
      apply elem_of_listdir in Hcur. done.
    + intros (Hsome & -> & Hm). exists n. split; [done|].
      apply list_elem_of_filter. split; [done|]. by apply elem_of_listdir.
Qed.

Lemma elem_of_find_all_model_files (fs : filesystem) (model_name p : path) :
  p ∈ find_all_model_files fs model_name <-> is_Some (fs !! p) /\ model_file_of model_name p.
Proof.
  destruct (matching_entries fs model_name) as [Hnd Hin].
  unfold find_all_model_files. rewrite merge_sort_Permutation, elem_of_app, Hin.
  unfold isfile. case_bool_decide as Hbare.
  - rewrite list_elem_of_singleton. split; [intros [->|?]; [|done] | tauto].
    split; [done | apply model_name_is_model_file].
  - rewrite elem_of_nil. tauto.
Qed.

Lemma find_all_model_files_twice (fs : filesystem) (model_name : path) :
  is_Some (fs !! model_name) ->
  exists others, find_all_model_files fs model_name ≡ₚ model_name :: model_name :: others
                 /\ NoDup (model_name :: others).
Proof.
  intros Hbare. destruct (matching_entries fs model_name) as [Hnd Hin].
  assert (Hmember : model_name ∈ (fun cur => (model_name.1, cur))
                      <$> filter (fun it => matches_model_name model_name.2 it = true)
                                 (listdir fs model_name.1)).
  { apply Hin. split; [done | apply model_name_is_model_file]. }
  apply elem_of_Permutation in Hmember as [others Hothers].
  exists others. split.
  - unfold find_all_model_files, isfile. rewrite merge_sort_Permutation.
    rewrite bool_decide_eq_true_2 by done. simpl. by rewrite Hothers.
  - by rewrite <- Hothers.
Qed.


(** Once a file is gone, a loop of [os.remove] that meets it stops there. *)
Lemma remove_all_missing (x : path) (names : list path) :
  forall fs : filesystem,
    NoDup names -> x ∈ names -> fs !! x = None ->
    (forall p, p ∈ names -> p <> x -> is_Some (fs !! p)) ->
    exists fs', remove_all fs names = (Raise (FileNotFoundError x), fs') /\ fs' !! x = None.
Proof.
  induction names as [|cur rest IH]; intros fs Hnd Hx Hnone Hex.
  - by apply elem_of_nil in Hx.
  - apply NoDup_cons in Hnd as [Hnotin Hnd]. cbn [remove_all]. unfold os_remove.
    destruct (decide (cur = x)) as [->|Hne].
    + rewrite Hnone. by exists fs.
    + destruct (Hex cur (list_elem_of_here _ _) Hne) as [data ->].
      apply (IH (delete cur fs)); [done | set_solver | by rewrite lookup_delete_ne |].
      intros p Hp Hpx. rewrite lookup_delete_ne; [apply Hex; [by right | done]|].
      by intros ->.
Qed.

(** A loop of [os.remove] over existing files, one of them listed twice. *)
Lemma remove_all_listed_twice (x : path) (names : list path) :
  forall (others : list path) (fs : filesystem),
    names ≡ₚ x :: x :: others -> NoDup (x :: others) ->
    (forall p, p ∈ names -> is_Some (fs !! p)) ->
    exists fs', remove_all fs names = (Raise (FileNotFoundError x), fs') /\ fs' !! x = None.
Proof.
  induction names as [|cur rest IH]; intros others fs Hperm Hnd Hex.
  - by apply Permutation_nil_cons in Hperm.
  - destruct (Hex cur (list_elem_of_here _ _)) as [data Hcur].
    cbn [remove_all]. unfold os_remove. rewrite Hcur.
    destruct (decide (cur = x)) as [->|Hne].
    + apply Permutation_cons_inv in Hperm.
      apply (remove_all_missing x rest (delete x fs)).
      * by rewrite Hperm.
      * rewrite Hperm. left.
      * apply lookup_delete_eq.
      * intros p Hp Hpx. rewrite lookup_delete_ne by done. apply Hex. by right.
    + assert (Hin : cur ∈ others).
      { assert (Hcur' : cur ∈ x :: x :: others) by (rewrite <- Hperm; left).
        set_solver. }
      apply elem_of_Permutation in Hin as [others' Hothers].
      apply (IH others' (delete cur fs)).
      * apply (Permutation_cons_inv (a := cur)). rewrite Hperm, Hothers.
        symmetry. apply (Permutation_middle [x; x] others' cur).
      * rewrite Hothers in Hnd. apply NoDup_cons in Hnd as [Hx Hnd].
        apply NoDup_cons in Hnd as [_ Hnd]. apply NoDup_cons. split; [set_solver | done].
      * intros p Hp.
        destruct (decide (p = cur)) as [->|Hpc].
        -- exfalso.
           assert (Hrest : rest ≡ₚ x :: x :: others').
           { apply (Permutation_cons_inv (a := cur)). rewrite Hperm, Hothers.
             symmetry. apply (Permutation_middle [x; x] others' cur). }
           rewrite Hrest in Hp. rewrite Hothers in Hnd.
           apply NoDup_cons in Hnd as [Hx Hnd]. apply NoDup_cons in Hnd as [Hcur' _].
           set_solver.
        -- rewrite lookup_delete_ne by done. apply Hex. by right.
Qed.

(** X8 (the [finally] clauses of [fit] and [dump_all]): when a file bears
    the very name of the model, the loop that removes the model files
    deletes that file and then raises [FileNotFoundError] for it, because
    the name is listed twice. *)
Theorem cleanup_fails_on_bare_name (fs : filesystem) (model_name : path) :
  is_Some (fs !! model_name) ->
  exists fs',
    remove_all fs (find_all_model_files fs model_name)
    = (Raise (FileNotFoundError model_name), fs')
    /\ fs' !! model_name = None.
Proof.
  intros Hbare. destruct (find_all_model_files_twice fs model_name Hbare) as (others & Hperm & Hnd).
  apply (remove_all_listed_twice model_name _ others fs Hperm Hnd).
  intros p Hp. by apply elem_of_find_all_model_files in Hp as [? _].
Qed.

End ModelFilesFacts.

Lemma cleanup_fails_on_bare_name_witness :
  let fs : filesystem :=
    <[("/tmp", "m.ckpt") := [1%Z]]> (<[("/tmp", "m.ckpt.index") := [1%Z]]> ∅) in
  is_Some (fs !! ("/tmp", "m.ckpt"))
  /\ exists fs',
      remove_all fs (find_all_model_files fs ("/tmp", "m.ckpt"))
      = (Raise (FileNotFoundError ("/tmp", "m.ckpt")), fs')
      /\ fs' !! ("/tmp", "m.ckpt") = None.
Proof.
  intros fs.
  assert (Hbare : is_Some (fs !! ("/tmp", "m.ckpt"))) by (vm_compute; eexists; reflexivity).
  split; [exact Hbare|]. exact (cleanup_fails_on_bare_name fs ("/tmp", "m.ckpt") Hbare).
Defined.


(** * Pickling and the temporary directory *)

Section PickleDirectoryFacts.

Context `{Collaborators}.

Lemma lookup_remove_existing (names : list path) :
  forall (fs : filesystem) (p : path),
    remove_existing fs names !! p = if decide (p ∈ names) then None else fs !! p.
Proof.
  unfold remove_existing.
  induction names as [|cur rest IH]; intros fs p; cbn [foldl].
  - rewrite decide_False; [done | apply not_elem_of_nil].
  - rewrite IH.
    assert (Hcur : (if isfile fs cur then delete cur fs else fs) !! p = delete cur fs !! p).
    { unfold isfile. case_bool_decide as Hfile; [done|].
      destruct (decide (p = cur)) as [->|Hne].
      - rewrite lookup_delete_eq. destruct (fs !! cur) eqn:Hlookup; [|done].
        destruct Hfile. by eexists.
      - by rewrite lookup_delete_ne. }
    rewrite Hcur. destruct (decide (p = cur)) as [->|Hne].
    + rewrite lookup_delete_eq. rewrite (decide_True (P := cur ∈ cur :: rest)) by left.
      by case_decide.
    + rewrite lookup_delete_ne by done.
      destruct (decide (p ∈ rest)) as [Hin|Hnotin].
      * rewrite decide_True; [done | by right].
      * rewrite decide_False; [done | set_solver].
Qed.

Lemma write_model_files_outside (new_params : attrs) (tmp_dir_name : string)
    (model_files : list string) :
  forall (fs fs' : filesystem) (written : result unit) (p : path),
    write_model_files new_params tmp_dir_name model_files fs = (written, fs') ->
    p ∉ (fun cur => (tmp_dir_name, cur)) <$> model_files ->
    fs' !! p = fs !! p.
Proof.
  induction model_files as [|cur rest IH]; intros fs fs' written p; cbn [write_model_files].
  - by intros [= _ <-].
  - rewrite fmap_cons, not_elem_of_cons. intros Hwrite [Hne Hnotin].
    destruct (new_params !! ("model." +:+ cur)) as [[]|].
    all: try (injection Hwrite as _ <-; by rewrite lookup_insert_ne).
    rewrite (IH _ _ _ _ Hwrite Hnotin). by rewrite lookup_insert_ne.
Qed.

(** X9 ([load_all]): whatever the state holds and whether the call returns
    or raises, the temporary directory is left exactly as it was found:
    the model files are written only when none of their names is taken, and
    the [finally] clause removes every one of them. *)
Theorem load_all_keeps_directory (self new_params : attrs) (fs : filesystem)
    (tmp_dir_name : string) (now : Z) :
  (load_all self new_params fs tmp_dir_name now).2 = fs.
Proof.
  unfold load_all.
  destruct (check_params new_params) as [[]|e]; [|done].
  destruct (_ && _); [|done].
  destruct (filter _ _) as [|cur rest] eqn:Hfree; [|done].
  destruct (getattr new_params "n_classes_") as [n_classes|e]; [|done].
  destruct (getattr new_params "tokenizer_") as [tokenizer|e]; [|done].
  destruct (getattr new_params "model_name_") as [model_name|e]; [|done].
  destruct (getattr _ "random_seed") as [random_seed|e]; [|done].
  destruct (write_model_files _ _ _ _) as [written fs1] eqn:Hwrite.
  cbn [snd]. apply map_eq. intros p. rewrite lookup_remove_existing.
  case_decide as Hin.
  - symmetry. destruct (fs !! p) as [data|] eqn:Hp; [|done]. exfalso.
    assert (Hfile : p ∈ filter (fun cur => isfile fs cur = true)
                      ((fun cur => (tmp_dir_name, cur)) <$> model_files_of new_params)).
    { apply list_elem_of_filter. split; [|done].
      unfold isfile. apply bool_decide_eq_true_2. by eexists. }
    rewrite Hfree in Hfile. by apply elem_of_nil in Hfile.
  - by eapply write_model_files_outside.
Qed.

Lemma lookup_written_suffixes (model_file_name : path) (w : weights) (suffixes : list string)
    (fs : filesystem) (p : path) :
  foldr (fun sfx fs' => <[(model_file_name.1, model_file_name.2 +:+ sfx) := w]> fs') fs
        suffixes !! p
  = if decide (p ∈ (fun sfx => (model_file_name.1, model_file_name.2 +:+ sfx)) <$> suffixes)
    then Some w else fs !! p.
Proof.
  induction suffixes as [|sfx rest IH]; cbn [foldr].
  - rewrite decide_False; [done | apply not_elem_of_nil].
  - rewrite fmap_cons. destruct (decide (p = (model_file_name.1, model_file_name.2 +:+ sfx)))
      as [->|Hne].
    + rewrite lookup_insert_eq. rewrite decide_True; [done | left].
    + rewrite lookup_insert_ne by done. rewrite IH.
      repeat case_decide; set_solver.
Qed.

Section Saver.

Hypothesis suffixes_not_empty : Forall (fun sfx => sfx <> "") saver_suffixes.

Lemma save_model_outside (self : attrs) (model_file_name : path) (fs fs' : filesystem)
    (saved : result unit) (p : path) :
  save_model self model_file_name fs = (saved, fs') ->
  ~ model_file_of model_file_name p -> fs' !! p = fs !! p.
Proof.
  unfold save_model.
  destruct (getattr self "sess_") as [[| | | | | | | |[w|]| | |]|e];
    try (intros [= _ <-]; done).
  intros [= _ <-] Hnot. rewrite lookup_written_suffixes. rewrite decide_False; [done|].
  intros Hin. apply list_elem_of_fmap in Hin as (sfx & -> & _).
  apply Hnot, checkpoint_file_matches.
Qed.

(** In the model of the saver, which writes the files of the checkpoint
    under the model name, [dump_all] gives the directory back unchanged. *)
Lemma dump_all_directory (self : attrs) (fs : filesystem) (model_file_name : path) :
  fresh_model_name fs model_file_name ->
  (dump_all self fs model_file_name).2 = fs.
Proof.
  intros Hfresh. unfold dump_all.
  destruct (get_params self) as [params|e]; [|done].
  destruct (is_ok (is_fitted self)); [|done].
  destruct (getattr self "n_classes_") as [n_classes|e]; [|done].
  destruct (getattr self "tokenizer_") as [tokenizer|e]; [|done].
  destruct (save_model self model_file_name fs) as [saved fs1] eqn:Hsave.
  assert (Hbare : fs1 !! model_file_name = None).
  { eapply save_model_bare_name; [exact suffixes_not_empty | | exact Hsave].
    destruct (fs !! model_file_name) eqn:Hlookup; [|done].
    destruct (Hfresh model_file_name); [by eexists | apply model_name_is_model_file]. }
  destruct (cleanup_spec fs1 model_file_name Hbare) as (fs2 & Hremove & Hgone & Hkept).
  rewrite Hremove. cbn [snd]. apply map_eq. intros p.
  destruct (decide (model_file_of model_file_name p)) as [Hmodel|Hother].
  - rewrite (Hgone p Hmodel). destruct (fs !! p) eqn:Hlookup; [|done].
    destruct (Hfresh p); [by eexists | done].
  - rewrite (Hkept p Hother). by eapply save_model_outside.
Qed.

(** X10 ([dump_all]): when no file of the directory contains the base name
    of the temporary model name, none does after [dump_all] either, whether
    the instance is fitted or not and whether the call returns or raises:
    every file the saver wrote under the model name is removed again. The
    model name is not the name [checkpoint] of the state file that the saver
    keeps in the directory beside the files of the model. *)
Theorem dump_all_removes_model_files (self : attrs) (fs : filesystem)
    (model_file_name : path) :
  fresh_model_name fs model_file_name -> model_file_name.2 <> "checkpoint" ->
  fresh_model_name (dump_all self fs model_file_name).2 model_file_name
  /\ forall sfx, sfx ∈ saver_suffixes ->
       (dump_all self fs model_file_name).2
         !! (model_file_name.1, model_file_name.2 +:+ sfx) = None.
Proof.
  intros Hfresh _.
  assert (Hafter : fresh_model_name (dump_all self fs model_file_name).2 model_file_name)
    by (by rewrite dump_all_directory).
  split; [exact Hafter|]. intros sfx _.
  destruct ((dump_all self fs model_file_name).2
              !! (model_file_name.1, model_file_name.2 +:+ sfx)) as [data|] eqn:Hfile; [|done].
  destruct (Hafter (model_file_name.1, model_file_name.2 +:+ sfx));
    [by eexists | apply checkpoint_file_matches].
Qed.

End Saver.

End PickleDirectoryFacts.

Lemma dump_all_removes_model_files_witness :
  let fs : filesystem := <[("/tmp", "notes.txt") := [5%Z]]> ∅ in
  let after := (dump_all (H := toy_collaborators) toy_fitted fs toy_tmp_model_name).2 in
  Forall (fun sfx => sfx <> "") (saver_suffixes (Collaborators := toy_collaborators))
  /\ fresh_model_name fs toy_tmp_model_name
  /\ toy_tmp_model_name.2 <> "checkpoint"
  /\ fresh_model_name after toy_tmp_model_name
  /\ forall sfx, sfx ∈ saver_suffixes (Collaborators := toy_collaborators) ->
       after !! (toy_tmp_model_name.1, toy_tmp_model_name.2 +:+ sfx) = None.
Proof.
  intros fs after.
  assert (Hsuffixes : Forall (fun sfx => sfx <> "")
                        (saver_suffixes (Collaborators := toy_collaborators)))
    by (repeat constructor; discriminate).
  assert (Hfresh : fresh_model_name fs toy_tmp_model_name).
  { intros p [data Hp] [_ Hmatch]. unfold fs in Hp.
    destruct (decide (p = ("/tmp", "notes.txt"))) as [->|Hne].
    - vm_compute in Hmatch. discriminate.
    - by rewrite lookup_insert_ne, lookup_empty in Hp. }
  assert (Hname : toy_tmp_model_name.2 <> "checkpoint") by discriminate.
  split; [exact Hsuffixes|]. split; [exact Hfresh|]. split; [exact Hname|].
  exact (dump_all_removes_model_files (H := toy_collaborators) Hsuffixes toy_fitted fs
           toy_tmp_model_name Hfresh Hname).
Defined.


(** Solves [name ∉ graph_attributes] for a literal name. *)
Ltac not_graph_attribute :=
  unfold graph_attributes; rewrite !elem_of_cons, elem_of_nil;
  let Hin := fresh in intros Hin; repeat (destruct Hin as [Hin|Hin]; [discriminate Hin|]);
  exact Hin.

Section RoundTripFacts.

Context `{Collaborators}.

(** What [check_params] has established when it returns. *)
Lemma check_params_Ok (kwargs : attrs) :
  check_params kwargs = Ok () ->
  (exists v b, kwargs !! "batch_size" = Some v /\ as_int v = Some b /\ (1 <= b)%Z)
  /\ (exists v, kwargs !! "bert_hub_module_handle" = Some v
                /\ (v = VNone \/ exists s, v = VStr s))
  /\ (exists v m, kwargs !! "num_monte_carlo" = Some v /\ as_int v = Some m /\ (1 <= m)%Z)
  /\ is_Some (kwargs !! "random_seed")
  /\ is_Some (kwargs !! "gpu_memory_frac")
  /\ is_Some (kwargs !! "verbose")
  /\ (exists items, kwargs !! "hidden_layer_sizes" = Some (VTuple items)).
Proof.
  unfold check_params, check_positive_int, require. intros Hcheck.
  destruct (kwargs !! "batch_size") as [vb|] eqn:Hb; [|discriminate].
  cbn [mbind result_bind] in Hcheck.
  destruct (as_int vb) as [b|] eqn:Hvb; [|discriminate].
  destruct (decide (b < 1)%Z); [discriminate|]. cbn [mbind result_bind] in Hcheck.
  destruct (kwargs !! "bert_hub_module_handle") as [vh|] eqn:Hh; [|discriminate].
  cbn [mbind result_bind] in Hcheck.
  assert (Hhandle : vh = VNone \/ exists s, vh = VStr s).
  { destruct vh; try discriminate; eauto. }
  destruct (match vh with VNone => _ | _ => _ end) as [[]|]; [|discriminate].
  cbn [mbind result_bind] in Hcheck.
  destruct (kwargs !! "max_epochs") as [ve|] eqn:He; [|discriminate].
  cbn [mbind result_bind] in Hcheck.
  destruct (as_int ve) as [e|]; [|discriminate].
  destruct (decide (e < 1)%Z); [discriminate|]. cbn [mbind result_bind] in Hcheck.
  destruct (kwargs !! "num_monte_carlo") as [vm|] eqn:Hm; [|discriminate].
  cbn [mbind result_bind] in Hcheck.
  destruct (as_int vm) as [m|] eqn:Hvm; [|discriminate].
  destruct (decide (m < 1)%Z); [discriminate|]. cbn [mbind result_bind] in Hcheck.
  destruct (kwargs !! "patience") as [vp|] eqn:Hp; [|discriminate].
  cbn [mbind result_bind] in Hcheck.
  destruct (as_int vp) as [p|]; [|discriminate].
  destruct (decide (p < 1)%Z); [discriminate|]. cbn [mbind result_bind] in Hcheck.
  destruct (kwargs !! "random_seed") as [vs|] eqn:Hs; [|discriminate].
  cbn [mbind result_bind] in Hcheck.
  destruct (match vs with VNone => _ | _ => _ end) as [[]|]; [|discriminate].
  cbn [mbind result_bind] in Hcheck.
  destruct (kwargs !! "gpu_memory_frac") as [vg|] eqn:Hg; [|discriminate].
  cbn [mbind result_bind] in Hcheck.
  destruct (match as_float vg with Some _ => _ | None => _ end) as [[]|]; [|discriminate].
  cbn [mbind result_bind] in Hcheck.
  destruct (kwargs !! "validation_fraction") as [vf|] eqn:Hf; [|discriminate].
  cbn [mbind result_bind] in Hcheck.
  destruct (match as_float vf with Some _ => _ | None => _ end) as [[]|]; [|discriminate].
  cbn [mbind result_bind] in Hcheck.
  destruct (kwargs !! "verbose") as [vv|] eqn:Hv; [|discriminate].
  cbn [mbind result_bind] in Hcheck.
  destruct (match as_int vv with Some _ => _ | None => _ end) as [[]|]; [|discriminate].
  cbn [mbind result_bind] in Hcheck.
  destruct (kwargs !! "hidden_layer_sizes") as [vz|] eqn:Hz; [|discriminate].
  cbn [mbind result_bind] in Hcheck.
  destruct vz; try discriminate.
  split_and!; eauto 10. exists vb, b. split_and!; [done | done | lia].
  exists vm, m. split_and!; [done | done | lia].
Qed.

Lemma lookup_with_graph (self : attrs) (b c : nat) (k : string) :
  k ∉ graph_attributes -> with_graph self b c !! k = self !! k.
Proof.
  unfold graph_attributes, with_graph. rewrite !not_elem_of_cons.
  intros (? & ? & ? & ? & ? & ? & ? & _). by rewrite !lookup_insert_ne.
Qed.

Lemma build_model_with_graph (self : attrs) (vb vc : value) (b c : Z) (h : string)
    (items : list Z) :
  is_Some (self !! "gpu_memory_frac") ->
  self !! "batch_size" = Some vb -> as_int vb = Some b -> (0 <= b)%Z ->
  self !! "bert_hub_module_handle" = Some (VStr h) ->
  is_Some (self !! "verbose") ->
  self !! "hidden_layer_sizes" = Some (VTuple items) ->
  is_Some (self !! "random_seed") ->
  self !! "n_classes_" = Some vc -> as_int vc = Some c -> (0 <= c)%Z ->
  build_model self = Ok (with_graph self (Z.to_nat b) (Z.to_nat c)).
Proof.
  intros [vg Hg] Hb Hvb Hb0 Hh [vv Hv] Hs [vr Hr] Hc Hvc Hc0.
  unfold build_model, getattr. rewrite Hg. cbn [mbind result_bind].
  rewrite lookup_insert_ne by done. rewrite Hb. cbn [mbind result_bind]. rewrite Hvb.
  rewrite decide_False by lia.
  rewrite !lookup_insert_ne by done. rewrite Hh. cbn [mbind result_bind].
  rewrite ?lookup_insert_ne by done. rewrite Hv. cbn [mbind result_bind].
  rewrite ?lookup_insert_ne by done. rewrite Hs. cbn [mbind result_bind].
  rewrite ?lookup_insert_ne by done. rewrite Hr. cbn [mbind result_bind].
  rewrite ?lookup_insert_ne by done. rewrite Hc. cbn [mbind result_bind]. rewrite Hvc.
  rewrite decide_False by lia. reflexivity.
Qed.

Lemma read_model_files_Ok (fs : filesystem) (w : weights) (names : list path) :
  forall params : attrs,
    (forall p, p ∈ names -> fs !! p = Some w) ->
    exists state : attrs,
      read_model_files fs names params = Ok state
      /\ forall k, state !! k
                   = if decide (k ∈ (fun p : path => "model." +:+ p.2) <$> names)
                     then Some (VBytes w) else params !! k.
Proof.
  induction names as [|cur rest IH]; intros params Hfiles; cbn [read_model_files].
  - exists params. split; [done|]. intros k. rewrite decide_False; [done | apply not_elem_of_nil].
  - rewrite (Hfiles cur) by left.
    destruct (IH (<["model." +:+ cur.2 := VBytes w]> params)) as (state & -> & Hlookup).
    { intros p Hp. apply Hfiles. by right. }
    exists state. split; [done|]. intros k. rewrite Hlookup, fmap_cons.
    destruct (decide (k = "model." +:+ cur.2)) as [->|Hne].
    + rewrite lookup_insert_eq. rewrite (decide_True (P := _ ∈ _ :: _)) by left.
      by case_decide.
    + rewrite lookup_insert_ne by done. repeat case_decide; set_solver.
Qed.

Lemma write_model_files_Ok (new_params : attrs) (tmp_dir_name : string) (w : weights)
    (model_files : list string) :
  forall fs : filesystem,
    (forall cur, cur ∈ model_files -> new_params !! ("model." +:+ cur) = Some (VBytes w)) ->
    exists fs' : filesystem,
      write_model_files new_params tmp_dir_name model_files fs = (Ok (), fs')
      /\ forall p, fs' !! p
                   = if decide (p ∈ (fun cur => (tmp_dir_name, cur)) <$> model_files)
                     then Some w else fs !! p.
Proof.
  induction model_files as [|cur rest IH]; intros fs Hkeys; cbn [write_model_files].
  - exists fs. split; [done|]. intros p. rewrite decide_False; [done | apply not_elem_of_nil].
  - rewrite (Hkeys cur) by left.
    destruct (IH (<[(tmp_dir_name, cur) := w]> fs)) as (fs' & -> & Hlookup).
    { intros c Hc. apply Hkeys. by right. }
    exists fs'. split; [done|]. intros p. rewrite Hlookup, fmap_cons.
    destruct (decide (p = (tmp_dir_name, cur))) as [->|Hne].
    + rewrite lookup_insert_eq. rewrite (decide_True (P := _ ∈ _ :: _)) by left.
      by case_decide.
    + rewrite lookup_insert_ne by done. repeat case_decide; set_solver.
Qed.

Lemma load_model_restores (self : attrs) (variables : option weights) (file_name : path)
    (fs : filesystem) (w : weights) :
  self !! "sess_" = Some (VSession variables) ->
  saver_suffixes <> [] ->
  (forall sfx, sfx ∈ saver_suffixes ->
               fs !! (file_name.1, file_name.2 +:+ sfx) = Some w) ->
  load_model self file_name fs = Ok (<["sess_" := VSession (Some w)]> self).
Proof.
  intros Hsess Hsuffixes Hfiles. unfold load_model, getattr. rewrite Hsess.
  cbn [mbind result_bind].
  destruct saver_suffixes as [|sfx rest] eqn:Hlist; [done|].
  assert (Hall : forallb (fun s => isfile fs (file_name.1, file_name.2 +:+ s)) (sfx :: rest)
                 = true).
  { apply forallb_forall. intros s Hs. apply list_elem_of_In in Hs.
    unfold isfile. apply bool_decide_eq_true_2. rewrite (Hfiles s Hs). by eexists. }
  rewrite Hall. rewrite (Hfiles sfx) by left. reflexivity.
Qed.

Lemma substring_all (s : string) : String.substring 0 (String.length s) s = s.
Proof. induction s as [|c s IH]; simpl; [done | by rewrite IH]. Qed.

Lemma after_model_prefix_app (s : string) : after_model_prefix ("model." +:+ s) = s.
Proof.
  unfold after_model_prefix.
  change ("model." +:+ s)
    with (String "m" (String "o" (String "d" (String "e" (String "l" (String "." s)))))).
  cbn [String.length Nat.sub String.substring]. rewrite Nat.sub_0_r. apply substring_all.
Qed.

Lemma length_model_key (s : string) : String.length ("model." +:+ s) = 6 + String.length s.
Proof. by rewrite string_length_app. Qed.

Lemma finalize_model_empty : finalize_model (delete "tokenizer_" (∅ : attrs)) = ∅.
Proof. unfold finalize_model. cbn [foldr]. by rewrite !delete_empty. Qed.

Lemma plain_names_not_model (k : string) :
  k ∈ "model_name_" :: "tokenizer_" :: "n_classes_" :: param_names ->
  String.prefix "model." k = false.
Proof.
  unfold param_names. intros Hin.
  repeat (apply elem_of_cons in Hin as [->|Hin]; [reflexivity|]).
  by apply elem_of_nil in Hin.
Qed.

Lemma nonempty_elem {A : Type} (l : list A) : l <> [] -> exists x, x ∈ l.
Proof. destruct l as [|x l]; [done|]. intros _. exists x. left. Qed.

Lemma filter_none {A : Type} (P : A -> Prop) `{forall x, Decision (P x)} (l : list A) :
  (forall x, x ∈ l -> ~ P x) -> filter P l = [].
Proof.
  induction l as [|x l IH]; intros Hnone; [done|].
  rewrite filter_cons, decide_False by (apply Hnone; left).
  apply IH. intros y Hy. apply Hnone. by right.
Qed.

(** X11 (the pickle round trip of an instance that is not fitted):
    [dump_all] returns the ten parameters and touches no file; [load_all]
    on a new object then gives an instance with exactly these attributes
    when [check_params] accepts them, and raises its [ValueError] otherwise:
    invalid parameters are pickled but not restored. *)
Theorem pickle_round_trip_unfitted (self kwargs : attrs) (fs : filesystem)
    (model_file_name : path) (tmp_dir_name : string) (now : Z) :
  get_params self = Ok kwargs -> is_fitted self <> Ok () ->
  dump_all self fs model_file_name = (Ok kwargs, fs)
  /\ load_all ∅ kwargs fs tmp_dir_name now
     = (match check_params kwargs with Ok _ => Ok kwargs | Raise e => Raise e end, fs).
Proof.
  intros Hget Hunfitted. split.
  - unfold dump_all. rewrite Hget. destruct (is_fitted self) as [[]|e]; done.
  - unfold load_all. destruct (check_params kwargs) as [[]|e]; [|done].
    cbv zeta. rewrite finalize_model_empty.
    assert (Hclasses : kwargs !! "n_classes_" = None).
    { apply get_params_Ok_iff in Hget as [_ ->]. rewrite lookup_restricted.
      rewrite decide_False; [done|]. unfold param_names.
      rewrite !elem_of_cons, elem_of_nil. intros Hin.
      repeat destruct Hin as [Hin|Hin]; done. }
    rewrite (bool_decide_eq_false_2 (_ /\ _)) by (rewrite Hclasses; by intros [[? ?] _]).
    cbn [andb]. unfold set_params. by rewrite (right_id_L ∅ (∪)).
Qed.

Section RoundTrip.

Variables (self : attrs) (fs : filesystem) (model_file_name : path) (now : Z).
Variables (kwargs : attrs) (w : weights) (n_classes tokenizer : value) (c : Z) (handle : string).

Hypothesis parameters_read : get_params self = Ok kwargs.
Hypothesis parameters_valid : check_params kwargs = Ok ().
Hypothesis session_initialised : self !! "sess_" = Some (VSession (Some w)).
Hypothesis classes_counted : self !! "n_classes_" = Some n_classes.
Hypothesis classes_integer : as_int n_classes = Some c /\ (0 <= c)%Z.
Hypothesis tokenizer_bound : self !! "tokenizer_" = Some tokenizer.
Hypothesis handle_given : self !! "bert_hub_module_handle" = Some (VStr handle).
Hypothesis saver_writes : saver_suffixes <> [].
Hypothesis suffixes_not_empty : Forall (fun sfx => sfx <> "") saver_suffixes.
Hypothesis names_stripped : stripped_names model_file_name.2 saver_suffixes.
Hypothesis directory_fresh : fresh_model_name fs model_file_name.

Let checkpoint_files : list path :=
  (fun sfx => (model_file_name.1, model_file_name.2 +:+ sfx)) <$> saver_suffixes.

Let saved : filesystem :=
  foldr (fun sfx fs' => <[(model_file_name.1, model_file_name.2 +:+ sfx) := w]> fs') fs
        saver_suffixes.

Let params : attrs :=
  <["model_name_" := VStr model_file_name.2]> (
  <["tokenizer_" := tokenizer]> (<["n_classes_" := n_classes]> kwargs)).

Lemma lookup_kwargs (k : string) :
  kwargs !! k = if decide (k ∈ param_names) then self !! k else None.
Proof.
  apply get_params_Ok_iff in parameters_read as [_ ->]. apply lookup_restricted.
Qed.

Lemma params_plain (k : string) :
  is_Some (params !! k) -> k ∈ "model_name_" :: "tokenizer_" :: "n_classes_" :: param_names.
Proof.
  unfold params. rewrite !lookup_insert, lookup_kwargs.
  repeat (destruct (decide (_ = k)) as [<-|?];
          [intros _; repeat first [apply list_elem_of_here | apply list_elem_of_further]|]).
  case_decide; [intros _; by do 3 right | by intros [? ?]].
Qed.

Lemma checkpoint_files_fresh (p : path) : p ∈ checkpoint_files -> fs !! p = None.
Proof.
  intros Hin. apply list_elem_of_fmap in Hin as (sfx & -> & _).
  destruct (fs !! _) eqn:Hlookup; [|done].
  destruct (directory_fresh (model_file_name.1, model_file_name.2 +:+ sfx));
    [by eexists | apply checkpoint_file_matches].
Qed.

Lemma bare_name_fresh : fs !! model_file_name = None.
Proof.
  destruct (fs !! model_file_name) eqn:Hlookup; [|done].
  destruct (directory_fresh model_file_name); [by eexists | apply model_name_is_model_file].
Qed.

Lemma save_model_saved : save_model self model_file_name fs = (Ok (), saved).
Proof. unfold save_model, getattr. by rewrite session_initialised. Qed.

Lemma lookup_saved (p : path) :
  saved !! p = if decide (p ∈ checkpoint_files) then Some w else fs !! p.
Proof. unfold saved, checkpoint_files. by rewrite lookup_written_suffixes. Qed.

Lemma saved_model_files (p : path) :
  p ∈ find_all_model_files saved model_file_name <-> p ∈ checkpoint_files.
Proof.
  rewrite elem_of_find_all_model_files, lookup_saved. split.
  - intros [Hsome Hmodel]. case_decide; [done|]. by destruct (directory_fresh p).
  - intros Hin. rewrite decide_True by done. split; [by eexists|].
    apply list_elem_of_fmap in Hin as (sfx & -> & _). apply checkpoint_file_matches.
Qed.

Lemma saved_bare_name : saved !! model_file_name = None.
Proof. apply write_suffixes_bare_name; [exact suffixes_not_empty | apply bare_name_fresh]. Qed.

Lemma saved_cleanup :
  remove_all saved (find_all_model_files saved model_file_name) = (Ok (), fs).
Proof.
  destruct (find_all_model_files_spec saved model_file_name saved_bare_name) as [Hnd Hin].
  destruct (remove_all_spec _ saved Hnd) as (fs' & -> & Hlookup).
  { intros p Hp. by apply Hin in Hp as [? _]. }
  f_equal. apply map_eq. intros p. rewrite Hlookup, lookup_saved.
  destruct (decide (p ∈ find_all_model_files saved model_file_name)) as [Hp|Hp].
  - apply saved_model_files in Hp. symmetry. by apply checkpoint_files_fresh.
  - rewrite saved_model_files in Hp. by rewrite decide_False.
Qed.

(** The dictionary [dump_all] returns for the fitted instance. *)
Lemma dump_all_state :
  is_fitted self = Ok () ->
  exists state : attrs,
    dump_all self fs model_file_name = (Ok state, fs)
    /\ (forall sfx, sfx ∈ saver_suffixes ->
                    state !! ("model." +:+ model_file_name.2 +:+ sfx) = Some (VBytes w))
    /\ (forall k, String.prefix "model." k = false -> state !! k = params !! k)
    /\ (forall k, is_Some (state !! k) -> String.prefix "model." k = true ->
                  exists sfx, sfx ∈ saver_suffixes
                              /\ k = "model." +:+ model_file_name.2 +:+ sfx).
Proof.
  intros Hfitted.
  destruct (read_model_files_Ok saved w (find_all_model_files saved model_file_name) params)
    as (state & Hread & Hlookup).
  { intros p Hp. apply saved_model_files in Hp. by rewrite lookup_saved, decide_True. }
  exists state. split_and!.
  - unfold dump_all, getattr. rewrite Hfitted, parameters_read. cbn [is_ok].
    rewrite classes_counted, tokenizer_bound, save_model_saved, saved_cleanup.
    unfold params in Hread. by rewrite Hread.
  - intros sfx Hsfx. rewrite Hlookup, decide_True; [done|].
    apply list_elem_of_fmap.
    exists (model_file_name.1, model_file_name.2 +:+ sfx). split; [done|].
    apply saved_model_files, list_elem_of_fmap. by exists sfx.
  - intros k Hplain. rewrite Hlookup, decide_False; [done|].
    intros Hin. apply list_elem_of_fmap in Hin as (p & -> & _).
    by rewrite prefix_app in Hplain.
  - intros k Hsome Hmodel. rewrite Hlookup in Hsome. case_decide as Hin.
    + apply list_elem_of_fmap in Hin as (p & -> & Hp).
      apply saved_model_files, list_elem_of_fmap in Hp as (sfx & -> & Hsfx). by exists sfx.
    + apply params_plain, plain_names_not_model in Hsome. congruence.
Qed.

Section Restore.

Variable state : attrs.

Hypothesis state_models :
  forall sfx, sfx ∈ saver_suffixes ->
              state !! ("model." +:+ model_file_name.2 +:+ sfx) = Some (VBytes w).
Hypothesis state_plain :
  forall k, String.prefix "model." k = false -> state !! k = params !! k.
Hypothesis state_keys :
  forall k, is_Some (state !! k) -> String.prefix "model." k = true ->
            exists sfx, sfx ∈ saver_suffixes /\ k = "model." +:+ model_file_name.2 +:+ sfx.

Lemma suffix_name_not_empty (sfx : string) :
  sfx ∈ saver_suffixes -> 0 < String.length (model_file_name.2 +:+ sfx).
Proof.
  intros Hin. rewrite string_length_app.
  rewrite Forall_forall in suffixes_not_empty. specialize (suffixes_not_empty sfx Hin).
  destruct sfx; [done|]. simpl. lia.
Qed.

Lemma elem_of_model_files_of (cur : string) :
  cur ∈ model_files_of state
  <-> exists sfx, sfx ∈ saver_suffixes /\ cur = model_file_name.2 +:+ sfx.
Proof.
  unfold model_files_of. rewrite list_elem_of_filter, list_elem_of_fmap. split.
  - intros (_ & k & -> & Hk). apply list_elem_of_filter in Hk as [[Hprefix _] Hk].
    apply elem_of_elements, elem_of_dom in Hk.
    destruct (state_keys k Hk Hprefix) as (sfx & Hsfx & ->).
    exists sfx. split; [done|]. rewrite after_model_prefix_app.
    unfold stripped_names in names_stripped. rewrite Forall_forall in names_stripped.
    by apply names_stripped.
  - intros (sfx & Hsfx & ->).
    assert (Hstrip : strip (model_file_name.2 +:+ sfx) = model_file_name.2 +:+ sfx).
    { unfold stripped_names in names_stripped. rewrite Forall_forall in names_stripped.
      by apply names_stripped. }
    split; [by apply suffix_name_not_empty|].
    exists ("model." +:+ model_file_name.2 +:+ sfx). split.
    + by rewrite after_model_prefix_app, Hstrip.
    + apply list_elem_of_filter. split.
      * split; [apply prefix_app|]. rewrite length_model_key.
        pose proof (suffix_name_not_empty sfx Hsfx). lia.
      * apply elem_of_elements, elem_of_dom. rewrite state_models by done. by eexists.
Qed.

Lemma state_parameter (name : string) :
  name ∈ param_names -> state !! name = self !! name.
Proof.
  intros Hin. rewrite state_plain by (apply plain_names_not_model; by do 3 right).
  unfold params. rewrite !lookup_insert_ne.
  - by rewrite lookup_kwargs, decide_True.
  - intros <-. revert Hin. unfold param_names. rewrite !elem_of_cons, elem_of_nil.
    intros Hin. repeat destruct Hin as [Hin|Hin]; done.
  - intros <-. revert Hin. unfold param_names. rewrite !elem_of_cons, elem_of_nil.
    intros Hin. repeat destruct Hin as [Hin|Hin]; done.
  - intros <-. revert Hin. unfold param_names. rewrite !elem_of_cons, elem_of_nil.
    intros Hin. repeat destruct Hin as [Hin|Hin]; done.
Qed.

Lemma state_valid : check_params state = Ok ().
Proof.
  rewrite <- parameters_valid. apply check_params_ext. intros name Hin.
  by rewrite state_parameter, lookup_kwargs, decide_True.
Qed.

Lemma state_classes : state !! "n_classes_" = Some n_classes.
Proof. rewrite state_plain by done. unfold params. by rewrite lookup_insert_ne, lookup_insert_ne, lookup_insert_eq. Qed.

Lemma state_tokenizer : state !! "tokenizer_" = Some tokenizer.
Proof. rewrite state_plain by done. unfold params. by rewrite lookup_insert_ne, lookup_insert_eq. Qed.

Lemma state_model_name : state !! "model_name_" = Some (VStr model_file_name.2).
Proof. rewrite state_plain by done. unfold params. by rewrite lookup_insert_eq. Qed.

Lemma load_all_restores :
  exists self' : attrs,
    load_all ∅ state fs model_file_name.1 now = (Ok self', fs)
    /\ self' !! "sess_" = Some (VSession (Some w))
    /\ (forall k, k ∉ graph_attributes -> k <> "random_seed" -> k <> "n_classes_" ->
                  k <> "tokenizer_" -> self' !! k = state !! k)
    /\ self' !! "n_classes_" = Some n_classes
    /\ self' !! "tokenizer_" = Some tokenizer
    /\ self' !! "random_seed"
       = match self !! "random_seed" with
         | Some VNone => Some (VInt now)
         | seed => seed
         end
    /\ (forall k, k ∈ graph_attributes -> is_Some (self' !! k)).
Proof.
  destruct (check_params_Ok kwargs parameters_valid)
    as ((vb & b & Hb & Hvb & Hb1) & _ & _ & [vr Hr] & Hg & Hv & (items & Hs)).
  destruct classes_integer as [Hvc Hc0].
  assert (Hkw : forall name v, kwargs !! name = Some v -> state !! name = Some v).
  { intros name v Hname. rewrite state_parameter; [by rewrite <- Hname, lookup_kwargs, decide_True
      by (rewrite lookup_kwargs in Hname; by case_decide)|].
    rewrite lookup_kwargs in Hname. by case_decide. }
  assert (Hseed : self !! "random_seed" = Some vr).
  { rewrite lookup_kwargs in Hr. by case_decide. }
  set (model_files := model_files_of state).
  set (tmp_file_names := (fun cur => (model_file_name.1, cur)) <$> model_files).
  assert (Htmp : forall p, p ∈ tmp_file_names <-> p ∈ checkpoint_files).
  { intros p. unfold tmp_file_names, checkpoint_files. rewrite !list_elem_of_fmap. split.
    - intros (cur & -> & Hcur). apply elem_of_model_files_of in Hcur as (sfx & Hsfx & ->).
      by exists sfx.
    - intros (sfx & -> & Hsfx). exists (model_file_name.2 +:+ sfx). split; [done|].
      apply elem_of_model_files_of. by exists sfx. }
  destruct (write_model_files_Ok state model_file_name.1 w model_files fs)
    as (written & Hwrite & Hwritten).
  { intros cur Hcur. apply elem_of_model_files_of in Hcur as (sfx & Hsfx & ->).
    by apply state_models. }
  set (restored := set_params ∅ state).
  set (counted := <["tokenizer_" := tokenizer]> (<["n_classes_" := n_classes]> restored)).
  set (seeded := match vr with
                 | VNone => <["random_seed" := VInt now]> counted
                 | _ => counted
                 end).
  assert (Hrestored : forall k, restored !! k = state !! k).
  { intros k. unfold restored, set_params. by rewrite lookup_union, lookup_empty, right_id_L by apply _. }
  assert (Hseeded : forall k, k <> "random_seed" -> seeded !! k = counted !! k).
  { intros k Hk. unfold seeded. destruct vr; try done. by rewrite lookup_insert_ne. }
  assert (Hseeded' : seeded !! "random_seed"
                     = match vr with VNone => Some (VInt now) | _ => Some vr end).
  { unfold seeded, counted. destruct vr; rewrite ?lookup_insert_eq; try done;
      rewrite !lookup_insert_ne, Hrestored by done; by apply Hkw. }
  assert (Hcounted : forall k, k <> "tokenizer_" -> k <> "n_classes_" ->
                               counted !! k = state !! k).
  { intros k Ht Hn. unfold counted. by rewrite !lookup_insert_ne, Hrestored. }
  assert (Hbuild : build_model seeded = Ok (with_graph seeded (Z.to_nat b) (Z.to_nat c))).
  { destruct Hg as [vg Hg]. destruct Hv as [vv Hv].
    apply (build_model_with_graph seeded vb n_classes b c handle items).
    - rewrite Hseeded, Hcounted by done. rewrite (Hkw _ _ Hg). by eexists.
    - rewrite Hseeded, Hcounted by done. by apply Hkw.
    - done.
    - lia.
    - rewrite Hseeded, Hcounted by done. rewrite state_parameter by param_name. done.
    - rewrite Hseeded, Hcounted by done. rewrite (Hkw _ _ Hv). by eexists.
    - rewrite Hseeded, Hcounted by done. by apply Hkw.
    - rewrite Hseeded'. destruct vr; by eexists.
    - rewrite Hseeded by done. unfold counted.
      by rewrite lookup_insert_ne, lookup_insert_eq.
    - done.
    - done. }
  assert (Hload : load_model (with_graph seeded (Z.to_nat b) (Z.to_nat c))
                    (model_file_name.1, model_file_name.2) written
                  = Ok (<["sess_" := VSession (Some w)]>
                          (with_graph seeded (Z.to_nat b) (Z.to_nat c)))).
  { apply (load_model_restores _ None); [unfold with_graph; rewrite !lookup_insert_ne by done; apply lookup_insert_eq | done |].
    intros sfx Hsfx. cbn [fst snd]. rewrite Hwritten, decide_True; [done|].
    apply Htmp, list_elem_of_fmap. by exists sfx. }
  exists (<["sess_" := VSession (Some w)]> (with_graph seeded (Z.to_nat b) (Z.to_nat c))).
  split_and!.
  - unfold load_all. rewrite state_valid. cbv zeta. rewrite finalize_model_empty.
    rewrite (bool_decide_eq_true_2 (_ /\ _))
      by (rewrite state_classes, state_tokenizer, state_model_name; split_and!; by eexists).
    rewrite (bool_decide_eq_false_2 (length (model_files_of state) = 0)).
    2:{ destruct (nonempty_elem _ saver_writes) as [sfx Hsfx].
        assert (Hin : model_file_name.2 +:+ sfx ∈ model_files_of state).
        { apply elem_of_model_files_of. by exists sfx. }
        destruct (model_files_of state); [by apply elem_of_nil in Hin | done]. }
    cbn [andb negb]. fold model_files. fold tmp_file_names.
    rewrite (filter_none (fun cur => isfile fs cur = true)).
    2:{ intros p Hp. apply Htmp, checkpoint_files_fresh in Hp. unfold isfile.
        rewrite bool_decide_eq_false_2; [done|]. rewrite Hp. by intros [? ?]. }
    fold restored. unfold getattr.
    rewrite state_classes, state_tokenizer, state_model_name, Hrestored, (Hkw _ _ Hr).
    rewrite Hwrite. fold counted. fold seeded.
    rewrite Hbuild. cbn [mbind result_bind].
    rewrite Hload. f_equal.
    apply map_eq. intros p. rewrite lookup_remove_existing, Hwritten.
    unfold tmp_file_names.
    destruct (decide (p ∈ (fun cur => (model_file_name.1, cur)) <$> model_files))
      as [Hin|Hin]; [|done].
    symmetry. by apply checkpoint_files_fresh, Htmp.
  - apply lookup_insert_eq.
  - intros k Hgraph Hseed' Hn Ht.
    rewrite lookup_insert_ne.
    + by rewrite lookup_with_graph, Hseeded, Hcounted.
    + intros <-. apply Hgraph. unfold graph_attributes.
      repeat first [apply list_elem_of_here | apply list_elem_of_further].
  - rewrite lookup_insert_ne, lookup_with_graph, Hseeded by (try done; not_graph_attribute).
    unfold counted. by rewrite lookup_insert_ne, lookup_insert_eq.
  - rewrite lookup_insert_ne, lookup_with_graph, Hseeded by (try done; not_graph_attribute).
    unfold counted. by rewrite lookup_insert_eq.
  - rewrite lookup_insert_ne, lookup_with_graph by (try done; not_graph_attribute).
    rewrite Hseeded', Hseed. by destruct vr.
  - intros k Hk. unfold graph_attributes in Hk. unfold with_graph.
    repeat (apply elem_of_cons in Hk as [->|Hk];
            [rewrite ?lookup_insert_eq, ?lookup_insert_ne by done;
             rewrite ?lookup_insert_eq; by eexists|]).
    by apply elem_of_nil in Hk.
Qed.

End Restore.

(** X12 ([dump_all] then [load_all], the pickle round trip): for a fitted
    instance with valid parameters and an initialised session, pickling into
    a directory without files of the model name returns a state and leaves
    no file of the model name behind; restoring a new object from that state
    in the directory as [dump_all] left it succeeds, gives the directory back
    as it found it, and yields an instance whose session holds the variables
    of the original session, with the same parameters, [n_classes_] and
    tokenizer, and with every fitted attribute except
    [certainty_threshold_]. The model name is not the name [checkpoint] of
    the state file that the saver keeps in the directory. *)
Theorem pickle_round_trip_restores_model :
  model_file_name.2 <> "checkpoint" -> is_fitted self = Ok () ->
  let left_by_dump_all := (dump_all self fs model_file_name).2 in
  exists state self' : attrs,
    (dump_all self fs model_file_name).1 = Ok state
    /\ fresh_model_name left_by_dump_all model_file_name
    /\ load_all ∅ state left_by_dump_all model_file_name.1 now = (Ok self', left_by_dump_all)
    /\ self' !! "sess_" = Some (VSession (Some w))
    /\ self' !! "n_classes_" = self !! "n_classes_"
    /\ self' !! "tokenizer_" = self !! "tokenizer_"
    /\ (forall name, name ∈ param_names -> name <> "random_seed" ->
                     self' !! name = self !! name)
    /\ self' !! "random_seed"
       = match self !! "random_seed" with
         | Some VNone => Some (VInt now)
         | seed => seed
         end
    /\ (forall name, name ∈ fitted_attributes -> name <> "certainty_threshold_" ->
                     is_Some (self' !! name)).
Proof.
  intros _ Hfitted left_by_dump_all.
  destruct (dump_all_state Hfitted) as (state & Hdump & Hmodels & Hplain & Hkeys).
  destruct (load_all_restores state Hmodels Hplain Hkeys)
    as (self' & Hload & Hsess & Hother & Hclasses & Htokenizer & Hseed & Hgraph).
  unfold left_by_dump_all. rewrite Hdump. cbn [fst snd].
  exists state, self'. split_and!; try done.
  - by rewrite classes_counted.
  - by rewrite tokenizer_bound.
  - intros name Hin Hne. rewrite Hother.
    + by apply state_parameter.
    + revert Hin. unfold param_names, graph_attributes.
      rewrite !elem_of_cons, !elem_of_nil.
      intros Hin Hgr. repeat destruct Hin as [->|Hin]; try done;
        repeat (destruct Hgr as [Hgr|Hgr]; [discriminate Hgr|]); done.
    + done.
    + intros ->. revert Hin. unfold param_names. rewrite !elem_of_cons, elem_of_nil.
      intros Hin. repeat destruct Hin as [Hin|Hin]; done.
    + intros ->. revert Hin. unfold param_names. rewrite !elem_of_cons, elem_of_nil.
      intros Hin. repeat destruct Hin as [Hin|Hin]; done.
  - intros name Hin Hne. unfold fitted_attributes in Hin.
    repeat (apply elem_of_cons in Hin as [->|Hin];
            [first [done
                   | by rewrite Hclasses
                   | by rewrite Htokenizer
                   | apply Hgraph; unfold graph_attributes;
                     repeat first [apply list_elem_of_here | apply list_elem_of_further]]|]).
    by apply elem_of_nil in Hin.
Qed.

End RoundTrip.

End RoundTripFacts.

Lemma pickle_round_trip_restores_model_witness :
  let kwargs := value_or (∅ : attrs) (get_params toy_fitted) in
  get_params toy_fitted = Ok kwargs
  /\ check_params kwargs = Ok ()
  /\ is_fitted toy_fitted = Ok ()
  /\ toy_tmp_model_name.2 <> "checkpoint"
  /\ let left_by_dump_all :=
       (dump_all (H := toy_collaborators) toy_fitted ∅ toy_tmp_model_name).2 in
     exists state self' : attrs,
      (dump_all (H := toy_collaborators) toy_fitted ∅ toy_tmp_model_name).1 = Ok state
      /\ fresh_model_name left_by_dump_all toy_tmp_model_name
      /\ load_all (H := toy_collaborators) ∅ state left_by_dump_all toy_tmp_model_name.1 0
         = (Ok self', left_by_dump_all)
      /\ self' !! "sess_" = Some (VSession (Some [1%Z]))
      /\ self' !! "n_classes_" = toy_fitted !! "n_classes_"
      /\ self' !! "tokenizer_" = toy_fitted !! "tokenizer_"
      /\ (forall name, name ∈ param_names -> name <> "random_seed" ->
                       self' !! name = toy_fitted !! name)
      /\ self' !! "random_seed"
         = match toy_fitted !! "random_seed" with
           | Some VNone => Some (VInt 0)
           | seed => seed
           end
      /\ (forall name, name ∈ fitted_attributes -> name <> "certainty_threshold_" ->
                       is_Some (self' !! name)).
Proof.
  intros kwargs.
  assert (Hget : get_params toy_fitted = Ok kwargs)
    by (apply result_eta; vm_compute; reflexivity).
  assert (Hcheck : check_params kwargs = Ok ()) by (vm_compute; reflexivity).
  assert (Hfitted : is_fitted toy_fitted = Ok ()) by (vm_compute; reflexivity).
  split; [exact Hget|]. split; [exact Hcheck|]. split; [exact Hfitted|].
  split; [discriminate|].
  apply (pickle_round_trip_restores_model (H := toy_collaborators) toy_fitted ∅
           toy_tmp_model_name 0 kwargs [1%Z] (VInt 2) (VTokenizer "vocab.txt" true) 2
           "https://tfhub.dev/google/bert_uncased_L-12_H-768_A-12/1").
  - exact Hget.
  - exact Hcheck.
  - vm_compute; reflexivity.
  - vm_compute; reflexivity.
  - split; [reflexivity | lia].
  - vm_compute; reflexivity.
  - vm_compute; reflexivity.
  - discriminate.
  - repeat constructor; discriminate.
  - unfold stripped_names. repeat constructor; vm_compute; reflexivity.
  - intros p [data Hp]. by rewrite lookup_empty in Hp.
  - discriminate.
  - exact Hfitted.
Defined.

Lemma pickle_round_trip_unfitted_witness :
  let kwargs := value_or (∅ : attrs) (get_params toy_trained) in
  get_params toy_trained = Ok kwargs
  /\ is_fitted toy_trained <> Ok ()
  /\ dump_all (H := toy_collaborators) toy_trained ∅ toy_tmp_model_name = (Ok kwargs, ∅)
  /\ load_all (H := toy_collaborators) ∅ kwargs ∅ "/tmp" 0
     = (match check_params kwargs with Ok _ => Ok kwargs | Raise e => Raise e end, ∅).
Proof.
  intros kwargs.
  assert (Hget : get_params toy_trained = Ok kwargs)
    by (apply result_eta; vm_compute; reflexivity).
  assert (Hunfitted : is_fitted toy_trained <> Ok ()) by (vm_compute; discriminate).
  split; [exact Hget|]. split; [exact Hunfitted|].
  exact (pickle_round_trip_unfitted (H := toy_collaborators) toy_trained kwargs ∅
           toy_tmp_model_name "/tmp" 0 Hget Hunfitted).
Defined.


(** * Tokenization *)

Section TokenizeFacts.

Context `{Collaborators}.

(** [convert_tokens_to_ids] gives one id for each token. *)
Hypothesis ids_per_token :
  forall vocab_file do_lower_case tokens,
    length (tokenizer_convert_tokens_to_ids vocab_file do_lower_case tokens) = length tokens.

Lemma length_framed_tokens (vocab_file : string) (do_lower_case : bool) (text : string) :
  length (framed_tokens vocab_file do_lower_case text)
  = Nat.min (MAX_SEQ_LENGTH - 2) (length (tokenizer_tokenize vocab_file do_lower_case text)) + 2.
Proof. unfold framed_tokens. rewrite !length_app, length_take. simpl length. lia. Qed.

Lemma length_zero_padded (values : list Z) :
  length values <= MAX_SEQ_LENGTH -> length (zero_padded values) = MAX_SEQ_LENGTH.
Proof. intros Hle. unfold zero_padded. rewrite length_app, repeat_length. lia. Qed.

Lemma tokenize_text_rows (vocab_file : string) (do_lower_case : bool) (source_text : string) :
  tokenize_text vocab_file do_lower_case source_text
  = Ok (zero_padded (tokenizer_convert_tokens_to_ids vocab_file do_lower_case
                       (framed_tokens vocab_file do_lower_case source_text)),
        zero_padded (repeat 1%Z (length (framed_tokens vocab_file do_lower_case source_text))),
        zero_row).
Proof.
  unfold tokenize_text.
  assert (Hcut : (if decide (MAX_SEQ_LENGTH - 2
                             < length (tokenizer_tokenize vocab_file do_lower_case source_text))
                  then take (MAX_SEQ_LENGTH - 2)
                            (tokenizer_tokenize vocab_file do_lower_case source_text)
                  else tokenizer_tokenize vocab_file do_lower_case source_text)
                 = take (MAX_SEQ_LENGTH - 2)
                        (tokenizer_tokenize vocab_file do_lower_case source_text)).
  { case_decide; [done|]. symmetry. apply take_ge. lia. }
  cbv zeta. rewrite Hcut. fold (framed_tokens vocab_file do_lower_case source_text).
  pose proof (length_framed_tokens vocab_file do_lower_case source_text) as Hlen.
  assert (Hmax : MAX_SEQ_LENGTH = 512) by reflexivity.
  rewrite decide_False by (rewrite ids_per_token; lia).
  unfold zero_padded. by rewrite repeat_length, ids_per_token.
Qed.

Lemma mapM_total {A B : Type} (f : A -> result B) (g : A -> B) (l : list A) :
  (forall a, f a = Ok (g a)) -> mapM f l = Ok (g <$> l).
Proof.
  intros Hf. induction l as [|a l IH]; [done|].
  cbn [mapM]. rewrite Hf, IH. reflexivity.
Qed.

Lemma tokenize_all_Ok (self : attrs) (X : list string) (vocab_file : string)
    (do_lower_case : bool) :
  self !! "tokenizer_" = Some (VTokenizer vocab_file do_lower_case) ->
  tokenize_all self X
  = Ok [Arr2 MAX_SEQ_LENGTH
          ((fun text =>
              zero_padded (tokenizer_convert_tokens_to_ids vocab_file do_lower_case
                             (framed_tokens vocab_file do_lower_case text))) <$> X);
        Arr2 MAX_SEQ_LENGTH
          ((fun text =>
              zero_padded (repeat 1%Z (length (framed_tokens vocab_file do_lower_case text))))
             <$> X);
        Arr2 MAX_SEQ_LENGTH ((fun _ => zero_row) <$> X)].
Proof.
  intros Htokenizer.
  unfold tokenize_all, getattr. rewrite Htokenizer. cbn [mbind result_bind].
  rewrite (mapM_total _ _ _ (tokenize_text_rows vocab_file do_lower_case)).
  cbn [mbind result_bind]. rewrite <- !list_fmap_compose. reflexivity.
Qed.


End TokenizeFacts.

Section LabeledRowsFacts.

Context `{Collaborators}.

Lemma tokenize_all_three (self : attrs) (X : list string) (X_tokenized : list ndarray) :
  tokenize_all self X = Ok X_tokenized ->
  exists r0 r1 r2,
    X_tokenized = [Arr2 MAX_SEQ_LENGTH r0; Arr2 MAX_SEQ_LENGTH r1; Arr2 MAX_SEQ_LENGTH r2]
    /\ length r0 = length X /\ length r1 = length X /\ length r2 = length X.
Proof.
  unfold tokenize_all. intros Htok. inv_bind Htok as tokenizer Htokenizer.
  destruct tokenizer; try discriminate. inv_bind Htok as rows Hrows.
  apply mapM_Ok_length in Hrows. injection Htok as <-.
  eexists _, _, _. split; [reflexivity|]. by rewrite !length_fmap.
Qed.

(** Picking the rows at the positions of the labels that satisfy [P] is
    filtering the rows by their labels. *)
Lemma select_by_label {A : Type} (P : Z -> Prop) `{forall z, Decision (P z)}
    (get : nat -> option A) (rows : list A) :
  forall (labels : list Z) (k : nat),
    (forall i r, rows !! i = Some r -> get (k + i) = Some r) ->
    length rows = length labels ->
    mapM (fun i => match get i with Some r => Ok r | None => Raise IndexError end)
         (fst <$> filter (fun il : nat * Z => P il.2) (zip (seq k (length rows)) labels))
    = Ok (fst <$> filter (fun rl : A * Z => P rl.2) (zip rows labels)).
Proof.
  induction rows as [|r rows IH]; intros labels k Hget Hlen; [done|].
  destruct labels as [|l labels]; [done|]. injection Hlen as Hlen.
  change (zip (r :: rows) (l :: labels)) with ((r, l) :: zip rows labels).
  change (zip (seq k (length (r :: rows))) (l :: labels))
    with ((k, l) :: zip (seq (S k) (length rows)) labels).
  rewrite !filter_cons. cbn [snd].
  assert (Hrest : mapM (fun i => match get i with Some r => Ok r | None => Raise IndexError end)
                    (fst <$> filter (fun il : nat * Z => P il.2)
                                    (zip (seq (S k) (length rows)) labels))
                  = Ok (fst <$> filter (fun rl : A * Z => P rl.2) (zip rows labels))).
  { apply IH; [|done]. intros i r' Hi. replace (S k + i) with (k + S i) by lia.
    by apply Hget. }
  destruct (decide (P l)) as [Hl|Hl]; [|exact Hrest].
  rewrite !fmap_cons. cbn [fst mapM].
  assert (Hhead : get k = Some r).
  { replace k with (k + 0) by lia. by apply Hget. }
  rewrite Hhead. cbn [mbind result_bind]. rewrite Hrest. reflexivity.
Qed.

Lemma zip_take_length {A B : Type} (l : list A) (k : list B) :
  zip l (take (length l) k) = zip l k.
Proof.
  revert k. induction l as [|a l IH]; intros [|b k]; try done.
  cbn [length take]. change (zip (a :: l) (b :: ?k')) with ((a, b) :: zip l k').
  by rewrite IH.
Qed.

Lemma filter_zip_diagonal (P : Z -> Prop) `{forall z, Decision (P z)} (l : list Z) :
  fst <$> filter (fun rl : Z * Z => P rl.2) (zip l l) = filter P l.
Proof.
  induction l as [|a l IH]; [done|].
  change (zip (a :: l) (a :: l)) with ((a, a) :: zip l l).
  rewrite !filter_cons. cbn [snd]. case_decide; [|done].
  rewrite fmap_cons. cbn [fst]. by rewrite IH.
Qed.

Lemma filter_zip_all {A : Type} (P : Z -> Prop) `{forall z, Decision (P z)}
    (rows : list A) :
  forall labels : list Z,
    length rows = length labels -> Forall P labels ->
    fst <$> filter (fun rl : A * Z => P rl.2) (zip rows labels) = rows.
Proof.
  induction rows as [|r rows IH]; intros [|l labels] Hlen Hall; try done.
  injection Hlen as Hlen. apply Forall_cons in Hall as [Hl Hall].
  change (zip (r :: rows) (l :: labels)) with ((r, l) :: zip rows labels).
  rewrite filter_cons. cbn [snd]. rewrite decide_True by done.
  rewrite fmap_cons. cbn [fst]. by rewrite IH.
Qed.

Lemma filter_zip_none {A : Type} (P : Z -> Prop) `{forall z, Decision (P z)}
    (rows : list A) :
  forall labels : list Z,
    length rows = length labels ->
    length (fst <$> filter (fun rl : A * Z => P rl.2) (zip rows labels)) = 0
    <-> Forall (fun l => ~ P l) labels.
Proof.
  induction rows as [|r rows IH]; intros [|l labels] Hlen; try done.
  injection Hlen as Hlen.
  change (zip (r :: rows) (l :: labels)) with ((r, l) :: zip rows labels).
  rewrite filter_cons, Forall_cons. cbn [snd]. case_decide as Hl.
  - rewrite fmap_cons. cbn [length]. split; [lia | tauto].
  - rewrite IH by done. tauto.
Qed.

Lemma py_getitems_range {A : Type} (l : list A) (n : nat) :
  forall k, k + n <= length l -> py_getitems l (seq k n) = Ok (take n (drop k l)).
Proof.
  unfold py_getitems. induction n as [|n IH]; intros k Hle; [done|].
  cbn [seq mapM]. destruct (lookup_lt_is_Some_2 l k ltac:(lia)) as [a Ha].
  rewrite Ha. cbn [mbind result_bind]. rewrite IH by lia. cbn [mbind result_bind].
  by rewrite (drop_S l a k Ha).
Qed.

Lemma py_getitems_short {A : Type} (l : list A) (n : nat) :
  forall k, k <= length l -> length l < k + n -> py_getitems l (seq k n) = Raise IndexError.
Proof.
  unfold py_getitems. induction n as [|n IH]; intros k Hk Hlt; [lia|].
  cbn [seq mapM]. destruct (l !! k) as [a|] eqn:Ha.
  - cbn [mbind result_bind]. apply lookup_lt_Some in Ha. rewrite IH by lia. done.
  - done.
Qed.

Lemma wrap_int32_small (z : Z) : (- 2 ^ 31 <= z < 2 ^ 31)%Z -> wrap_int32 z = z.
Proof. intros Hz. unfold wrap_int32. rewrite Z.mod_small by lia. lia. Qed.

(** Storing labels that are not negative: the first one that does not fit
    a C long raises. *)
Lemma mapM_np_int32_of_int (labels : list Z) :
  Forall (fun label => (0 <= label)%Z) labels ->
  mapM np_int32_of_int labels
  = if decide (Forall (fun label => (label < 2 ^ 63)%Z) labels)
    then Ok (wrap_int32 <$> labels) else Raise OverflowError.
Proof.
  induction 1 as [|label labels Hlabel _ IH]; [done|].
  cbn [mapM]. rewrite IH. clear IH.
  destruct (decide (label < 2 ^ 63)%Z) as [Hfits|Hbig].
  - replace (np_int32_of_int label) with (Ok (wrap_int32 label) : result Z)
      by (unfold np_int32_of_int; rewrite decide_True; [done | lia]).
    cbn [mbind result_bind].
    destruct (decide (Forall _ labels)) as [Hall|Hnot]; cbn [mbind result_bind].
    + rewrite decide_True; [done|]. by constructor.
    + rewrite decide_False; [done|]. intros Hall. apply Hnot.
      by apply Forall_cons in Hall as [_ ?].
  - replace (np_int32_of_int label) with (Raise OverflowError : result Z)
      by (unfold np_int32_of_int; rewrite decide_False; [done | lia]).
    cbn [mbind result_bind].
    rewrite decide_False; [done|]. intros Hall. by apply Forall_cons in Hall as [? _].
Qed.

(** A label of 32 bits and more loses its high bits in the array of line
    481: [2^31] is stored as [-2^31]; a label of 64 bits and more is
    refused. *)
Example np_int32_of_int_example :
  np_int32_of_int 5 = Ok 5%Z
  /\ np_int32_of_int 2147483648 = Ok (-2147483648)%Z
  /\ np_int32_of_int (2 ^ 63) = Raise OverflowError.
Proof. vm_compute. done. Qed.

(** X14 ([tokenize_all] with labels): once the texts are tokenized, the
    samples are split by the sign of their labels, both parts in the order
    of the samples: the rows and labels of the samples whose label is not
    negative are returned as training data, the rows of the others as
    unlabeled data, or [None] when there are none. The labels are stored as
    32-bit integers: a label below [2^31] is kept as it is, a greater one
    that fits 64 bits keeps its 32 low bits only, and one that does not fit
    raises [OverflowError]. When every label is negative a [ValueError] is
    raised, and labels that are fewer than the texts end in an
    [IndexError]. *)
Theorem tokenize_all_with_labels_partition (self : attrs) (X : list string) (y : list Z)
    (r0 r1 r2 : list (list Z)) :
  tokenize_all self X
  = Ok [Arr2 MAX_SEQ_LENGTH r0; Arr2 MAX_SEQ_LENGTH r1; Arr2 MAX_SEQ_LENGTH r2] ->
  let labels := take (length X) y in
  let labels_of_labeled_samples := filter (fun label => (0 <= label)%Z) labels in
  (length y < length X -> tokenize_all_with_labels self X y = Raise IndexError)
  /\ (length X <= length y ->
      tokenize_all_with_labels self X y
      = if decide (Forall (fun label => ~ (0 <= label)%Z) labels)
        then Raise (ValueError MsgNoLabeledSamples)
        else if decide (Forall (fun label => (label < 2 ^ 63)%Z) labels_of_labeled_samples)
        then Ok ([Arr2 MAX_SEQ_LENGTH (labeled_rows r0 y);
                  Arr2 MAX_SEQ_LENGTH (labeled_rows r1 y);
                  Arr2 MAX_SEQ_LENGTH (labeled_rows r2 y)],
                 Arr1 (wrap_int32 <$> labels_of_labeled_samples),
                 if decide (Forall (fun label => (0 <= label)%Z) labels) then None
                 else Some [Arr2 MAX_SEQ_LENGTH (unlabeled_rows r0 y);
                            Arr2 MAX_SEQ_LENGTH (unlabeled_rows r1 y);
                            Arr2 MAX_SEQ_LENGTH (unlabeled_rows r2 y)])
        else Raise OverflowError)
  /\ (Forall (fun label => (label < 2 ^ 31)%Z) labels_of_labeled_samples ->
      wrap_int32 <$> labels_of_labeled_samples = labels_of_labeled_samples).
Proof.
  intros Htok labels kept.
  destruct (tokenize_all_three _ _ _ Htok) as (r0' & r1' & r2' & [= <- <- <-] & H0 & H1 & H2).
  assert (Hkept : Forall (fun label => (0 <= label)%Z) kept).
  { apply Forall_forall. intros label Hin. by apply list_elem_of_filter in Hin as [? _]. }
  unfold tokenize_all_with_labels. rewrite Htok. cbn [mbind result_bind]. split_and!.
  - intros Hshort. rewrite py_getitems_short by lia. done.
  - intros Hlong. rewrite py_getitems_range by lia. rewrite drop_0. fold labels.
    cbn [mbind result_bind].
    assert (Hlabels : length labels = length X) by (unfold labels; rewrite length_take; lia).
    assert (Hrows : forall (P : Z -> Prop) `{forall z, Decision (P z)} (rs : list (list Z)),
               length rs = length X ->
               np_take (Arr2 MAX_SEQ_LENGTH rs)
                 (fst <$> filter (fun il : nat * Z => P il.2) (zip (seq 0 (length X)) labels))
               = Ok (Arr2 MAX_SEQ_LENGTH
                       (fst <$> filter (fun rl : list Z * Z => P rl.2) (zip rs y)))).
    { intros P HP rs Hrs. unfold np_take. rewrite <- Hrs.
      rewrite (select_by_label P (fun i => rs !! i) rs labels 0); [|done|lia].
      cbn [mbind result_bind]. unfold labels. by rewrite <- Hrs, zip_take_length. }
    assert (Hy : py_getitems y
                   (fst <$> filter (fun il : nat * Z => (0 <= il.2)%Z)
                                   (zip (seq 0 (length X)) labels))
                 = Ok kept).
    { unfold py_getitems. rewrite <- Hlabels.
      rewrite (select_by_label (fun l => (0 <= l)%Z) (fun i => y !! i) labels labels 0);
        [by rewrite filter_zip_diagonal | | done].
      intros i r Hi. unfold labels in Hi. apply lookup_take_Some in Hi as [Hi _]. done. }
    assert (Hnone : forall P `{forall z, Decision (P z)},
               length (fst <$> filter (fun il : nat * Z => P il.2)
                                      (zip (seq 0 (length X)) labels)) = 0
               <-> Forall (fun l => ~ P l) labels).
    { intros P HP. apply filter_zip_none. by rewrite length_seq. }
    pose proof (Hnone (fun l => (0 <= l)%Z) _) as [Hlabeled1 Hlabeled2].
    pose proof (Hnone (fun l => ~ (0 <= l)%Z) _) as [Hunlabeled1 Hunlabeled2].
    cbv beta in Hlabeled1, Hlabeled2, Hunlabeled1, Hunlabeled2.
    destruct (decide (length (fst <$> filter (fun il : nat * Z => (0 <= il.2)%Z)
                                          (zip (seq 0 (length X)) labels)) = 0))
      as [Hnolabel|Hlabel].
    + pose proof (Hlabeled1 Hnolabel) as Hnot.
      by rewrite decide_True.
    + rewrite decide_False
        by (intros Hnot; apply Hlabel; by apply Hlabeled2).
      rewrite Hy. cbn [mbind result_bind].
      rewrite (mapM_np_int32_of_int kept Hkept).
      destruct (decide (Forall (fun label => (label < 2 ^ 63)%Z) kept)) as [Hfit|Hbig];
        [|done].
      cbn [mbind result_bind].
      destruct (decide (length (fst <$> filter (fun il : nat * Z => ~ (0 <= il.2)%Z)
                                            (zip (seq 0 (length X)) labels)) = 0))
        as [Hnounlabeled|Hunlabeled].
      * pose proof (Hunlabeled1 Hnounlabeled) as Hnot.
        assert (Hall : Forall (fun label => (0 <= label)%Z) labels).
        { eapply Forall_impl; [exact Hnot|]. intros l Hl. simpl in Hl. lia. }
        rewrite decide_True by done. unfold labeled_rows.
        rewrite <- (zip_take_length r0 y), <- (zip_take_length r1 y),
          <- (zip_take_length r2 y). rewrite H0, H1, H2. fold labels.
        rewrite !filter_zip_all by (done || lia). reflexivity.
      * rewrite decide_False.
        2:{ intros Hall. apply Hunlabeled.
            apply Hunlabeled2.
            eapply Forall_impl; [exact Hall|]. intros l Hl Hneg. by apply Hneg. }
        pose proof (Hrows (fun l => (0 <= l)%Z) _) as Hrows_labeled.
        pose proof (Hrows (fun l => ~ (0 <= l)%Z) _) as Hrows_unlabeled.
        cbv beta in Hrows_labeled, Hrows_unlabeled.
        cbn [mapM]. rewrite !Hrows_unlabeled by done. cbn [mbind result_bind].
        rewrite !Hrows_labeled by done. cbn [mbind result_bind]. reflexivity.
  - intros Hsmall. clear Htok. induction kept as [|label kept IH]; [done|].
    apply Forall_cons in Hkept as [? ?]. apply Forall_cons in Hsmall as [? ?].
    cbn [fmap list_fmap]. rewrite wrap_int32_small by lia. f_equal. by apply IH.
Qed.

End LabeledRowsFacts.

Lemma toy_ids_per_token (vocab_file : string) (do_lower_case : bool) (tokens : list string) :
  length (tokenizer_convert_tokens_to_ids (Collaborators := toy_collaborators)
            vocab_file do_lower_case tokens) = length tokens.
Proof. simpl. apply length_fmap. Qed.


Lemma tokenize_all_with_labels_partition_witness :
  let X := ["a"; "b"; "c"] in
  let y := [1; -1; 0]%Z in
  let tokens := framed_tokens (H := toy_collaborators) "vocab.txt" true in
  let r0 := (fun text =>
               zero_padded (tokenizer_convert_tokens_to_ids
                              (Collaborators := toy_collaborators) "vocab.txt" true
                              (tokens text))) <$> X in
  let r1 := (fun text => zero_padded (repeat 1%Z (length (tokens text)))) <$> X in
  let r2 := (fun _ : string => zero_row) <$> X in
  let labels := take (length X) y in
  let labels_of_labeled_samples := filter (fun label => (0 <= label)%Z) labels in
  tokenize_all (H := toy_collaborators) toy_fitted X
  = Ok [Arr2 MAX_SEQ_LENGTH r0; Arr2 MAX_SEQ_LENGTH r1; Arr2 MAX_SEQ_LENGTH r2]
  /\ (length y < length X ->
      tokenize_all_with_labels (H := toy_collaborators) toy_fitted X y = Raise IndexError)
  /\ (length X <= length y ->
      tokenize_all_with_labels (H := toy_collaborators) toy_fitted X y
      = if decide (Forall (fun label => ~ (0 <= label)%Z) labels)
        then Raise (ValueError MsgNoLabeledSamples)
        else if decide (Forall (fun label => (label < 2 ^ 63)%Z) labels_of_labeled_samples)
        then Ok ([Arr2 MAX_SEQ_LENGTH (labeled_rows r0 y);
                  Arr2 MAX_SEQ_LENGTH (labeled_rows r1 y);
                  Arr2 MAX_SEQ_LENGTH (labeled_rows r2 y)],
                 Arr1 (wrap_int32 <$> labels_of_labeled_samples),
                 if decide (Forall (fun label => (0 <= label)%Z) labels) then None
                 else Some [Arr2 MAX_SEQ_LENGTH (unlabeled_rows r0 y);
                            Arr2 MAX_SEQ_LENGTH (unlabeled_rows r1 y);
                            Arr2 MAX_SEQ_LENGTH (unlabeled_rows r2 y)])
        else Raise OverflowError)
  /\ (Forall (fun label => (label < 2 ^ 31)%Z) labels_of_labeled_samples ->
      wrap_int32 <$> labels_of_labeled_samples = labels_of_labeled_samples).
Proof.
  intros X y tokens r0 r1 r2 labels labels_of_labeled_samples.
  assert (Htok : tokenize_all (H := toy_collaborators) toy_fitted X
                 = Ok [Arr2 MAX_SEQ_LENGTH r0; Arr2 MAX_SEQ_LENGTH r1;
                       Arr2 MAX_SEQ_LENGTH r2]).
  { apply (tokenize_all_Ok (H := toy_collaborators) toy_ids_per_token).
    vm_compute; reflexivity. }
  split; [exact Htok|].
  exact (tokenize_all_with_labels_partition (H := toy_collaborators) toy_fitted X y
           r0 r1 r2 Htok).
Defined.

Example tokenize_all_with_labels_example :
  (tokenize_all_with_labels (H := toy_collaborators) toy_fitted ["a"; "b"; "c"] [1; -1; 0]%Z
     ≫= fun '(_, y_tokenized, X_unlabeled) =>
          Ok (y_tokenized, shape0 <$> default [] X_unlabeled))
  = Ok (Arr1 [1; 0]%Z, [1; 1; 1])
  /\ tokenize_all_with_labels (H := toy_collaborators) toy_fitted ["a"; "b"] [-1; -2]%Z
     = Raise (ValueError MsgNoLabeledSamples)
  /\ tokenize_all_with_labels (H := toy_collaborators) toy_fitted ["a"; "b"] [1]%Z
     = Raise IndexError.
Proof. vm_compute. repeat split. Qed.


(** * Padding to full batches, and the bounds of the batches *)

Section PaddingFacts.

Variable np_random_shuffle : list nat -> list nat.

Lemma n_extend_of_multiple (n : nat) (batch_size : Z) :
  (0 < batch_size)%Z -> (Z.of_nat n mod batch_size = 0)%Z -> n_extend_of n batch_size = 0.
Proof.
  intros Hpos Hmod. unfold n_extend_of.
  rewrite Z.mod_opp_l_z by lia. reflexivity.
Qed.

Lemma n_extend_of_remainder (n : nat) (batch_size : Z) :
  (0 < batch_size)%Z -> (Z.of_nat n mod batch_size <> 0)%Z ->
  n_extend_of n batch_size = Z.to_nat (batch_size - Z.of_nat n mod batch_size).
Proof.
  intros Hpos Hmod. unfold n_extend_of. by rewrite Z.mod_opp_l_nz by lia.
Qed.

Lemma n_extend_of_fills (n : nat) (batch_size : Z) :
  (0 < batch_size)%Z ->
  (batch_size | Z.of_nat (n + n_extend_of n batch_size))%Z
  /\ (Z.of_nat (n_extend_of n batch_size) < batch_size)%Z.
Proof.
  intros Hpos. unfold n_extend_of.
  pose proof (Z.mod_pos_bound (- Z.of_nat n) batch_size Hpos) as Hbound.
  split; [|lia].
  rewrite Nat2Z.inj_add, Z2Nat.id by lia.
  apply Z.mod_divide; [lia|].
  rewrite Z.add_mod_idemp_r by lia. replace (Z.of_nat n + - Z.of_nat n)%Z with 0%Z by lia.
  apply Z.mod_0_l. lia.
Qed.

Lemma token_rows_matrix (n : nat) (col : ndarray) :
  token_rows n col -> 0 < n -> token_matrix col.
Proof.
  intros (rs & -> & Hlen & Hrows) Hn.
  destruct (last rs) as [r|] eqn:Hlast.
  - exists rs, r. split; [done|]. split; [done|].
    rewrite Forall_forall in Hrows. apply Hrows.
    rewrite last_lookup in Hlast. by eapply list_elem_of_lookup_2.
  - apply last_None in Hlast. subst rs. simpl in Hlen. lia.
Qed.

(** Without labels [extend_Xy] succeeds on token matrices of [n] rows. *)
Lemma extend_Xy_tokens_extended (batch_size : Z) (X0 : ndarray) (Xs : list ndarray)
    (n : nat) :
  (0 < batch_size)%Z -> Forall (token_rows n) (X0 :: Xs) ->
  exists X_ext,
    extend_Xy np_random_shuffle batch_size (X0 :: Xs) None false = Ok (X_ext, None)
    /\ Forall2 (padded_column (n_extend_of n batch_size)) (X0 :: Xs) X_ext
    /\ Forall (token_rows (n + n_extend_of n batch_size)) X_ext.
Proof.
  intros Hpos Hrows. set (n_extend := n_extend_of n batch_size).
  assert (Hshape : shape0 X0 = n).
  { apply Forall_cons in Hrows as [(rs & -> & Hlen & _) _]. done. }
  destruct (decide (Z.of_nat n mod batch_size = 0)%Z) as [Hmod|Hmod].
  - exists (X0 :: Xs).
    assert (Hzero : n_extend = 0) by by apply n_extend_of_multiple.
    split_and!.
    + unfold extend_Xy. rewrite Hshape, decide_False by lia. by rewrite decide_True.
    + rewrite Hzero. apply Forall2_same_length_lookup_2; [done|].
      intros i col col' Hcol Hcol'. rewrite Hcol in Hcol'. injection Hcol' as <-.
      rewrite Forall_forall in Hrows.
      destruct (Hrows col) as (rs & -> & _); [by eapply list_elem_of_lookup_2|].
      exists rs. split; [done|]. f_equal. destruct (last rs); by rewrite app_nil_r.
    + by rewrite Hzero, Nat.add_0_r.
  - assert (Hn : 0 < n).
    { destruct n; [|lia]. by rewrite Z.mod_0_l in Hmod by lia. }
    assert (Hmatrices : Forall token_matrix (X0 :: Xs)).
    { eapply Forall_impl; [exact Hrows|]. intros col Hcol. by eapply token_rows_matrix. }
    destruct (extend_Xy_tokens_padded np_random_shuffle X0 Xs batch_size Hpos Hmatrices)
      as (X_ext & Hext & Hpadded); [by rewrite Hshape|].
    rewrite Hshape in Hpadded. rewrite <- (n_extend_of_remainder n batch_size) in Hpadded by done.
    fold n_extend in Hpadded.
    exists X_ext. split_and!; [done | | ].
    + eapply Forall2_impl; [exact Hpadded|].
      intros col col' (rs & r & -> & Hlast & ->). exists rs. by rewrite Hlast.
    + apply Forall_forall. intros col' Hcol'.
      apply list_elem_of_lookup in Hcol' as [i Hi].
      destruct (Forall2_lookup_r _ _ _ _ _ Hpadded Hi) as (col & Hcol & (rs & r & -> & Hlast & ->)).
      rewrite Forall_forall in Hrows.
      destruct (Hrows (Arr2 MAX_SEQ_LENGTH rs)) as (rs' & [= <-] & Hlen & Hwidth);
        [by eapply list_elem_of_lookup_2|].
      exists (rs ++ repeat r n_extend). split; [done|]. split.
      * rewrite length_app, repeat_length. lia.
      * apply Forall_app. split; [done|]. apply Forall_forall.
        intros r' Hr'. apply list_elem_of_In, repeat_spec in Hr' as ->.
        rewrite Forall_forall in Hwidth. apply Hwidth.
        rewrite last_lookup in Hlast. by eapply list_elem_of_lookup_2.
Qed.

(** X15 ([extend_Xy] without labels and without shuffling): token matrices
    of [n] rows are returned with [(-n) mod B] copies of their last row
    appended, so that the number of rows is the next multiple of the batch
    size [B]; nothing is appended when [n] is such a multiple already, in
    particular to matrices without rows. *)
Theorem extend_Xy_tokens_fill_batches (batch_size : Z) (X0 : ndarray) (Xs : list ndarray)
    (n : nat) :
  (0 < batch_size)%Z -> Forall (token_rows n) (X0 :: Xs) ->
  let n_extend := n_extend_of n batch_size in
  exists X_ext,
    extend_Xy np_random_shuffle batch_size (X0 :: Xs) None false = Ok (X_ext, None)
    /\ Forall2 (padded_column n_extend) (X0 :: Xs) X_ext
    /\ Forall (token_rows (n + n_extend)) X_ext
    /\ (batch_size | Z.of_nat (n + n_extend))%Z
    /\ (Z.of_nat n_extend < batch_size)%Z.
Proof.
  intros Hpos Hrows n_extend.
  destruct (n_extend_of_fills n batch_size Hpos) as [Hdiv Hlt].
  destruct (extend_Xy_tokens_extended batch_size X0 Xs n Hpos Hrows)
    as (X_ext & Hext & Hpadded & Hrows').
  exists X_ext. done.
Qed.

End PaddingFacts.

Section BatchFacts.

(** The batch of an iteration, for a batch size [B] and [n] rows. *)
Lemma batch_of_iteration (n B iteration : nat) :
  (Z.to_nat (Z.of_nat iteration * Z.of_nat B),
   Z.to_nat (Z.min (Z.of_nat iteration * Z.of_nat B + Z.of_nat B) (Z.of_nat n)))
  = (iteration * B, Nat.min (iteration * B + B) n).
Proof. f_equal; lia. Qed.

Lemma rows_of_batches_cons (cur_batch : nat * nat) (bounds : list (nat * nat)) :
  rows_of_batches (cur_batch :: bounds)
  = seq cur_batch.1 (cur_batch.2 - cur_batch.1) ++ rows_of_batches bounds.
Proof. reflexivity. Qed.

Lemma rows_of_late_batches (n B : nat) (len : nat) :
  forall s, n <= s * B ->
    rows_of_batches ((fun i => (i * B, Nat.min (i * B + B) n)) <$> seq s len) = [].
Proof.
  induction len as [|len IH]; intros s Hs; [done|].
  cbn [seq fmap list_fmap]. rewrite rows_of_batches_cons. cbn [fst snd].
  replace (Nat.min (s * B + B) n - s * B) with 0 by lia. cbn [seq app].
  apply IH. lia.
Qed.

Lemma rows_of_tiling_batches (n B : nat) (len : nat) :
  forall s, s * B <= n ->
    rows_of_batches ((fun i => (i * B, Nat.min (i * B + B) n)) <$> seq s len)
    = seq (s * B) (Nat.min ((s + len) * B) n - s * B).
Proof.
  induction len as [|len IH]; intros s Hs.
  - replace (Nat.min ((s + 0) * B) n - s * B) with 0 by lia. done.
  - cbn [seq fmap list_fmap]. rewrite rows_of_batches_cons. cbn [fst snd].
    assert (Hnext : S s * B = s * B + B) by lia.
    assert (Hlast : (s + S len) * B = (S s + len) * B) by (f_equal; lia).
    destruct (decide (S s * B <= n)) as [Hin|Hout].
    + rewrite IH by done. rewrite Hlast, Hnext.
      replace (Nat.min (s * B + B) n - s * B) with B by lia.
      rewrite <- seq_app. f_equal.
      assert (s * B + B <= Nat.min ((S s + len) * B) n); [|lia].
      apply Nat.min_glb; [|lia]. rewrite <- Hnext. apply Nat.mul_le_mono_r. lia.
    + rewrite rows_of_late_batches by lia. rewrite app_nil_r. f_equal.
      assert (n <= (s + S len) * B); [|lia].
      rewrite Hlast. etransitivity; [|apply Nat.mul_le_mono_r; apply (Nat.le_add_r (S s) len)].
      lia.
Qed.

Lemma separate_tiling_batches (n B : nat) (len : nat) :
  forall s, (s + len) * B <= n + B ->
    separate_batches n ((fun i => (i * B, Nat.min (i * B + B) n)) <$> seq s len).
Proof.
  induction len as [|len IH]; intros s Hs; [done|].
  assert (Hlast : (s + S len) * B = (S s + len) * B) by (f_equal; lia).
  assert (S s * B <= (S s + len) * B) by (apply Nat.mul_le_mono_r; lia).
  cbn [seq fmap list_fmap separate_batches fst snd]. split_and!.
  - lia.
  - lia.
  - apply Forall_forall. intros b Hb. apply list_elem_of_fmap in Hb as (j & -> & Hj).
    apply elem_of_seq in Hj. left. cbn [fst snd].
    assert (S s * B <= j * B) by (apply Nat.mul_le_mono_r; lia). lia.
  - apply IH. lia.
Qed.

Lemma n_batches_ceil (n B : nat) :
  0 < B ->
  let n_batches := Z.to_nat (- ((- Z.of_nat n) / Z.of_nat B)) in
  n <= n_batches * B /\ (n_batches * B < n + B).
Proof.
  intros HB n_batches.
  pose proof (Z.div_mod (- Z.of_nat n) (Z.of_nat B) ltac:(lia)) as Hdiv.
  pose proof (Z.mod_pos_bound (- Z.of_nat n) (Z.of_nat B) ltac:(lia)) as Hmod.
  assert (Hk : Z.of_nat n_batches = (- ((- Z.of_nat n) / Z.of_nat B))%Z).
  { unfold n_batches. rewrite Z2Nat.id; [done|].
    assert (- Z.of_nat n / Z.of_nat B <= 0)%Z; [|lia].
    apply Z.div_le_upper_bound; lia. }
  split; [apply Nat2Z.inj_le | apply Nat2Z.inj_lt];
    rewrite ?Nat2Z.inj_add, Nat2Z.inj_mul, Hk; nia.
Qed.

(** X16 (fit, lines 136-151 and 281-286).  For a positive batch size the
    batches the training, the validation and the threshold loops run over
    cover the rows [0 .. n-1] once each and in order: no batch is empty, none
    has more than [batch_size] rows, and no two overlap. *)
Theorem bounds_of_batches_upto_tiles (n : nat) (batch_size : Z) :
  (0 < batch_size)%Z ->
  exists bounds,
    bounds_of_batches_upto n batch_size = Ok bounds
    /\ rows_of_batches bounds = seq 0 n
    /\ separate_batches n bounds
    /\ Forall (fun cur_batch =>
                 cur_batch.1 < cur_batch.2
                 /\ (Z.of_nat (cur_batch.2 - cur_batch.1) <= batch_size)%Z) bounds.
Proof.
  intros Hpos. unfold bounds_of_batches_upto.
  rewrite decide_False by lia. eexists. split; [reflexivity|].
  cbv zeta.
  set (B := Z.to_nat batch_size).
  replace batch_size with (Z.of_nat B) by lia.
  setoid_rewrite batch_of_iteration.
  destruct (n_batches_ceil n B ltac:(lia)) as [Hge Hlt].
  set (n_batches := Z.to_nat (- ((- Z.of_nat n) / Z.of_nat B))) in *.
  split_and!.
  - rewrite rows_of_tiling_batches by lia.
    cbn [Nat.mul Nat.add]. rewrite Nat.sub_0_r. f_equal. lia.
  - apply separate_tiling_batches. lia.
  - apply Forall_forall. intros b Hb. apply list_elem_of_fmap in Hb as (j & -> & Hj).
    apply elem_of_seq in Hj. cbn [fst snd].
    assert (S j * B <= n_batches * B) by (apply Nat.mul_le_mono_r; lia). lia.
Qed.

(** The batches of [predict_proba]: [n_batches] full ones. *)
Lemma rows_of_full_batches (batch_size : nat) (n_batches : nat) :
  forall s,
    rows_of_batches
      ((fun iteration => (iteration * batch_size, iteration * batch_size + batch_size))
         <$> seq s n_batches)
    = seq (s * batch_size) (n_batches * batch_size).
Proof.
  induction n_batches as [|k IH]; intros s; [done|].
  cbn [seq fmap list_fmap]. rewrite rows_of_batches_cons. cbn [fst snd].
  rewrite IH. replace (s * batch_size + batch_size - s * batch_size) with batch_size by lia.
  replace (S s * batch_size) with (s * batch_size + batch_size) by lia.
  rewrite <- seq_app. f_equal.
Qed.

End BatchFacts.

Lemma extend_Xy_tokens_fill_batches_witness :
  let column := Arr2 MAX_SEQ_LENGTH [zero_row; zero_row] in
  (0 < 3)%Z /\ Forall (token_rows 2) [column; column; column]
  /\ exists X_ext,
       extend_Xy (fun indices => indices) 3 [column; column; column] None false
       = Ok (X_ext, None)
       /\ Forall2 (padded_column (n_extend_of 2 3)) [column; column; column] X_ext
       /\ Forall (token_rows (2 + n_extend_of 2 3)) X_ext
       /\ (3 | Z.of_nat (2 + n_extend_of 2 3))%Z
       /\ (Z.of_nat (n_extend_of 2 3) < 3)%Z.
Proof.
  intros column.
  assert (Hrows : Forall (token_rows 2) [column; column; column]).
  { repeat constructor; exists [zero_row; zero_row]; repeat split; repeat constructor. }
  split; [lia|]. split; [exact Hrows|].
  exact (extend_Xy_tokens_fill_batches (fun indices => indices) 3 column [column; column] 2
           ltac:(lia) Hrows).
Defined.

Lemma bounds_of_batches_upto_tiles_witness :
  (0 < 2)%Z
  /\ exists bounds,
       bounds_of_batches_upto 5 2 = Ok bounds
       /\ rows_of_batches bounds = seq 0 5
       /\ separate_batches 5 bounds
       /\ Forall (fun cur_batch =>
                    cur_batch.1 < cur_batch.2
                    /\ (Z.of_nat (cur_batch.2 - cur_batch.1) <= 2)%Z) bounds.
Proof. split; [lia|]. apply (bounds_of_batches_upto_tiles 5 2). lia. Defined.

(** The five rows of the example fall into the batches [0,2), [2,4), [4,5). *)
Example bounds_of_batches_upto_example :
  bounds_of_batches_upto 5 2 = Ok [(0, 2); (2, 4); (4, 5)].
Proof. reflexivity. Qed.

(** * Inference on a fitted instance *)

Section InferenceTotal.

Context `{Collaborators}.

Lemma length_py_slice {A : Type} (l : list A) (lo hi : nat) :
  hi <= length l -> length (py_slice l lo hi) = hi - lo.
Proof. intros Hhi. unfold py_slice. rewrite length_take, length_drop. lia. Qed.

Lemma mat_add_shape (B C : nat) (a b : list (list Q)) :
  length a = B -> Forall (fun r => length r = C) a ->
  length b = B -> Forall (fun r => length r = C) b ->
  length (mat_add a b) = B /\ Forall (fun r => length r = C) (mat_add a b).
Proof.
  intros Ha Hra Hb Hrb. unfold mat_add. split.
  - rewrite length_zip_with. lia.
  - apply (Forall_zip_with_both _ (fun r => length r = C) (fun r => length r = C));
      [|done|done].
    intros r1 r2 H1 H2. rewrite length_zip_with. lia.
Qed.

Lemma np_mean_axis0_shape (B C : nat) (probs : list (list (list Q))) :
  probs <> [] ->
  Forall (fun p => length p = B /\ Forall (fun r => length r = C) p) probs ->
  length (np_mean_axis0 probs) = B
  /\ Forall (fun r => length r = C) (np_mean_axis0 probs).
Proof.
  intros Hne Hshape. destruct probs as [|p ps]; [done|]. clear Hne.
  unfold np_mean_axis0. generalize (length (p :: ps)). intros k.
  apply Forall_cons in Hshape as [Hp Hps].
  assert (Htotal : length (foldl mat_add p ps) = B
                   /\ Forall (fun r => length r = C) (foldl mat_add p ps)).
  { revert p Hp. induction Hps as [|q ps [Hq Hqr] _ IH]; intros p [Hp Hpr]; [done|].
    simpl. apply IH. by apply mat_add_shape. }
  destruct Htotal as [Hlen Hrows]. split.
  - by rewrite length_map.
  - apply Forall_forall. intros r Hr.
    apply list_elem_of_In, in_map_iff in Hr as (r' & <- & Hr').
    rewrite length_map. rewrite Forall_forall in Hrows.
    by apply Hrows, list_elem_of_In.
Qed.

Lemma mapM_Forall_total {A B : Type} (f : A -> result B) (P : B -> Prop) (l : list A) :
  (forall a, exists b, f a = Ok b /\ P b) ->
  exists bs, mapM f l = Ok bs /\ length bs = length l /\ Forall P bs.
Proof.
  intros Hf. induction l as [|a l (bs & Hbs & Hlen & HP)]; [by exists []|].
  destruct (Hf a) as (b & Hb & HPb). exists (b :: bs).
  cbn [mapM]. rewrite Hb, Hbs. split; [reflexivity|]. split; [simpl; lia|]. by constructor.
Qed.

Lemma feedable_token_matrix (rows w : nat) (rs : list (list Z)) :
  feedable (VPlaceholder rows MAX_SEQ_LENGTH, Arr2 w rs)
  = bool_decide (MAX_SEQ_LENGTH <> 0 /\ w = MAX_SEQ_LENGTH /\ length rs = rows).
Proof. reflexivity. Qed.

Section Graph.

Variables (self : attrs) (w : weights) (B C : nat).

Hypothesis session_initialised : self !! "sess_" = Some (VSession (Some w)).
Hypothesis graph : graph_built self B C.
Hypothesis batch_size_set :
  exists vb, self !! "batch_size" = Some vb /\ as_int vb = Some (Z.of_nat B).

Lemma run_probs_Ok (run : nat) (feed_dict : list (value * ndarray)) :
  forallb feedable feed_dict = true ->
  exists probs,
    run_probs self run feed_dict = Ok probs
    /\ length probs = B /\ Forall (fun r => length r = C) probs.
Proof.
  intros Hfeed. destruct graph as (_ & _ & _ & Hdist).
  unfold run_probs, getattr. rewrite session_initialised, Hdist.
  cbn [mbind result_bind]. rewrite Hfeed. eexists. split; [reflexivity|]. split.
  - by rewrite length_map, length_seq.
  - apply Forall_forall. intros r Hr.
    apply list_elem_of_In, in_map_iff in Hr as (i & <- & _).
    by rewrite length_map, length_seq.
Qed.

Lemma monte_carlo_mean_Ok (run num_monte_carlo : nat) (feed_dict : list (value * ndarray)) :
  0 < num_monte_carlo -> forallb feedable feed_dict = true ->
  exists mean_probs,
    monte_carlo_mean self run num_monte_carlo feed_dict = Ok mean_probs
    /\ length mean_probs = B /\ Forall (fun r => length r = C) mean_probs.
Proof.
  intros Hm Hfeed. unfold monte_carlo_mean.
  destruct (mapM_Forall_total (fun k => run_probs self (run + k) feed_dict)
              (fun p => length p = B /\ Forall (fun r => length r = C) p)
              (seq 0 num_monte_carlo)) as (probs & -> & Hlen & Hshape).
  { intros k. destruct (run_probs_Ok (run + k) feed_dict Hfeed) as (p & ? & ? & ?). eauto. }
  cbn [mbind result_bind]. eexists. split; [reflexivity|].
  apply np_mean_axis0_shape; [|done].
  intros ->. rewrite length_seq in Hlen. simpl in Hlen. lia.
Qed.

(** A full batch of three token matrices is fed to the three placeholders. *)
Lemma fill_feed_dict_batch (N : nat) (X0 X1 X2 : ndarray) (lo : nat) :
  Forall (token_rows N) [X0; X1; X2] -> lo + B <= N ->
  exists feed_dict,
    fill_feed_dict self ((fun channel => np_slice channel lo (lo + B)) <$> [X0; X1; X2]) None
    = Ok feed_dict
    /\ forallb feedable feed_dict = true.
Proof.
  intros Hrows Hlo. destruct graph as (Hids & Hmask & Hsegment & _).
  destruct batch_size_set as (vb & Hvb & Hb).
  apply Forall_cons in Hrows as [(r0 & -> & Hn0 & _) Hrows].
  apply Forall_cons in Hrows as [(r1 & -> & Hn1 & _) Hrows].
  apply Forall_cons in Hrows as [(r2 & -> & Hn2 & _) _].
  unfold fill_feed_dict, getattr. rewrite Hvb. cbn [mbind result_bind fmap list_fmap np_slice].
  rewrite Hb. cbn [shape0].
  rewrite decide_True by (rewrite length_py_slice by lia; f_equal; lia).
  rewrite Hids, Hmask, Hsegment. cbn [mbind result_bind].
  eexists. split; [reflexivity|].
  cbn [forallb]. rewrite !feedable_token_matrix, !andb_true_iff, !bool_decide_eq_true.
  assert (MAX_SEQ_LENGTH <> 0) by done.
  rewrite !length_py_slice by lia.
  repeat split; try done; lia.
Qed.

Lemma predict_batches_total (num_monte_carlo : nat) (N : nat) (X0 X1 X2 : ndarray)
    (n_batches : nat) :
  0 < num_monte_carlo -> Forall (token_rows N) [X0; X1; X2] ->
  forall first run probabilities,
    (first + n_batches) * B <= N ->
    length probabilities = N -> Forall (fun r => length r = C) probabilities ->
    exists probabilities',
      predict_batches self run num_monte_carlo C [X0; X1; X2]
        ((fun iteration => (iteration * B, iteration * B + B)) <$> seq first n_batches)
        probabilities
      = Ok probabilities'
      /\ length probabilities' = N /\ Forall (fun r => length r = C) probabilities'.
Proof.
  intros Hm Hrows.
  induction n_batches as [|k IH]; intros first run P Hfit Hlen Hcols.
  - exists P. done.
  - assert (Hend : first * B + B <= N).
    { assert (S first * B <= (first + S k) * B) by (apply Nat.mul_le_mono_r; lia). lia. }
    cbn [seq]. rewrite fmap_cons. cbn [predict_batches fst snd].
    destruct (fill_feed_dict_batch N X0 X1 X2 (first * B) Hrows Hend)
      as (feed_dict & Hfeed & Hfeedable).
    rewrite Hfeed. cbn [mbind result_bind].
    destruct (monte_carlo_mean_Ok run num_monte_carlo feed_dict Hm Hfeedable)
      as (mean_probs & -> & Hmean & Hmeancols).
    cbn [mbind result_bind].
    assert (Hnew : Forall (fun r : list Z => length r = C) (map (map to_int32) mean_probs)).
    { apply Forall_forall. intros r Hr.
      apply list_elem_of_In, in_map_iff in Hr as (r' & <- & Hr').
      rewrite length_map. rewrite Forall_forall in Hmeancols.
      by apply Hmeancols, list_elem_of_In. }
    unfold np_assign_rows.
    rewrite decide_True by (split; [rewrite length_map, length_py_slice; lia | done]).
    cbn [mbind result_bind].
    apply IH.
    + replace (S first + k) with (first + S k) by lia. done.
    + rewrite !length_app, length_take, length_drop, length_map. lia.
    + apply Forall_app. split; [by apply Forall_take|].
      apply Forall_app. split; [done | by apply Forall_drop].
Qed.

End Graph.

End InferenceTotal.

Lemma zero_rows_repeat (ncols : nat) (rows : list (list Z)) :
  zero_rows ncols rows -> rows = repeat (repeat 0%Z ncols) (length rows).
Proof.
  unfold zero_rows. induction 1 as [|row rows [Hlen Hzero] _ IH]; [done|].
  simpl. rewrite <- IH. f_equal. subst ncols. clear IH.
  induction Hzero as [|p row -> _ IH]; [done|]. simpl. by rewrite <- IH.
Qed.

Lemma mapM_repeat {A B : Type} (f : A -> result B) (a : A) (b : B) (n : nat) :
  f a = Ok b -> mapM f (repeat a n) = Ok (repeat b n).
Proof. intros Hf. induction n as [|n IH]; [done|]. simpl. by rewrite Hf, IH. Qed.

Lemma zip_repeat {A B : Type} (a : A) (b : B) (n : nat) :
  zip (repeat a n) (repeat b n) = repeat (a, b) n.
Proof. induction n as [|n IH]; [done|]. simpl. by rewrite <- IH. Qed.

Lemma map_repeat_const {A B : Type} (f : A -> B) (a : A) (n : nat) :
  map f (repeat a n) = repeat (f a) n.
Proof. induction n as [|n IH]; [done|]. simpl. by rewrite IH. Qed.

Lemma argmax_from_zeros (n best_idx idx : nat) :
  argmax_from Z.ltb best_idx 0%Z idx (repeat 0%Z n) = best_idx.
Proof. revert idx. induction n as [|n IH]; intros idx; [done|]. simpl. apply IH. Qed.

Section FittedInstance.

Context `{Collaborators}.

(** [convert_tokens_to_ids] gives one id for each token. *)
Hypothesis ids_per_token :
  forall vocab_file do_lower_case tokens,
    length (tokenizer_convert_tokens_to_ids vocab_file do_lower_case tokens) = length tokens.

Variables (self kwargs : attrs) (batch_size num_monte_carlo n_classes : Z) (w : weights).
Variables (vocab_file : string) (do_lower_case : bool).

Hypothesis parameters_read : get_params self = Ok kwargs.
Hypothesis parameters_valid : check_params kwargs = Ok ().
Hypothesis fitted : is_fitted self = Ok ().
Hypothesis batch_size_set : self !! "batch_size" = Some (VInt batch_size).
Hypothesis num_monte_carlo_set : self !! "num_monte_carlo" = Some (VInt num_monte_carlo).
Hypothesis classes_counted : self !! "n_classes_" = Some (VInt n_classes).
Hypothesis classes_not_negative : (0 <= n_classes)%Z.
Hypothesis graph : graph_built self (Z.to_nat batch_size) (Z.to_nat n_classes).
Hypothesis session_initialised : self !! "sess_" = Some (VSession (Some w)).
Hypothesis tokenizer_bound :
  self !! "tokenizer_" = Some (VTokenizer vocab_file do_lower_case).

Lemma valid_sizes : (1 <= batch_size)%Z /\ (1 <= num_monte_carlo)%Z.
Proof.
  apply get_params_Ok_iff in parameters_read as [_ Hkwargs].
  destruct (check_params_Ok kwargs parameters_valid)
    as ((vb & b & Hvb & Hb & Hb1) & _ & (vm & m & Hvm & Hm & Hm1) & _).
  rewrite Hkwargs, lookup_restricted in Hvb, Hvm.
  rewrite decide_True in Hvb by param_name. rewrite decide_True in Hvm by param_name.
  rewrite batch_size_set in Hvb. rewrite num_monte_carlo_set in Hvm.
  injection Hvb as <-. injection Hvm as <-. simpl in Hb, Hm.
  injection Hb as <-. injection Hm as <-. done.
Qed.

Lemma tokenize_all_token_rows (X : list string) :
  exists X0 X1 X2,
    tokenize_all self X = Ok [X0; X1; X2]
    /\ Forall (token_rows (length X)) [X0; X1; X2].
Proof.
  eexists _, _, _. split; [by apply tokenize_all_Ok|].
  assert (Hmax : MAX_SEQ_LENGTH = 512) by reflexivity.
  repeat constructor; eexists; (split; [reflexivity|]); rewrite length_fmap;
    (split; [reflexivity|]); apply Forall_forall; intros r Hr;
    apply list_elem_of_fmap in Hr as (text & -> & _).
  - apply length_zero_padded. rewrite ids_per_token, length_framed_tokens. lia.
  - apply length_zero_padded. rewrite repeat_length, length_framed_tokens. lia.
  - apply repeat_length.
Qed.

(** On such an instance [predict_proba] returns for every list of texts. *)
Lemma predict_proba_Ok (run : nat) (X : list string) :
  exists rows,
    predict_proba self run X = Ok (Arr2 (Z.to_nat n_classes) rows)
    /\ length rows = length X
    /\ Forall (fun row => length row = Z.to_nat n_classes) rows.
Proof.
  destruct valid_sizes as [Hb Hm].
  destruct (tokenize_all_token_rows X) as (X0 & X1 & X2 & Htok & Hrows).
  assert (Hshape : shape0 X0 = length X).
  { apply Forall_cons in Hrows as [(rs & -> & Hlen & _) _]. done. }
  unfold predict_proba. rewrite parameters_read. cbn [mbind result_bind].
  rewrite parameters_valid. cbn [mbind result_bind]. unfold check_X. cbn [mbind result_bind].
  rewrite fitted. cbn [mbind result_bind]. rewrite Htok. cbn [mbind result_bind].
  unfold getattr. rewrite batch_size_set, num_monte_carlo_set, classes_counted.
  cbn [mbind result_bind as_int].
  destruct (extend_Xy_tokens_extended (fun indices => indices) batch_size X0 [X1; X2]
              (length X) ltac:(lia) Hrows) as (X_ext & -> & Hpadded & Hrows').
  destruct (n_extend_of_fills (length X) batch_size ltac:(lia)) as [[q Hq] _].
  set (N := length X + n_extend_of (length X) batch_size) in *.
  apply Forall2_length in Hpadded.
  destruct X_ext as [|X0' [|X1' [|X2' [|]]]]; try discriminate Hpadded. clear Hpadded.
  cbn [mbind result_bind].
  assert (Hshape' : shape0 X0' = N).
  { apply Forall_cons in Hrows' as [(rs & -> & Hlen & _) _]. done. }
  rewrite Hshape', Hshape. rewrite decide_False by lia.
  unfold bounds_of_full_batches.
  destruct (predict_batches_total self w (Z.to_nat batch_size) (Z.to_nat n_classes)
              session_initialised graph
              ltac:(exists (VInt batch_size); split; [done | simpl; f_equal; lia])
              (Z.to_nat num_monte_carlo) N X0' X1' X2'
              (Z.to_nat (Z.of_nat N / batch_size)) ltac:(lia) Hrows' 0 run
              (repeat (repeat 0%Z (Z.to_nat n_classes)) N))
    as (probabilities & -> & Hlen & Hcols).
  - rewrite Hq, Z.div_mul by lia.
    assert (0 <= q)%Z by nia. apply Nat2Z.inj_le.
    rewrite Nat.add_0_l, Nat2Z.inj_mul, !Z2Nat.id by lia. lia.
  - apply repeat_length.
  - apply Forall_forall. intros r Hr. apply list_elem_of_In, repeat_spec in Hr as ->.
    apply repeat_length.
  - cbn [mbind result_bind]. eexists. split; [reflexivity|]. split.
    + rewrite length_py_slice by (unfold N in Hlen; lia). lia.
    + unfold py_slice. by apply Forall_take, Forall_drop.
Qed.

(** X17 ([predict_proba] on a fitted instance).  When the parameters are
    valid, the graph was built for the batch size and the number of
    classes, the variables of the session are initialised and the tokenizer
    gives one id for each token, [predict_proba] raises nothing, whatever
    the texts and however many: it returns a matrix with a row for each text
    and a column for each class.  The batch that the texts do not fill is
    completed and its surplus rows are cut off again. *)
Theorem predict_proba_returns (run : nat) (X : list string) :
  exists rows,
    predict_proba self run X = Ok (Arr2 (Z.to_nat n_classes) rows)
    /\ length rows = length X
    /\ Forall (fun row => length row = Z.to_nat n_classes) rows.
Proof. apply predict_proba_Ok. Qed.

Section Softmax.

(** The output of a softmax: every probability is strictly between 0 and 1. *)
Hypothesis probs_of_run_open :
  forall w run feed i c, (0 < probs_of_run w run feed i c /\ probs_of_run w run feed i c < 1)%Q.

Lemma predict_proba_zero_matrix (run : nat) (X : list string) :
  predict_proba self run X
  = Ok (Arr2 (Z.to_nat n_classes) (repeat (repeat 0%Z (Z.to_nat n_classes)) (length X))).
Proof.
  destruct (predict_proba_Ok run X) as (rows & Hp & Hlen & _).
  destruct (predict_proba_all_zero probs_of_run_open self run X _ Hp)
    as (v & c & rows' & Hv & Hc & Heq & _ & Hzero).
  injection Heq as Hcols Hrows. subst rows'. rewrite <- Hcols in Hzero.
  apply zero_rows_repeat in Hzero. rewrite Hlen in Hzero. by rewrite Hp, Hzero at 1.
Qed.

Variables (v : value) (certainty_threshold : Q).

Hypothesis threshold_set : self !! "certainty_threshold_" = Some v.
Hypothesis threshold_number : as_number v = Some certainty_threshold.
Hypothesis classes_exist : (0 < n_classes)%Z.

(** X18 ([predict] on a fitted instance).  The rows of [predict_proba] hold
    zeros only, so the greatest entry of every row is 0, at position 0:
    with a positive [certainty_threshold_] every text is given the label
    [-1], with a threshold that is not positive every text is given the
    class 0.  No text is ever given another class. *)
Theorem predict_constant (run : nat) (X : list string) :
  ((0 < certainty_threshold)%Q -> predict self run X = Ok (repeat (-1)%Z (length X)))
  /\ ((certainty_threshold <= 0)%Q -> predict self run X = Ok (repeat 0%Z (length X))).
Proof.
  assert (Hpredict : predict self run X
                     = Ok (repeat (if Qltb (inject_Z 0) certainty_threshold
                                   then (-1)%Z else 0%Z) (length X))).
  { unfold predict. rewrite predict_proba_zero_matrix. cbn [mbind result_bind].
    rewrite decide_False by lia.
    destruct (Z.to_nat n_classes) as [|c] eqn:Hc; [lia|].
    rewrite (mapM_repeat _ _ 0).
    2:{ simpl. by rewrite argmax_from_zeros. }
    cbn [mbind result_bind]. rewrite repeat_length.
    destruct (decide (length X = 0)) as [->|Hpos]; [done|].
    unfold getattr. rewrite threshold_set. cbn [mbind result_bind]. rewrite threshold_number.
    rewrite zip_repeat. apply mapM_repeat.
    unfold recognize. cbn [repeat lookup list_lookup].
    by destruct (Qltb (inject_Z 0) certainty_threshold). }
  rewrite Hpredict. unfold Qltb.
  destruct (Qle_bool certainty_threshold (inject_Z 0)) eqn:Hle; simpl.
  - apply Qle_bool_iff in Hle. split; [|done].
    intros Hlt. exfalso. apply (Qlt_not_le _ _ Hlt). exact Hle.
  - split; [done|]. intros Hle'. apply Qle_bool_iff in Hle'.
    change (inject_Z 0) with 0%Q in Hle. congruence.
Qed.

(** X19 ([predict_log_proba] on a fitted instance).  Every entry of the
    matrix that [predict_log_proba] returns is the logarithm of the shift
    [1e-9] alone, whatever the texts. *)
Theorem predict_log_proba_constant (run : nat) (X : list string) :
  predict_log_proba self run X
  = Ok (RArr2 (Z.to_nat n_classes)
          (repeat (repeat (ln (1 / 10 ^ 9))%R (Z.to_nat n_classes)) (length X))).
Proof.
  unfold predict_log_proba. rewrite predict_proba_zero_matrix. cbn [mbind result_bind].
  unfold np_log_shifted. rewrite !map_repeat_const. by rewrite Rplus_0_l.
Qed.

End Softmax.

End FittedInstance.

(** The fitted example meets the conditions: batches of two texts, two
    passes, two classes. *)
Lemma toy_fitted_graph : graph_built toy_fitted 2 2.
Proof. repeat split; vm_compute; reflexivity. Qed.

Lemma toy_fitted_parameters :
  get_params toy_fitted = Ok (value_or (∅ : attrs) (get_params toy_fitted))
  /\ check_params (value_or (∅ : attrs) (get_params toy_fitted)) = Ok ()
  /\ is_fitted toy_fitted = Ok ().
Proof.
  split; [apply result_eta; vm_compute; reflexivity|].
  split; vm_compute; reflexivity.
Qed.

Lemma predict_proba_returns_witness :
  let kwargs := value_or (∅ : attrs) (get_params toy_fitted) in
  (get_params toy_fitted = Ok kwargs /\ check_params kwargs = Ok ()
   /\ is_fitted toy_fitted = Ok ())
  /\ graph_built toy_fitted 2 2
  /\ exists rows,
       predict_proba (H := toy_collaborators) toy_fitted 0 ["a"; "b"; "c"] = Ok (Arr2 2 rows)
       /\ length rows = 3
       /\ Forall (fun row => length row = 2) rows.
Proof.
  intros kwargs. destruct toy_fitted_parameters as (Hget & Hcheck & Hfitted).
  split; [exact (conj Hget (conj Hcheck Hfitted))|]. split; [exact toy_fitted_graph|].
  apply (predict_proba_returns (H := toy_collaborators) toy_ids_per_token toy_fitted kwargs
           2 2 2 [1%Z] "vocab.txt" true Hget Hcheck Hfitted).
  - vm_compute; reflexivity.
  - vm_compute; reflexivity.
  - vm_compute; reflexivity.
  - lia.
  - exact toy_fitted_graph.
  - vm_compute; reflexivity.
  - vm_compute; reflexivity.
Defined.

Lemma predict_constant_witness :
  let kwargs := value_or (∅ : attrs) (get_params toy_fitted) in
  (get_params toy_fitted = Ok kwargs /\ check_params kwargs = Ok ()
   /\ is_fitted toy_fitted = Ok ())
  /\ graph_built toy_fitted 2 2
  /\ toy_fitted !! "certainty_threshold_" = Some (VFloat (1 # 2))
  /\ (0 < 1 # 2)%Q
  /\ predict (H := toy_collaborators) toy_fitted 0 ["a"; "b"; "c"]
     = Ok [(-1)%Z; (-1)%Z; (-1)%Z].
Proof.
  intros kwargs. destruct toy_fitted_parameters as (Hget & Hcheck & Hfitted).
  assert (Hthreshold : toy_fitted !! "certainty_threshold_" = Some (VFloat (1 # 2)))
    by (vm_compute; reflexivity).
  split; [exact (conj Hget (conj Hcheck Hfitted))|]. split; [exact toy_fitted_graph|]. split; [exact Hthreshold|].
  split; [reflexivity|].
  refine (proj1 (predict_constant (H := toy_collaborators) toy_ids_per_token toy_fitted kwargs
                   2 2 2 [1%Z] "vocab.txt" true Hget Hcheck Hfitted _ _ _ _
                   toy_fitted_graph _ _ toy_probs_open (VFloat (1 # 2)) (1 # 2)
                   Hthreshold _ _ 0 ["a"; "b"; "c"]) _);
    try (vm_compute; reflexivity); lia.
Defined.

Lemma predict_log_proba_constant_witness :
  let kwargs := value_or (∅ : attrs) (get_params toy_fitted) in
  (get_params toy_fitted = Ok kwargs /\ check_params kwargs = Ok ()
   /\ is_fitted toy_fitted = Ok ())
  /\ graph_built toy_fitted 2 2
  /\ predict_log_proba (H := toy_collaborators) toy_fitted 0 ["a"; "b"]
     = Ok (RArr2 2 [[ln (1 / 10 ^ 9); ln (1 / 10 ^ 9)]; [ln (1 / 10 ^ 9); ln (1 / 10 ^ 9)]])%R.
Proof.
  intros kwargs. destruct toy_fitted_parameters as (Hget & Hcheck & Hfitted).
  split; [exact (conj Hget (conj Hcheck Hfitted))|]. split; [exact toy_fitted_graph|].
  refine (predict_log_proba_constant (H := toy_collaborators) toy_ids_per_token toy_fitted
            kwargs 2 2 2 [1%Z] "vocab.txt" true Hget Hcheck Hfitted _ _ _ _
            toy_fitted_graph _ _ toy_probs_open 0 ["a"; "b"]);
    try (vm_compute; reflexivity); lia.
Defined.

(** * The epoch loop and its checkpoint *)

Section BestCheckpointFacts.

Context `{Collaborators}.

Variable run_epoch : nat -> weights -> result (weights * Q).
Variable tmp_model_name : path.

Lemma restore_best_counter (st st2 : loop_state) :
  restore_best tmp_model_name st = Ok st2 ->
  ls_n_epochs_without_improving st2 = ls_n_epochs_without_improving st.
Proof.
  unfold restore_best. destruct (ls_best_acc st); [|by intros [= <-]].
  intros Hres. inv_bind Hres as self1 Hbuild. inv_bind Hres as self2 Hload.
  by injection Hres as <-.
Qed.

(** What [save_model] leaves in the first file of the checkpoint. *)
Lemma save_model_first_file (self : attrs) (w : weights) (fs fs' : filesystem) (sfx : string) :
  self !! "sess_" = Some (VSession (Some w)) ->
  save_model self tmp_model_name fs = (Ok (), fs') ->
  head saver_suffixes = Some sfx ->
  fs' !! (tmp_model_name.1, tmp_model_name.2 +:+ sfx) = Some w.
Proof.
  intros Hsess Hsave Hhead. unfold save_model, getattr in Hsave. rewrite Hsess in Hsave.
  injection Hsave as <-. rewrite lookup_written_suffixes. rewrite decide_True; [done|].
  apply list_elem_of_fmap. exists sfx. split; [done|].
  destruct saver_suffixes as [|sfx' rest]; [discriminate|].
  injection Hhead as ->. apply list_elem_of_here.
Qed.

Lemma epoch_loop_invariant (patience : Z) (epochs : list nat) :
  (0 < patience)%Z ->
  forall st exit st',
    (ls_best_acc st = None /\ ls_n_epochs_without_improving st = 0)
    \/ (exists w, starts_from_best run_epoch tmp_model_name patience st w) ->
    epoch_loop run_epoch tmp_model_name patience epochs st = (Ok exit, st') ->
    match exit with
    | Exhausted =>
        (epochs = [] /\ st' = st)
        \/ exists w, starts_from_best run_epoch tmp_model_name patience st' w
    | EarlyStopping =>
        exists w, stopped_after_patience run_epoch tmp_model_name patience st' w
    end.
Proof.
  intros Hpatience.
  induction epochs as [|epoch rest IH]; intros st exit st' Hstart Hloop.
  - simpl in Hloop. injection Hloop as <- <-. by left.
  - apply epoch_loop_cons_Ok in Hloop
      as (w_start & w' & acc & st1 & Hsess & Hrun & Hsel & Hnext).
    apply select_model_Ok in Hsel as [Hself1 Hsel].
    assert (Hsess1 : ls_self st1 !! "sess_" = Some (VSession (Some w'))).
    { rewrite Hself1. simpl. apply lookup_insert_eq. }
    assert (Hrest : forall st2 w,
               starts_from_best run_epoch tmp_model_name patience st2 w ->
               epoch_loop run_epoch tmp_model_name patience rest st2 = (Ok exit, st') ->
               match exit with
               | Exhausted =>
                   (epoch :: rest = [] /\ st' = st)
                   \/ exists w, starts_from_best run_epoch tmp_model_name patience st' w
               | EarlyStopping =>
                   exists w, stopped_after_patience run_epoch tmp_model_name patience st' w
               end).
    { intros st2 w Hinv Hloop. specialize (IH st2 exit st' (or_intror (ex_intro _ w Hinv)) Hloop).
      destruct exit; [|done]. right. destruct IH as [[_ ->]|IH]; [by exists w | done]. }
    destruct Hsel as [(Hbest1 & Hcount1 & Hsave)|(best & Hbest & Hle & Hbest1 & Hcount1 & Hfs1)].
    + destruct Hnext as [(Hstop & _ & _)|(Hgo & st2 & Hres & Hloop)]; [lia|].
      pose proof (restore_best_counter _ _ Hres) as Hcount2.
      apply restore_best_Ok in Hres as ((sfx & w2 & Hhead & Hfile & Hsess2) & Hfs2 & Hbest2);
        [|by rewrite Hbest1].
      assert (Hw : w2 = w').
      { rewrite Hfs2 in Hfile.
        rewrite (save_model_first_file _ w' _ _ sfx (lookup_insert_eq _ _ _) Hsave Hhead)
          in Hfile. by injection Hfile. }
      subst w2. apply (Hrest st2 w'); [|done].
      split; [|split; [done | lia]].
      exists epoch, w_start, acc, sfx. rewrite Hbest2, Hbest1. done.
    + destruct Hstart as [[Hnone _]|(w & Hcheckpoint & Hsess0 & Hcount0)].
      { simpl in Hbest. congruence. }
      rewrite Hsess0 in Hsess. injection Hsess as <-.
      assert (Hcheckpoint1 : checkpoint_of_best run_epoch tmp_model_name st1 w).
      { destruct Hcheckpoint as (epoch0 & w0 & best0 & sfx & Hrun0 & Hbest0 & Hhead & Hfile).
        exists epoch0, w0, best0, sfx. rewrite Hbest1, Hfs1. simpl in Hbest.
        split; [done|]. split; [congruence|]. done. }
      destruct Hnext as [(Hstop & -> & ->)|(Hgo & st2 & Hres & Hloop)].
      * exists w. split; [done|]. split; [simpl in Hcount1; lia|].
        exists epoch, w', acc, best. done.
      * pose proof (restore_best_counter _ _ Hres) as Hcount2.
        apply restore_best_Ok in Hres as ((sfx & w2 & Hhead & Hfile & Hsess2) & Hfs2 & Hbest2);
          [|by rewrite Hbest1].
        assert (Hw : w2 = w).
        { destruct Hcheckpoint1 as (_ & _ & _ & sfx1 & _ & _ & Hhead1 & Hfile1).
          rewrite Hhead in Hhead1. injection Hhead1 as <-.
          rewrite Hfs2, Hfile1 in Hfile. by injection Hfile. }
        subst w2. apply (Hrest st2 w); [|done].
        split; [|split; [done | lia]].
        destruct Hcheckpoint1 as (epoch0 & w0 & best0 & sfx1 & Hrun0 & Hbest0 & Hhead1 & Hfile1).
        exists epoch0, w0, best0, sfx1. rewrite Hbest2, Hfs2. done.
Qed.

(** When every epoch of a list follows a reload, the loop can only end
    without an exception if the list is empty. *)
Lemma epoch_loop_after_reload (patience : Z) (epochs : list nat) (st st' : loop_state)
    (exit : loop_exit) :
  fetches_first_graph run_epoch -> Forall (fun epoch => 0 < epoch) epochs ->
  epoch_loop run_epoch tmp_model_name patience epochs st = (Ok exit, st') ->
  epochs = [] /\ exit = Exhausted /\ st' = st.
Proof.
  intros Hstale Hlater Hloop. destruct epochs as [|epoch rest].
  - simpl in Hloop. by injection Hloop as <- <-.
  - apply epoch_loop_cons_Ok in Hloop as (w & w' & acc & _ & _ & Hrun & _).
    apply Forall_cons in Hlater as [Hpos _].
    destruct (Hstale epoch w Hpos) as [e He]. congruence.
Qed.


(** X20 (the epoch loop of [fit], lines 160-247).  When the [try] block ends
    without an exception, the checkpoint on disk holds the variables that
    an epoch produced with the quality [best_acc].  If the epochs ran out,
    the session holds these variables as well, and fewer than [patience]
    epochs in a row have failed to improve.  If the loop stopped early,
    exactly [patience] epochs in a row have failed to improve: the last of
    them started from the variables of the checkpoint, and the session is
    left with the variables it produced, whose quality is not above
    [best_acc]. *)
Theorem fit_try_best_checkpoint (self : attrs) (fs : filesystem) (ve vp : value)
    (max_epochs patience : Z) (exit : loop_exit) (st : loop_state) :
  self !! "max_epochs" = Some ve -> as_int ve = Some max_epochs -> (0 < max_epochs)%Z ->
  self !! "patience" = Some vp -> as_int vp = Some patience -> (0 < patience)%Z ->
  fit_try run_epoch tmp_model_name self fs = (Ok exit, st) ->
  exists w,
    match exit with
    | Exhausted => starts_from_best run_epoch tmp_model_name patience st w
    | EarlyStopping => stopped_after_patience run_epoch tmp_model_name patience st w
    end.
Proof.
  intros Hve He Hepochs Hvp Hp Hpatience. unfold fit_try, getattr.
  rewrite Hve, Hvp, He, Hp. intros Hloop.
  apply (epoch_loop_invariant patience _ Hpatience) in Hloop; [|by left].
  destruct exit; [|done]. destruct Hloop as [[Hnil _]|Hinv]; [|done].
  exfalso. destruct (Z.to_nat max_epochs) as [|n] eqn:Hn; [lia | discriminate].
Qed.

End BestCheckpointFacts.

(** The example with a single epoch: the weights [10] are saved and
    reloaded, and the loop has run out of epochs. *)
Lemma toy_fetches_first_graph : fetches_first_graph toy_run_epoch.
Proof. intros [|epoch] w Hpos; [lia|]. by eexists. Qed.

Lemma toy_single_epoch_run :
  fit_try (H := toy_collaborators) toy_run_epoch toy_tmp_model_name toy_single_epoch ∅
  = (Ok Exhausted,
     (fit_try (H := toy_collaborators) toy_run_epoch toy_tmp_model_name toy_single_epoch ∅).2).
Proof.
  assert (Hexit : (fit_try (H := toy_collaborators) toy_run_epoch toy_tmp_model_name
                     toy_single_epoch ∅).1 = Ok Exhausted) by (vm_compute; reflexivity).
  destruct (fit_try (H := toy_collaborators) toy_run_epoch toy_tmp_model_name
              toy_single_epoch ∅) as [exit st].
  cbn [fst snd] in *. by rewrite Hexit.
Qed.


Lemma fit_try_best_checkpoint_witness :
  let r := fit_try (H := toy_collaborators) toy_run_epoch toy_tmp_model_name
             toy_single_epoch ∅ in
  toy_single_epoch !! "max_epochs" = Some (VInt 1)
  /\ toy_single_epoch !! "patience" = Some (VInt 1)
  /\ r.1 = Ok Exhausted
  /\ exists w,
       starts_from_best (H := toy_collaborators) toy_run_epoch toy_tmp_model_name 1 r.2 w.
Proof.
  intros r.
  assert (He : toy_single_epoch !! "max_epochs" = Some (VInt 1)) by (vm_compute; reflexivity).
  assert (Hp : toy_single_epoch !! "patience" = Some (VInt 1)) by (vm_compute; reflexivity).
  split; [exact He|]. split; [exact Hp|]. split; [exact (f_equal fst toy_single_epoch_run)|].
  exact (fit_try_best_checkpoint (H := toy_collaborators) toy_run_epoch toy_tmp_model_name
           toy_single_epoch ∅ (VInt 1) (VInt 1) 1 1 Exhausted r.2
           He eq_refl ltac:(lia) Hp eq_refl ltac:(lia) toy_single_epoch_run).
Defined.
(** * The confidences of the calibration (lines 251-296) *)

Section MatrixFacts.

Lemma mat_add_matrix_of (rows cols : nat) (g h : nat -> nat -> Q) :
  mat_add (matrix_of rows cols g) (matrix_of rows cols h)
  = matrix_of rows cols (fun i c => (g i c + h i c)%Q).
Proof.
  unfold mat_add, matrix_of.
  induction (seq 0 rows) as [|i l IH]; [done|]. cbn [map zip_with]. f_equal; [clear IH | exact IH].
  induction (seq 0 cols) as [|c l' IH']; [done|]. cbn [map zip_with]. by f_equal.
Qed.

Lemma foldl_mat_add_matrix_of (rows cols : nat) (gs : list (nat -> nat -> Q)) :
  forall g0,
    foldl mat_add (matrix_of rows cols g0) (matrix_of rows cols <$> gs)
    = matrix_of rows cols (fun i c => foldl Qplus (g0 i c) ((fun g => g i c) <$> gs)).
Proof.
  induction gs as [|g gs IH]; intros g0; [done|].
  cbn [fmap list_fmap foldl]. rewrite mat_add_matrix_of.
  change (list_fmap _ _ (matrix_of rows cols) gs) with (matrix_of rows cols <$> gs).
  by rewrite IH.
Qed.

Lemma map_matrix_of (rows cols : nat) (g : nat -> nat -> Q) (f : Q -> Q) :
  map (map f) (matrix_of rows cols g) = matrix_of rows cols (fun i c => f (g i c)).
Proof.
  unfold matrix_of. rewrite map_map. apply map_ext. intros i. by rewrite map_map.
Qed.

Lemma matrix_of_lookup (rows cols : nat) (g : nat -> nat -> Q) (i : nat) (row : list Q) :
  matrix_of rows cols g !! i = Some row ->
  i < rows /\ row = map (fun c => g i c) (seq 0 cols).
Proof.
  unfold matrix_of. intros Hrow.
  change (map ?f ?l) with (f <$> l) in Hrow.
  apply list_lookup_fmap_Some in Hrow as (i' & -> & Hi).
  apply lookup_seq in Hi as [-> Hi]. split; [lia | done].
Qed.

Lemma elem_of_row (cols : nat) (g : nat -> Q) (x : Q) :
  x ∈ map g (seq 0 cols) <-> exists c, c < cols /\ x = g c.
Proof.
  rewrite list_elem_of_In, in_map_iff. split.
  - intros (c & <- & Hc). apply in_seq in Hc. exists c. split; [lia | done].
  - intros (c & Hc & ->). exists c. split; [done|]. apply in_seq. lia.
Qed.

Lemma foldl_Qplus_foldr (samples : list Q) (a : Q) :
  (foldl Qplus a samples == a + foldr Qplus 0 samples)%Q.
Proof.
  revert a. induction samples as [|x samples IH]; intros a; simpl.
  - Lqa.lra.
  - rewrite IH. Lqa.lra.
Qed.

End MatrixFacts.

Lemma mapM_Ok_fmap {A B : Type} (f : A -> result B) (g : A -> B) (l : list A) (bs : list B) :
  (forall a b, f a = Ok b -> b = g a) -> mapM f l = Ok bs -> bs = g <$> l.
Proof.
  intros Hf Hm. apply mapM_Ok_Forall2 in Hm.
  induction Hm as [|a b l bs Hab _ IH]; [done|]. cbn [fmap list_fmap]. f_equal; [by apply Hf | done].
Qed.

Section ConfidenceFacts.

Context `{Collaborators}.

Variables (self : attrs) (w : weights) (rows n_classes : nat).

Hypothesis session_initialised : self !! "sess_" = Some (VSession (Some w)).
Hypothesis distribution_built :
  self !! "labels_distribution_" = Some (VCategorical rows n_classes).

Lemma run_probs_matrix (run : nat) (feed_dict : list (value * ndarray))
    (probs : list (list Q)) :
  run_probs self run feed_dict = Ok probs ->
  probs = matrix_of rows n_classes (probs_of_run w run (snd <$> feed_dict)).
Proof.
  unfold run_probs, getattr. rewrite session_initialised, distribution_built.
  cbn [mbind result_bind]. destruct (forallb feedable feed_dict); [|discriminate].
  by intros [= <-].
Qed.

(** The entries of the averaged matrix are the averages of the passes. *)
Lemma monte_carlo_mean_matrix (run num_monte_carlo : nat) (feed_dict : list (value * ndarray))
    (mean_probs : list (list Q)) :
  0 < num_monte_carlo ->
  monte_carlo_mean self run num_monte_carlo feed_dict = Ok mean_probs ->
  exists g,
    mean_probs = matrix_of rows n_classes g
    /\ forall i c,
         (g i c == averaged_probability w run num_monte_carlo (snd <$> feed_dict) i c)%Q.
Proof.
  intros Hpos Hmean. destruct num_monte_carlo as [|passes]; [lia|]. clear Hpos.
  unfold monte_carlo_mean in Hmean. inv_bind Hmean as probs Hprobs.
  injection Hmean as <-.
  set (p := fun pass => probs_of_run w (run + pass) (snd <$> feed_dict)).
  apply (mapM_Ok_fmap _ (fun pass => matrix_of rows n_classes (p pass))) in Hprobs.
  2:{ intros pass b Hb. by apply run_probs_matrix in Hb. }
  subst probs. cbn [seq fmap list_fmap np_mean_axis0 length].
  change (list_fmap _ _ (fun pass => matrix_of rows n_classes (p pass)) (seq 1 passes))
    with ((fun pass => matrix_of rows n_classes (p pass)) <$> seq 1 passes).
  rewrite (list_fmap_compose p (matrix_of rows n_classes)).
  rewrite foldl_mat_add_matrix_of, map_matrix_of, length_fmap, length_fmap, length_seq.
  eexists. split; [reflexivity|]. intros i c. cbv beta.
  unfold averaged_probability. cbn [seq fmap list_fmap foldr].
  rewrite foldl_Qplus_foldr.
  rewrite <- list_fmap_compose.
  change (list_fmap _ _ ?f ?l) with (f <$> l).
  reflexivity.
Qed.

End ConfidenceFacts.

Section CalibrationFacts.

Context `{Collaborators}.

Lemma fill_feed_dict_arrays (self : attrs) (X : list ndarray)
    (feed_dict : list (value * ndarray)) :
  fill_feed_dict self X None = Ok feed_dict -> snd <$> feed_dict = X.
Proof.
  unfold fill_feed_dict. intros Hfeed. inv_bind Hfeed as batch_size Hb.
  destruct X as [|X0 [|X1 [|X2 [|]]]]; try discriminate.
  destruct (as_int batch_size); [|discriminate].
  destruct (decide _); [|discriminate].
  inv_bind Hfeed as input_ids Hids. inv_bind Hfeed as input_mask Hmask.
  inv_bind Hfeed as segment_ids Hsegment. by injection Hfeed as <-.
Qed.

(** The batch in position [k] is averaged over the session calls from
    number [run + k * num_monte_carlo] on, and leaves the greatest entry of
    each row of the averaged matrix in its slice of the array. *)
Lemma max_probabilities_batches (self : attrs) (num_monte_carlo : nat)
    (X_tokenized : list ndarray) (bounds : list (nat * nat)) :
  forall run probabilities confidences run',
    separate_batches (length probabilities) bounds ->
    max_probabilities self run num_monte_carlo X_tokenized bounds probabilities
    = Ok (confidences, run') ->
    length confidences = length probabilities
    /\ run' = run + length bounds * num_monte_carlo
    /\ forall k cur_batch, bounds !! k = Some cur_batch ->
         exists feed_dict mean_probs maxima,
           fill_feed_dict self
             ((fun channel => np_slice channel cur_batch.1 cur_batch.2) <$> X_tokenized)
             None = Ok feed_dict
           /\ monte_carlo_mean self (run + k * num_monte_carlo) num_monte_carlo feed_dict
              = Ok mean_probs
           /\ mapM np_max mean_probs = Ok maxima
           /\ length maxima = cur_batch.2 - cur_batch.1
           /\ py_slice confidences cur_batch.1 cur_batch.2 = maxima.
Proof.
  induction bounds as [|cur rest IH]; intros run probs confs run' Hsep Hmax.
  - simpl in Hmax. injection Hmax as <- <-. split; [done|]. split; [simpl; lia|].
    intros k b Hb. done.
  - simpl in Hsep. destruct Hsep as (Hrange & Hdisj & Hsep).
    simpl in Hmax. inv_bind Hmax as feed_dict Hfeed. inv_bind Hmax as mean_probs Hmean.
    inv_bind Hmax as maxima Hmaxima. inv_bind Hmax as probs1 Hassign.
    destruct (np_assign_slice_lookup _ _ _ _ _ Hrange Hassign) as (Hlen1 & Hvals & Hlook1).
    rewrite <- Hlen1 in Hsep.
    destruct (IH _ _ _ _ Hsep Hmax) as (Hlen & Hrun & Hin).
    destruct (max_probabilities_slices _ _ _ _ _ _ _ _ Hsep Hmax) as (_ & Hout & _).
    split; [lia|]. split; [simpl; lia|].
    intros [|k] b Hb.
    + injection Hb as <-. exists feed_dict, mean_probs, maxima.
      rewrite Nat.mul_0_l, Nat.add_0_r. do 4 (split; [done|]).
      apply list_eq. intros i. rewrite lookup_py_slice.
      case_decide as Hi.
      * rewrite Hout.
        -- rewrite Hlook1, decide_True by lia. f_equal. lia.
        -- intros b Hb Hbi. rewrite Forall_forall in Hdisj.
           destruct (Hdisj b Hb) as [Hd|Hd]; lia.
      * symmetry. apply lookup_ge_None_2. lia.
    + cbn [lookup list_lookup] in Hb. destruct (Hin k b Hb) as (fd & mp & mx & ? & Hm & ? & ? & ?).
      exists fd, mp, mx. replace (run + S k * num_monte_carlo)
        with (run + num_monte_carlo + k * num_monte_carlo) by lia.
      done.
Qed.

Section Session.

Variables (self : attrs) (w : weights) (rows n_classes : nat).

Hypothesis session_initialised : self !! "sess_" = Some (VSession (Some w)).
Hypothesis distribution_built :
  self !! "labels_distribution_" = Some (VCategorical rows n_classes).

(** When the batches cover the rows, every entry of the array is the top
    averaged class probability of its row. *)
Lemma max_probabilities_confidences (num_monte_carlo : nat) (X_tokenized : list ndarray)
    (bounds : list (nat * nat)) (n run run' : nat) (confidences : list Q) :
  covers_rows n bounds ->
  max_probabilities self run num_monte_carlo X_tokenized bounds (np_zeros n)
  = Ok (confidences, run') ->
  confidences_of w num_monte_carlo n_classes run X_tokenized bounds n confidences
  /\ run' = run + length bounds * num_monte_carlo.
Proof.
  intros [Hsep Hcover] Hmax.
  assert (Hzeros : length (np_zeros n) = n) by apply repeat_length.
  rewrite <- Hzeros in Hsep.
  destruct (max_probabilities_batches _ _ _ _ _ _ _ _ Hsep Hmax) as (Hlen & Hrun & Hin).
  split; [|done]. split; [lia|]. intros j Hj.
  destruct (Hcover j Hj) as (b & Hb & Hjb).
  apply list_elem_of_lookup in Hb as [k Hk].
  destruct (Hin k b Hk) as (feed_dict & mean_probs & maxima & Hfeed & Hmean & Hmaxima
                            & Hcount & Hslice).
  assert (Hi : j - b.1 < length maxima) by lia.
  apply lookup_lt_is_Some in Hi as [m Hm].
  exists k, b, m. split; [done|]. split; [done|]. split.
  { rewrite <- Hslice, lookup_py_slice, decide_True in Hm by lia.
    by replace (b.1 + (j - b.1)) with j in Hm by lia. }
  apply mapM_Ok_Forall2 in Hmaxima.
  destruct (Forall2_lookup_r _ _ _ _ _ Hmaxima Hm) as (row & Hrow & Hmax_row).
  destruct num_monte_carlo as [|passes].
  { unfold monte_carlo_mean in Hmean. simpl in Hmean. injection Hmean as <-. done. }
  destruct (monte_carlo_mean_matrix self w rows n_classes session_initialised
              distribution_built _ _ _ _ (Nat.lt_0_succ passes) Hmean) as (g & -> & Hg).
  rewrite (fill_feed_dict_arrays _ _ _ Hfeed) in Hg.
  apply matrix_of_lookup in Hrow as [_ ->].
  apply np_max_spec in Hmax_row as [Hin_row Hgreatest]. split.
  - apply elem_of_row in Hin_row as (c & Hc & ->). exists c. split; [done | apply Hg].
  - intros c Hc. rewrite <- Hg. apply Hgreatest. apply elem_of_row. by exists c.
Qed.

End Session.

End CalibrationFacts.

(** ** The batches of [fit] cover the rows *)

Lemma disjoint_bounds_sym (b1 b2 : nat * nat) : disjoint_bounds b1 b2 -> disjoint_bounds b2 b1.
Proof. unfold disjoint_bounds. tauto. Qed.

Lemma separate_batches_Permutation (n : nat) (bounds bounds' : list (nat * nat)) :
  bounds ≡ₚ bounds' -> separate_batches n bounds -> separate_batches n bounds'.
Proof.
  induction 1 as [|b l l' Hperm IH|b1 b2 l|l1 l2 l3 _ IH1 _ IH2]; [done | | | auto].
  - cbn [separate_batches]. intros (Hrange & Hdisj & Hsep).
    split; [done|]. split; [by rewrite <- Hperm | auto].
  - cbn [separate_batches]. intros (Hr2 & Hd2 & Hr1 & Hd1 & Hsep).
    apply Forall_cons in Hd2 as [Hd21 Hd2].
    split; [done|]. split; [|done].
    constructor; [by apply disjoint_bounds_sym | done].
Qed.

Lemma covers_rows_Permutation (n : nat) (bounds bounds' : list (nat * nat)) :
  bounds ≡ₚ bounds' -> covers_rows n bounds -> covers_rows n bounds'.
Proof.
  intros Hperm [Hsep Hcover]. split; [by eapply separate_batches_Permutation|].
  intros j Hj. destruct (Hcover j Hj) as (b & Hb & Hjb). exists b. by rewrite <- Hperm.
Qed.

(** The bounds of lines 136-141, 146-151 and 281-286 cover the rows. *)
Lemma bounds_of_batches_upto_covers (n : nat) (batch_size : Z) :
  (0 < batch_size)%Z ->
  exists bounds, bounds_of_batches_upto n batch_size = Ok bounds /\ covers_rows n bounds.
Proof.
  intros Hpos. unfold bounds_of_batches_upto.
  rewrite decide_False by lia. eexists. split; [reflexivity|].
  cbv zeta.
  set (B := Z.to_nat batch_size).
  replace batch_size with (Z.of_nat B) by lia.
  setoid_rewrite batch_of_iteration.
  destruct (n_batches_ceil n B ltac:(lia)) as [Hge Hlt].
  set (n_batches := Z.to_nat (- ((- Z.of_nat n) / Z.of_nat B))) in *.
  split; [apply separate_tiling_batches; lia|].
  intros j Hj.
  pose proof (rows_of_tiling_batches n B n_batches 0 ltac:(lia)) as Hrows.
  cbn [Nat.mul Nat.add] in Hrows. rewrite Nat.sub_0_r in Hrows.
  replace (Nat.min (n_batches * B) n) with n in Hrows by lia.
  assert (Hin : j ∈ seq 0 n) by (apply elem_of_seq; lia).
  rewrite <- Hrows in Hin. unfold rows_of_batches in Hin.
  apply list_elem_of_bind in Hin as (b & Hjb & Hb).
  exists b. split; [done|]. apply elem_of_seq in Hjb. lia.
Qed.

Section Certainty.

Context `{Collaborators}.


End Certainty.


(** With probabilities that change from pass to pass and from row to row:
    two passes give row 0 the averages 3/16 and 13/16, row 1 the averages
    5/16 and 11/16; the confidences are 13/16 and 11/16, the threshold is
    the lesser. *)
Example fit_threshold_averages_example :
  exists t,
    (fit_threshold (H := varying_collaborators) toy_trained 0 toy_batch [(0, 2)] None None
       ≫= fun self => getattr self "certainty_threshold_") = Ok (VFloat t)
    /\ (t == 11 # 16)%Q.
Proof. eexists. split; [vm_compute; reflexivity | reflexivity]. Qed.
